(** * AIPex voice mode: the Voice Interaction Coordinator

    A shallow embedding of
    - [src/lib/components/voice-mode/use-voice-mode.ts]: the [useVoiceMode]
      hook (lines 1-249) and the two methods of [ParticleSystem] it calls
      (lines 393-418),
    - [src/lib/components/voice-mode/index.tsx]: the component [VoiceMode]
      (lines 1-293) and the class [AudioManager] (lines 295-541),
    together with the small part of the browser they talk to: timers,
    animation frames, speech recognizers, the speech-synthesis queue and the
    audio capture resources.

    Amplitudes are JavaScript numbers; they are embedded as binary64 primitive
    floats, so every sum, quotient and comparison below is the one the
    program performs.  Strings that come from the recognizer are sequences of
    UTF-16 code units.  Every handler runs to completion in one turn of the
    event loop; an [async] function is split at each [await] that really
    suspends, one definition per turn. *)

From Stdlib Require Import List String Ascii NArith ZArith Bool Lia PrimFloat Uint63
  Floats.
Import ListNotations.

Set Warnings "-inexact-float".

(** ** JavaScript values *)

Module JS.

(** A JavaScript string: its UTF-16 code units. *)
Definition JSString := list N.

Definition of_string (s : string) : JSString :=
  map N_of_ascii (list_ascii_of_string s).

Fixpoint eqb (s t : JSString) : bool :=
  match s, t with
  | [], [] => true
  | c :: s', d :: t' => N.eqb c d && eqb s' t'
  | _, _ => false
  end.

(** ECMAScript [WhiteSpace] and [LineTerminator] code points: what
    [String.prototype.trim] strips. *)
Definition isWhiteSpace (c : N) : bool :=
  existsb (N.eqb c)
    [9; 10; 11; 12; 13; 32; 160; 5760; 8232; 8233; 8239; 8287; 12288; 65279]%N
  || (N.leb 8192 c && N.leb c 8202).

Fixpoint trimStart (s : JSString) : JSString :=
  match s with
  | c :: s' => if isWhiteSpace c then trimStart s' else s
  | [] => []
  end.

Definition trim (s : JSString) : JSString :=
  rev (trimStart (rev (trimStart s))).

(** Truthiness of a string: it is not empty. *)
Definition truthy (s : JSString) : bool :=
  match s with [] => false | _ :: _ => true end.

(** [a || b] on strings. *)
Definition or_else (a : option string) (b : string) : string :=
  match a with
  | Some s => if String.eqb s EmptyString then b else s
  | None => b
  end.

(** [a ?? b]. *)
Definition nullish {A} (a : option A) (b : A) : A :=
  match a with Some x => x | None => b end.

Definition is_nan (x : float) : bool := negb (PrimFloat.eqb x x).

Definition is_neg_zero (x : float) : bool :=
  match PrimFloat.classify x with FloatClass.NZero => true | _ => false end.

(** [Math.max] and [Math.min] on two numbers. *)
Definition Math_max (a b : float) : float :=
  if is_nan a || is_nan b then nan
  else if PrimFloat.ltb a b then b
  else if PrimFloat.ltb b a then a
  else if is_neg_zero a then b else a.

Definition Math_min (a b : float) : float :=
  if is_nan a || is_nan b then nan
  else if PrimFloat.ltb a b then a
  else if PrimFloat.ltb b a then b
  else if is_neg_zero a then a else b.

(** A non-negative integer as a number. *)
Definition of_nat (n : nat) : float :=
  PrimFloat.of_uint63 (Uint63.of_Z (Z.of_nat n)).

Definition of_Z (z : Z) : float :=
  PrimFloat.of_uint63 (Uint63.of_Z z).

(** [xs.reduce((a, b) => a + b, 0)]. *)
Definition sum (xs : list float) : float :=
  fold_left PrimFloat.add xs 0%float.

(** An [Error] object; only its message is ever read. *)
Record Error := mkError { message : string }.

End JS.

Import JS.

(** ** Types of [types.ts] *)

Inductive VoiceState := idle | listening | speaking | processing.

Definition VoiceState_eqb (a b : VoiceState) : bool :=
  match a, b with
  | idle, idle | listening, listening
  | speaking, speaking | processing, processing => true
  | _, _ => false
  end.

Record AudioData := mkAudioData {
  ad_frequencyData : list Z;
  averageFrequency : float;
  isActive : bool
}.

Record SpeechRecognitionResult := mkResult {
  res_transcript : JSString;
  isFinal : bool;
  confidence : float
}.

(** [VoiceModeConfig]: the three callbacks belong to the host; the model
    records whether each was supplied (a call through [?.] does nothing
    otherwise). *)
Record VoiceModeConfig := mkConfig {
  has_onTextRecognized : bool;
  has_onSpeechComplete : bool;
  has_onError : bool;
  language : option string;
  continuous : option bool
}.

(** ** The state of the program and of the browser *)

(** The uniforms of [ParticleSystem] that the hook writes to. *)
Record ParticleSystem := mkParticles {
  uState : Z;
  targetRadius : float;
  uFrequency : float
}.

(** The values held by one mounted [useVoiceMode]: the four [useState]
    cells and the refs.  [audioManagerRef] tells whether the ref holds the
    manager ([true]) or [null]. *)
Record Hook := mkHook {
  voiceState : VoiceState;
  transcript : JSString;
  isInitialized : bool;
  error : option string;
  audioManagerRef : bool;
  particleSystemRef : option ParticleSystem;
  lastFinalTranscriptRef : JSString;
  voiceStateRef : VoiceState;
  audioLevelHistoryRef : list float;
  stateChangeTimerRef : option positive
}.

(** The private fields of [AudioManager]; a handle names the browser object
    the field refers to. *)
Record AudioManager := mkAudioManager {
  audioContext : option positive;
  analyser : option positive;
  microphone : option positive;
  recognition : option positive;
  frequencyData : option (list Z);
  animationId : option positive;
  stream : option positive
}.

(** What a pending [setTimeout] will run. *)
Inductive TimerCallback :=
| DebounceCheck                                   (* use-voice-mode.ts 77-89 *)
| ResponseTimer (isInitialized voiceEnabled micEnabled : bool).
                                                  (* index.tsx 44-58 *)

Record Timer := mkTimer {
  timerId : positive;
  timerDelay : Z;
  timerCallback : TimerCallback
}.

(** A [SpeechRecognition] object made by [startListening]: its properties,
    and the [continuous] argument its [onend] closure captured. *)
Record Recognizer := mkRecognizer {
  recId : positive;
  rec_continuous : bool;
  rec_interimResults : bool;
  rec_lang : string;
  rec_maxAlternatives : Z
}.

(** A [getUserMedia] call that has not settled, with the arguments of the
    [startListening] call that waits for it. *)
Record MicRequest := mkMicRequest {
  reqId : positive;
  req_language : string;
  req_continuous : bool
}.

(** The browser, as far as the program can tell:
    - [timers]: pending [setTimeout] calls; [frames]: pending
      [requestAnimationFrame] calls (the callback is always [analyze]);
    - [started]: recognizers whose started flag is set (it stays set after
      [stop()] until the [end] event), [stopping]: those asked to stop;
    - [utterances]: the synthesis queue; [promises]: utterances whose
      completion promise has not settled;
    - [openContexts], [connected], [liveStreams]: audio contexts not closed,
      source nodes still connected, streams whose tracks are live. *)
Record Browser := mkBrowser {
  nextHandle : positive;
  timers : list Timer;
  frames : list positive;
  micRequests : list MicRequest;
  recognizers : list Recognizer;
  started : list positive;
  stopping : list positive;
  utterances : list positive;
  promises : list positive;
  openContexts : list positive;
  connected : list positive;
  liveStreams : list positive
}.

(** What leaves the subsystem: calls of the host's callbacks, console
    output and rejections that nothing handles, in the order they occur. *)
Inductive Output :=
| OnTextRecognized (text : JSString)
| OnSpeechComplete
| OnError (e : Error)
| OnSubmit (text : JSString)
| OnClose
| ConsoleError (msg : string)
| ConsoleLog (msg : string)
| UnhandledRejection (e : Error).

(** The [useState] cells of the component [VoiceMode], and the
    continuations it attached with [.then] to calls of [speak] that have not
    finished: the utterance awaited and the [micEnabled] the closure saw. *)
Record VoiceModeState := mkVoiceModeState {
  recognizedText : JSString;
  pendingResponse : bool;
  voiceEnabled : bool;
  micEnabled : bool;
  thenCallbacks : list (positive * bool)
}.

Record World := mkWorld {
  hook : Hook;
  am : AudioManager;
  br : Browser;
  ui : VoiceModeState;
  log : list Output
}.

(* setters of [Hook] *)
Definition set_voiceState (x : VoiceState) (h : Hook) : Hook :=
    mkHook x (transcript h) (isInitialized h) (error h) (audioManagerRef h)
    (particleSystemRef h) (lastFinalTranscriptRef h) (voiceStateRef h)
    (audioLevelHistoryRef h) (stateChangeTimerRef h).
Definition set_transcript (x : JSString) (h : Hook) : Hook :=
    mkHook (voiceState h) x (isInitialized h) (error h) (audioManagerRef h)
    (particleSystemRef h) (lastFinalTranscriptRef h) (voiceStateRef h)
    (audioLevelHistoryRef h) (stateChangeTimerRef h).
Definition set_isInitialized (x : bool) (h : Hook) : Hook :=
    mkHook (voiceState h) (transcript h) x (error h) (audioManagerRef h)
    (particleSystemRef h) (lastFinalTranscriptRef h) (voiceStateRef h)
    (audioLevelHistoryRef h) (stateChangeTimerRef h).
Definition set_error (x : option string) (h : Hook) : Hook :=
    mkHook (voiceState h) (transcript h) (isInitialized h) x (audioManagerRef
    h) (particleSystemRef h) (lastFinalTranscriptRef h) (voiceStateRef h)
    (audioLevelHistoryRef h) (stateChangeTimerRef h).
Definition set_audioManagerRef (x : bool) (h : Hook) : Hook :=
    mkHook (voiceState h) (transcript h) (isInitialized h) (error h) x
    (particleSystemRef h) (lastFinalTranscriptRef h) (voiceStateRef h)
    (audioLevelHistoryRef h) (stateChangeTimerRef h).
Definition set_particleSystemRef (x : option ParticleSystem) (h : Hook) : Hook :=
    mkHook (voiceState h) (transcript h) (isInitialized h) (error h)
    (audioManagerRef h) x (lastFinalTranscriptRef h) (voiceStateRef h)
    (audioLevelHistoryRef h) (stateChangeTimerRef h).
Definition set_lastFinalTranscriptRef (x : JSString) (h : Hook) : Hook :=
    mkHook (voiceState h) (transcript h) (isInitialized h) (error h)
    (audioManagerRef h) (particleSystemRef h) x (voiceStateRef h)
    (audioLevelHistoryRef h) (stateChangeTimerRef h).
Definition set_voiceStateRef (x : VoiceState) (h : Hook) : Hook :=
    mkHook (voiceState h) (transcript h) (isInitialized h) (error h)
    (audioManagerRef h) (particleSystemRef h) (lastFinalTranscriptRef h) x
    (audioLevelHistoryRef h) (stateChangeTimerRef h).
Definition set_audioLevelHistoryRef (x : list float) (h : Hook) : Hook :=
    mkHook (voiceState h) (transcript h) (isInitialized h) (error h)
    (audioManagerRef h) (particleSystemRef h) (lastFinalTranscriptRef h)
    (voiceStateRef h) x (stateChangeTimerRef h).
Definition set_stateChangeTimerRef (x : option positive) (h : Hook) : Hook :=
    mkHook (voiceState h) (transcript h) (isInitialized h) (error h)
    (audioManagerRef h) (particleSystemRef h) (lastFinalTranscriptRef h)
    (voiceStateRef h) (audioLevelHistoryRef h) x.

(* setters of [AudioManager] *)
Definition set_audioContext (x : option positive) (a : AudioManager) : AudioManager :=
    mkAudioManager x (analyser a) (microphone a) (recognition a)
    (frequencyData a) (animationId a) (stream a).
Definition set_analyser (x : option positive) (a : AudioManager) : AudioManager :=
    mkAudioManager (audioContext a) x (microphone a) (recognition a)
    (frequencyData a) (animationId a) (stream a).
Definition set_microphone (x : option positive) (a : AudioManager) : AudioManager :=
    mkAudioManager (audioContext a) (analyser a) x (recognition a)
    (frequencyData a) (animationId a) (stream a).
Definition set_recognition (x : option positive) (a : AudioManager) : AudioManager :=
    mkAudioManager (audioContext a) (analyser a) (microphone a) x
    (frequencyData a) (animationId a) (stream a).
Definition set_frequencyData (x : option (list Z)) (a : AudioManager) : AudioManager :=
    mkAudioManager (audioContext a) (analyser a) (microphone a) (recognition
    a) x (animationId a) (stream a).
Definition set_animationId (x : option positive) (a : AudioManager) : AudioManager :=
    mkAudioManager (audioContext a) (analyser a) (microphone a) (recognition
    a) (frequencyData a) x (stream a).
Definition set_stream (x : option positive) (a : AudioManager) : AudioManager :=
    mkAudioManager (audioContext a) (analyser a) (microphone a) (recognition
    a) (frequencyData a) (animationId a) x.

(* setters of [Browser] *)
Definition set_nextHandle (x : positive) (b : Browser) : Browser :=
    mkBrowser x (timers b) (frames b) (micRequests b) (recognizers b) (started
    b) (stopping b) (utterances b) (promises b) (openContexts b) (connected b)
    (liveStreams b).
Definition set_timers (x : list Timer) (b : Browser) : Browser :=
    mkBrowser (nextHandle b) x (frames b) (micRequests b) (recognizers b)
    (started b) (stopping b) (utterances b) (promises b) (openContexts b)
    (connected b) (liveStreams b).
Definition set_frames (x : list positive) (b : Browser) : Browser :=
    mkBrowser (nextHandle b) (timers b) x (micRequests b) (recognizers b)
    (started b) (stopping b) (utterances b) (promises b) (openContexts b)
    (connected b) (liveStreams b).
Definition set_micRequests (x : list MicRequest) (b : Browser) : Browser :=
    mkBrowser (nextHandle b) (timers b) (frames b) x (recognizers b) (started
    b) (stopping b) (utterances b) (promises b) (openContexts b) (connected b)
    (liveStreams b).
Definition set_recognizers (x : list Recognizer) (b : Browser) : Browser :=
    mkBrowser (nextHandle b) (timers b) (frames b) (micRequests b) x (started
    b) (stopping b) (utterances b) (promises b) (openContexts b) (connected b)
    (liveStreams b).
Definition set_started (x : list positive) (b : Browser) : Browser :=
    mkBrowser (nextHandle b) (timers b) (frames b) (micRequests b)
    (recognizers b) x (stopping b) (utterances b) (promises b) (openContexts
    b) (connected b) (liveStreams b).
Definition set_stopping (x : list positive) (b : Browser) : Browser :=
    mkBrowser (nextHandle b) (timers b) (frames b) (micRequests b)
    (recognizers b) (started b) x (utterances b) (promises b) (openContexts b)
    (connected b) (liveStreams b).
Definition set_utterances (x : list positive) (b : Browser) : Browser :=
    mkBrowser (nextHandle b) (timers b) (frames b) (micRequests b)
    (recognizers b) (started b) (stopping b) x (promises b) (openContexts b)
    (connected b) (liveStreams b).
Definition set_promises (x : list positive) (b : Browser) : Browser :=
    mkBrowser (nextHandle b) (timers b) (frames b) (micRequests b)
    (recognizers b) (started b) (stopping b) (utterances b) x (openContexts b)
    (connected b) (liveStreams b).
Definition set_openContexts (x : list positive) (b : Browser) : Browser :=
    mkBrowser (nextHandle b) (timers b) (frames b) (micRequests b)
    (recognizers b) (started b) (stopping b) (utterances b) (promises b) x
    (connected b) (liveStreams b).
Definition set_connected (x : list positive) (b : Browser) : Browser :=
    mkBrowser (nextHandle b) (timers b) (frames b) (micRequests b)
    (recognizers b) (started b) (stopping b) (utterances b) (promises b)
    (openContexts b) x (liveStreams b).
Definition set_liveStreams (x : list positive) (b : Browser) : Browser :=
    mkBrowser (nextHandle b) (timers b) (frames b) (micRequests b)
    (recognizers b) (started b) (stopping b) (utterances b) (promises b)
    (openContexts b) (connected b) x.

(* setters of [World] *)
Definition set_hook (x : Hook) (w : World) : World :=
  mkWorld x (am w) (br w) (ui w) (log w).
Definition set_am (x : AudioManager) (w : World) : World :=
  mkWorld (hook w) x (br w) (ui w) (log w).
Definition set_br (x : Browser) (w : World) : World :=
  mkWorld (hook w) (am w) x (ui w) (log w).
Definition set_ui (x : VoiceModeState) (w : World) : World :=
  mkWorld (hook w) (am w) (br w) x (log w).
Definition set_log (x : list Output) (w : World) : World :=
  mkWorld (hook w) (am w) (br w) (ui w) x.

(* setters of [VoiceModeState] *)
Definition set_recognizedText (x : JSString) (v : VoiceModeState) : VoiceModeState :=
  mkVoiceModeState x (pendingResponse v) (voiceEnabled v) (micEnabled v) (thenCallbacks v).
Definition set_pendingResponse (x : bool) (v : VoiceModeState) : VoiceModeState :=
  mkVoiceModeState (recognizedText v) x (voiceEnabled v) (micEnabled v) (thenCallbacks v).
Definition set_voiceEnabled (x : bool) (v : VoiceModeState) : VoiceModeState :=
  mkVoiceModeState (recognizedText v) (pendingResponse v) x (micEnabled v) (thenCallbacks v).
Definition set_micEnabled (x : bool) (v : VoiceModeState) : VoiceModeState :=
  mkVoiceModeState (recognizedText v) (pendingResponse v) (voiceEnabled v) x (thenCallbacks v).
Definition set_thenCallbacks (x : list (positive * bool)) (v : VoiceModeState) : VoiceModeState :=
  mkVoiceModeState (recognizedText v) (pendingResponse v) (voiceEnabled v) (micEnabled v) x.

(** ** Handlers as state transformers that may throw *)

Inductive Completion (A : Type) :=
| Normal (a : A)
| Throw (e : Error).
Arguments Normal {A} a.
Arguments Throw {A} e.

Definition M (A : Type) : Type := World -> Completion A * World.

Definition ret {A} (a : A) : M A := fun w => (Normal a, w).

Definition bind {A B} (m : M A) (k : A -> M B) : M B :=
  fun w =>
    match m w with
    | (Normal a, w') => k a w'
    | (Throw e, w') => (Throw e, w')
    end.

Definition throw {A} (e : Error) : M A := fun w => (Throw e, w).

(** [try { m } catch (e) { h e }]. *)
Definition try_catch {A} (m : M A) (h : Error -> M A) : M A :=
  fun w =>
    match m w with
    | (Normal a, w') => (Normal a, w')
    | (Throw e, w') => h e w'
    end.

Definition gets {A} (f : World -> A) : M A := fun w => (Normal (f w), w).

Definition modify (f : World -> World) : M unit := fun w => (Normal tt, f w).

Declare Scope js_scope.
Delimit Scope js_scope with js.
Notation "x <- m ;; k" := (bind m (fun x => k))
  (at level 61, m at next level, right associativity) : js_scope.
Notation "m ;; k" := (bind m (fun _ => k))
  (at level 61, right associativity) : js_scope.
Open Scope js_scope.

Definition when (b : bool) (m : M unit) : M unit := if b then m else ret tt.

(** The world a computation leaves. *)
Definition exec {A} (m : M A) (w : World) : World := snd (m w).

Definition upd_hook (f : Hook -> Hook) : M unit :=
  modify (fun w => set_hook (f (hook w)) w).
Definition upd_am (f : AudioManager -> AudioManager) : M unit :=
  modify (fun w => set_am (f (am w)) w).
Definition upd_br (f : Browser -> Browser) : M unit :=
  modify (fun w => set_br (f (br w)) w).
Definition upd_ui (f : VoiceModeState -> VoiceModeState) : M unit :=
  modify (fun w => set_ui (f (ui w)) w).
Definition emit (o : Output) : M unit :=
  modify (fun w => set_log (log w ++ [o]) w).

(** ** The browser interfaces the program calls *)

Module Browser.

Definition mem (x : positive) (l : list positive) : bool :=
  existsb (Pos.eqb x) l.

Definition remove (x : positive) (l : list positive) : list positive :=
  filter (fun y => negb (Pos.eqb x y)) l.

(** A handle no object of the page has yet; never zero. *)
Definition fresh : M positive :=
  n <- gets (fun w => nextHandle (br w));;
  upd_br (set_nextHandle (Pos.succ n));;
  ret n.

Definition setTimeout (cb : TimerCallback) (delay : Z) : M positive :=
  id <- fresh;;
  upd_br (fun b => set_timers (timers b ++ [mkTimer id delay cb]) b);;
  ret id.

Definition clearTimeout (id : positive) : M unit :=
  upd_br (fun b =>
    set_timers (filter (fun t => negb (Pos.eqb id (timerId t))) (timers b)) b).

Definition requestAnimationFrame : M positive :=
  id <- fresh;;
  upd_br (fun b => set_frames (frames b ++ [id]) b);;
  ret id.

Definition cancelAnimationFrame (id : positive) : M unit :=
  upd_br (fun b => set_frames (remove id (frames b)) b).

(** [navigator.mediaDevices.getUserMedia]: the call is recorded; it
    settles in a later turn. *)
Definition getUserMedia (lang : string) (cont : bool) : M unit :=
  id <- fresh;;
  upd_br (fun b => set_micRequests (micRequests b ++ [mkMicRequest id lang cont]) b).

(** The stream a granted request delivers. *)
Definition newStream : M positive :=
  s <- fresh;;
  upd_br (fun b => set_liveStreams (liveStreams b ++ [s]) b);;
  ret s.

Definition newAudioContext : M positive :=
  c <- fresh;;
  upd_br (fun b => set_openContexts (openContexts b ++ [c]) b);;
  ret c.

Definition connect (node : positive) : M unit :=
  upd_br (fun b => set_connected (connected b ++ [node]) b).

Definition disconnect (node : positive) : M unit :=
  upd_br (fun b => set_connected (remove node (connected b)) b).

(** [AudioContext.close()] returns a promise that nobody awaits; on a
    closed context it is rejected with an [InvalidStateError]. *)
Definition closeContext (c : positive) : M unit :=
  b <- gets br;;
  if mem c (openContexts b)
  then upd_br (set_openContexts (remove c (openContexts b)))
  else emit (UnhandledRejection (mkError "InvalidStateError")).

Definition stopTracks (s : positive) : M unit :=
  upd_br (fun b => set_liveStreams (remove s (liveStreams b)) b).

Definition newSpeechRecognition (cont : bool) (lang : string) : M positive :=
  r <- fresh;;
  upd_br (fun b =>
    set_recognizers (recognizers b ++ [mkRecognizer r cont true lang 1]) b);;
  ret r.

(** [SpeechRecognition.start()]: an [InvalidStateError] while the started
    flag is set. *)
Definition recognitionStart (r : positive) : M unit :=
  b <- gets br;;
  if mem r (started b)
  then throw (mkError "InvalidStateError")
  else upd_br (set_started (started b ++ [r])).

(** [SpeechRecognition.stop()]: ignored unless the recognizer is started;
    the flag is cleared when the [end] event is delivered. *)
Definition recognitionStop (r : positive) : M unit :=
  b <- gets br;;
  if mem r (started b) && negb (mem r (stopping b))
  then upd_br (set_stopping (stopping b ++ [r]))
  else ret tt.

(** [speechSynthesis.cancel()] empties the queue. *)
Definition synthesisCancel : M unit := upd_br (set_utterances []).

(** [speechSynthesis.speak(new SpeechSynthesisUtterance(..))] inside the
    promise of [AudioManager.speak]. *)
Definition synthesisSpeak : M positive :=
  u <- fresh;;
  upd_br (fun b => set_promises (promises b ++ [u])
                     (set_utterances (utterances b ++ [u]) b));;
  ret u.

End Browser.

(** ** The class [AudioManager] (index.tsx 295-541) *)

(** How a [getUserMedia] call settles; a granted one comes with the bins the
    analyser reports at the first [analyze()]. *)
Inductive MicResult :=
| Granted (bins : list Z)
| Denied (err : Error).

Module AudioManagerClass.
Section Callbacks.

(** The callbacks registered by [onAudioData], [onTranscript] and
    [onError]; [None] is a field still [null]. *)
Variable onAudioDataCallback : option (AudioData -> M unit).
Variable onTranscriptCallback : option (SpeechRecognitionResult -> M unit).
Variable onErrorCallback : option (Error -> M unit).

Definition call {A} (cb : option (A -> M unit)) (a : A) : M unit :=
  match cb with Some f => f a | None => ret tt end.

(** [getByteFrequencyData(this.frequencyData)]. *)
Definition fill (fd bins : list Z) : list Z :=
  firstn (List.length fd) bins ++ skipn (List.length bins) fd.

(** The closure [analyze] of [startAnalyzing] (index.tsx 371-399). *)
Definition analyze (bins : list Z) : M unit :=
  a <- gets am;;
  match analyser a, frequencyData a with
  | Some _, Some fd =>
      let fd' := fill fd bins in
      upd_am (set_frequencyData (Some fd'));;
      let sum := fold_left (fun s b => (s + JS.of_Z b)%float) fd' 0%float in
      let average := (sum / JS.of_nat (List.length fd'))%float in
      let normalized := (average / 255)%float in
      let isActive := (0.01 <? normalized)%float in
      call onAudioDataCallback (mkAudioData fd' normalized isActive);;
      id <- Browser.requestAnimationFrame;;
      upd_am (set_animationId (Some id))
  | _, _ => ret tt
  end.

Definition startAnalyzing (bins : list Z) : M unit :=
  a <- gets am;;
  match analyser a, frequencyData a with
  | Some _, Some _ => analyze bins
  | _, _ => ret tt
  end.

(** [initAudioContext] (index.tsx 331-365), first turn: [true] when the
    context exists and the function returns at once; otherwise
    [getUserMedia] is called and the function waits for it. *)
Definition initAudioContext_begin (lang : string) (cont : bool) : M bool :=
  a <- gets am;;
  match audioContext a with
  | Some _ => ret true
  | None => Browser.getUserMedia lang cont;; ret false
  end.

(** The rest of the [try] block, once the stream is there: the stream is
    kept and the context made (index.tsx 336-345), *)
Definition createContext : M unit :=
  s <- Browser.newStream;;
  upd_am (set_stream (Some s));;
  c <- Browser.newAudioContext;;
  upd_am (set_audioContext (Some c)).

(** then the analyser is made, the microphone connected to it and the
    analysis started (index.tsx 346-359). *)
Definition connectAnalyser (bins : list Z) : M unit :=
  an <- Browser.fresh;;
  upd_am (set_analyser (Some an));;
  mic <- Browser.fresh;;
  upd_am (set_microphone (Some mic));;
  Browser.connect mic;;
  (* frequencyBinCount = fftSize / 2 = 128 *)
  upd_am (set_frequencyData (Some (repeat 0%Z 128)));;
  startAnalyzing bins.

Definition initAudioContext_granted (bins : list Z) : M unit :=
  createContext;;
  connectAnalyser bins.

(** [initAudioContext] from the [await] on: a rejection is thrown inside
    the [try], the [catch] reports it and throws it again. *)
Definition initAudioContext_resume (r : MicResult) : M unit :=
  try_catch
    match r with
    | Granted bins => initAudioContext_granted bins
    | Denied err => throw err
    end
    (fun error =>
       emit (ConsoleError "Failed to initialize audio context:");;
       call onErrorCallback (mkError "Microphone access denied");;
       throw error).

(** [startListening] (index.tsx 405-456) after [await initAudioContext()]. *)
Definition startRecognition (lang : string) (cont : bool) : M unit :=
  r <- Browser.newSpeechRecognition cont lang;;
  upd_am (set_recognition (Some r));;
  Browser.recognitionStart r.

(** The [catch] of [startListening]. *)
Definition startListening_catch {A} (m : M A) : M A :=
  try_catch m
    (fun error =>
       emit (ConsoleError "Failed to start listening:");;
       call onErrorCallback error;;
       throw error).

(** [startListening], first turn; [false] when it waits for the
    microphone. *)
Definition startListening_begin (lang : string) (cont : bool) : M bool :=
  startListening_catch
    (ready <- initAudioContext_begin lang cont;;
     if ready then startRecognition lang cont;; ret true else ret false).

(** [startListening], resumed when [getUserMedia] settles. *)
Definition startListening_resume (lang : string) (cont : bool)
    (r : MicResult) : M unit :=
  startListening_catch
    (initAudioContext_resume r;; startRecognition lang cont).

(** [recognition.onresult]; the event carries the last result. *)
Definition recognition_onresult (r : SpeechRecognitionResult) : M unit :=
  call onTranscriptCallback r.

(** [recognition.onerror]. *)
Definition recognition_onerror (code : string) : M unit :=
  emit (ConsoleError "Speech recognition error:");;
  call onErrorCallback (mkError ("Speech recognition error: " ++ code)).

(** [recognition.onend] (index.tsx 439-448); [cont] is the [continuous]
    argument of the [startListening] call that made the closure. *)
Definition recognition_onend (cont : bool) : M unit :=
  a <- gets am;;
  match recognition a with
  | Some cur =>
      if cont
      then try_catch (Browser.recognitionStart cur) (fun _ => ret tt)
      else ret tt
  | None => ret tt
  end.

(** [stopListening] (index.tsx 459-464). *)
Definition stopListening : M unit :=
  a <- gets am;;
  match recognition a with
  | Some r => Browser.recognitionStop r;; upd_am (set_recognition None)
  | None => ret tt
  end.

(** [speak] (index.tsx 467-486): the executor of the promise; the result
    names the utterance whose [onend] resolves and whose [onerror]
    rejects it. *)
Definition speak : M positive :=
  Browser.synthesisCancel;;
  Browser.synthesisSpeak.

(** [utterance.onerror]: the promise is rejected with this error. *)
Definition utterance_onerror : M Error :=
  emit (ConsoleError "Speech synthesis error:");;
  ret (mkError "Speech synthesis failed").

(** [stopSpeaking] (index.tsx 489-491). *)
Definition stopSpeaking : M unit := Browser.synthesisCancel.

(** [destroy] (index.tsx 514-541). *)
Definition destroy : M unit :=
  stopListening;;
  stopSpeaking;;
  a <- gets am;;
  match animationId a with
  | Some id => Browser.cancelAnimationFrame id
  | None => ret tt
  end;;
  match microphone a with
  | Some mic => Browser.disconnect mic
  | None => ret tt
  end;;
  match audioContext a with
  | Some c => Browser.closeContext c
  | None => ret tt
  end;;
  match stream a with
  | Some s => Browser.stopTracks s
  | None => ret tt
  end;;
  upd_am (set_audioContext None);;
  upd_am (set_analyser None);;
  upd_am (set_microphone None);;
  upd_am (set_recognition None);;
  upd_am (set_frequencyData None);;
  upd_am (set_stream None).

End Callbacks.
End AudioManagerClass.

(** ** The hook [useVoiceMode] (use-voice-mode.ts 1-249) *)

Module ParticleSystem.

(** [setState] (use-voice-mode.ts 393-413). *)
Definition setState (s : VoiceState) (p : ParticleSystem) : ParticleSystem :=
  match s with
  | idle => mkParticles 0 2.2%float (uFrequency p)
  | listening => mkParticles 1 2.6%float (uFrequency p)
  | speaking => mkParticles 2 2.4%float (uFrequency p)
  | processing => mkParticles 0 2.0%float (uFrequency p)
  end.

(** [updateFrequency] (use-voice-mode.ts 415-418). *)
Definition updateFrequency (f : float) (p : ParticleSystem) : ParticleSystem :=
  mkParticles (uState p) (targetRadius p)
    (JS.Math_min (JS.Math_max f 0%float) 1%float).

(** A new system, as the constructor leaves it. *)
Definition create : ParticleSystem := mkParticles 0 2.2%float 0%float.

End ParticleSystem.

Module Coordinator.
Section UseVoiceMode.

Variable config : VoiceModeConfig.

Definition ENTER_THRESHOLD : float := 0.10%float.
Definition EXIT_THRESHOLD : float := 0.03%float.

Definition setVoiceState (v : VoiceState) : M unit := upd_hook (set_voiceState v).
Definition setTranscript (t : JSString) : M unit := upd_hook (set_transcript t).
Definition setIsInitialized (b : bool) : M unit := upd_hook (set_isInitialized b).
Definition setError (e : option string) : M unit := upd_hook (set_error e).

(** The calls [config.onX?.(..)]. *)
Definition config_onTextRecognized (t : JSString) : M unit :=
  when (has_onTextRecognized config) (emit (OnTextRecognized t)).
Definition config_onSpeechComplete : M unit :=
  when (has_onSpeechComplete config) (emit OnSpeechComplete).
Definition config_onError (e : Error) : M unit :=
  when (has_onError config) (emit (OnError e)).

(** [h.reduce((a, b) => a + b, 0) / Math.max(h.length, 1)]. *)
Definition averageLevel (h : list float) : float :=
  (JS.sum h / JS.of_nat (Nat.max (List.length h) 1))%float.

(** [push] the sample, then [shift] once if more than 5 are held. *)
Definition pushSample (h : list float) (x : float) : list float :=
  let h' := h ++ [x] in
  if Nat.ltb 5 (List.length h') then tl h' else h'.

(** The state the hysteresis asks for (lines 62-64, and 80-82 in the
    timer). *)
Definition desiredState (currentState : VoiceState) (avgLevel : float)
    : VoiceState :=
  let d := currentState in
  let d := if VoiceState_eqb currentState idle
              && (ENTER_THRESHOLD <? avgLevel)%float
           then listening else d in
  let d := if VoiceState_eqb currentState listening
              && (avgLevel <? EXIT_THRESHOLD)%float
           then idle else d in
  d.

(** The timer callback of lines 77-89. *)
Definition debounceCheck : M unit :=
  h <- gets hook;;
  let recentAvg := averageLevel (audioLevelHistoryRef h) in
  let confirmedState := desiredState (voiceStateRef h) recentAvg in
  when (negb (VoiceState_eqb confirmedState (voiceStateRef h))
        && negb (VoiceState_eqb (voiceStateRef h) speaking)
        && negb (VoiceState_eqb (voiceStateRef h) processing))
    (setVoiceState confirmedState);;
  upd_hook (set_stateChangeTimerRef None).

(** Lines 41-43: the frequency goes to the particle system, if there is
    one. *)
Definition showFrequency (f : float) (h : Hook) : Hook :=
  match particleSystemRef h with
  | Some p => set_particleSystemRef
                (Some (ParticleSystem.updateFrequency f p)) h
  | None => h
  end.

(** The callback given to [audioManager.onAudioData] (lines 39-98). *)
Definition handleAudioData (data : AudioData) : M unit :=
  upd_hook (showFrequency (averageFrequency data));;
  h <- gets hook;;
  let currentState := voiceStateRef h in
  if negb (VoiceState_eqb currentState speaking)
     && negb (VoiceState_eqb currentState processing)
  then
    upd_hook (set_audioLevelHistoryRef
                (pushSample (audioLevelHistoryRef h) (averageFrequency data)));;
    h <- gets hook;;
    let avgLevel := averageLevel (audioLevelHistoryRef h) in
    let desired := desiredState currentState avgLevel in
    if negb (VoiceState_eqb desired currentState)
    then
      match stateChangeTimerRef h with
      | None =>
          let debounceDelay :=
            if VoiceState_eqb currentState listening && VoiceState_eqb desired idle
            then 1500%Z else 300%Z in
          id <- Browser.setTimeout DebounceCheck debounceDelay;;
          upd_hook (set_stateChangeTimerRef (Some id))
      | Some _ => ret tt
      end
    else
      match stateChangeTimerRef h with
      | Some id =>
          Browser.clearTimeout id;;
          upd_hook (set_stateChangeTimerRef None)
      | None => ret tt
      end
  else ret tt.

(** The callback given to [audioManager.onTranscript] (lines 101-111). *)
Definition handleTranscript (result : SpeechRecognitionResult) : M unit :=
  setTranscript (res_transcript result);;
  if isFinal result && JS.truthy (JS.trim (res_transcript result))
  then
    h <- gets hook;;
    if negb (JS.eqb (res_transcript result) (lastFinalTranscriptRef h))
    then
      upd_hook (set_lastFinalTranscriptRef (res_transcript result));;
      config_onTextRecognized (res_transcript result)
    else ret tt
  else ret tt.

(** The callback given to [audioManager.onError] (lines 114-118). *)
Definition handleError (err : Error) : M unit :=
  emit (ConsoleError "Audio manager error:");;
  setError (Some (message err));;
  config_onError err.

(** The manager of this hook: [AudioManager] with the three callbacks
    registered by the mount effect. *)
Definition analyze := AudioManagerClass.analyze (Some handleAudioData).
Definition manager_startListening_begin :=
  AudioManagerClass.startListening_begin (Some handleError).
Definition manager_startListening_resume :=
  AudioManagerClass.startListening_resume (Some handleAudioData) (Some handleError).
Definition recognition_onresult :=
  AudioManagerClass.recognition_onresult (Some handleTranscript).
Definition recognition_onerror :=
  AudioManagerClass.recognition_onerror (Some handleError).

Definition manager_stopListening := AudioManagerClass.stopListening.
Definition manager_speak := AudioManagerClass.speak.
Definition manager_stopSpeaking := AudioManagerClass.stopSpeaking.
Definition manager_destroy := AudioManagerClass.destroy.

(** The mount effect (lines 28-121); [supported] is
    [AudioManager.isSupported()]. *)
Definition mount (supported : bool) : M unit :=
  if negb supported
  then
    setError (Some "Web Speech API is not supported in this browser"%string);;
    config_onError (mkError "Web Speech API is not supported")
  else
    upd_hook (set_audioManagerRef true);;
    setIsInitialized true.

(** Its cleanup (lines 122-128); there is one only when the effect got
    past the support check. *)
Definition unmount : M unit :=
  h <- gets hook;;
  when (audioManagerRef h)
    (match stateChangeTimerRef h with
     | Some id => Browser.clearTimeout id
     | None => ret tt
     end;;
     manager_destroy).

(** The two effects that depend on [voiceState] (lines 23-25 and
    151-155), run for the render that shows the current value. *)
Definition voiceStateEffects : M unit :=
  h <- gets hook;;
  upd_hook (set_voiceStateRef (voiceState h));;
  upd_hook (fun h =>
    match particleSystemRef h with
    | Some p => set_particleSystemRef
                  (Some (ParticleSystem.setState (voiceState h) p)) h
    | None => h
    end).

(** [initParticleSystem] (lines 132-148); [ok] is false when the
    constructor throws. *)
Definition initParticleSystem (ok : bool) : M unit :=
  h <- gets hook;;
  match particleSystemRef h with
  | Some _ => ret tt
  | None =>
      if ok
      then upd_hook (set_particleSystemRef
                       (Some (ParticleSystem.setState idle ParticleSystem.create)))
      else
        emit (ConsoleError "Failed to initialize particle system:");;
        setError (Some "Failed to initialize visualization"%string)
  end.

(** The [catch] of [startListening] (lines 172-177). *)
Definition startListening_catch (m : M unit) : M unit :=
  try_catch m
    (fun err =>
       emit (ConsoleError "Failed to start listening:");;
       setError (Some "Failed to access microphone. Please allow microphone permissions and try again."%string);;
       setVoiceState idle;;
       upd_hook (set_voiceStateRef idle)).

(** [startListening] (lines 158-178), up to the first suspension. *)
Definition startListening_begin : M unit :=
  h <- gets hook;;
  if negb (audioManagerRef h) || negb (isInitialized h)
  then ret tt
  else
    startListening_catch
      (setError None;;
       setVoiceState idle;;
       upd_hook (set_voiceStateRef idle);;
       setTranscript [];;
       upd_hook (set_lastFinalTranscriptRef []);;
       _ <- manager_startListening_begin
              (JS.or_else (language config) "en-US")
              (JS.nullish (continuous config) true);;
       ret tt).

(** [startListening], resumed when the microphone request settles. *)
Definition startListening_resume (lang : string) (cont : bool)
    (r : MicResult) : M unit :=
  startListening_catch (manager_startListening_resume lang cont r).

(** [startListening] as a caller holds it.  The function is made anew when
    [isInitialized] changes (the dependencies of line 178), and each one
    tests the value its render saw (line 159): [init] is that value.
    [startListening_begin] is the one of the render that shows the current
    value. *)
Definition startListening_closure (init : bool) : M unit :=
  h <- gets hook;;
  if negb (audioManagerRef h) || negb init
  then ret tt
  else
    startListening_catch
      (setError None;;
       setVoiceState idle;;
       upd_hook (set_voiceStateRef idle);;
       setTranscript [];;
       upd_hook (set_lastFinalTranscriptRef []);;
       _ <- manager_startListening_begin
              (JS.or_else (language config) "en-US")
              (JS.nullish (continuous config) true);;
       ret tt).

(** [stopListening] (lines 181-185). *)
Definition stopListening : M unit :=
  h <- gets hook;;
  if negb (audioManagerRef h) then ret tt
  else manager_stopListening;; setVoiceState idle.

(** [speak] (lines 188-209), up to [await]; the result is the utterance
    waited for, [None] when the guard returned. *)
Definition speak_begin (text : JSString) : M (option positive) :=
  h <- gets hook;;
  if negb (audioManagerRef h) || negb (isInitialized h)
  then ret None
  else
    setVoiceState speaking;;
    upd_hook (set_voiceStateRef speaking);;
    u <- manager_speak;;
    ret (Some u).

(** [speak] as a caller holds it (the dependencies of line 209): [init] is
    the [isInitialized] the render that made it saw (line 189). *)
Definition speak_closure (init : bool) (text : JSString)
    : M (option positive) :=
  h <- gets hook;;
  if negb (audioManagerRef h) || negb init
  then ret None
  else
    setVoiceState speaking;;
    upd_hook (set_voiceStateRef speaking);;
    u <- manager_speak;;
    ret (Some u).

(** [speak] after the promise resolved (lines 200-202). *)
Definition speak_resolved : M unit :=
  setVoiceState idle;;
  upd_hook (set_voiceStateRef idle);;
  config_onSpeechComplete.

(** [speak] after the promise was rejected: the [catch] (lines 203-208). *)
Definition speak_rejected (err : Error) : M unit :=
  emit (ConsoleError "Failed to speak:");;
  setError (Some "Failed to speak"%string);;
  setVoiceState idle;;
  upd_hook (set_voiceStateRef idle).

(** [stopSpeaking] (lines 212-216). *)
Definition stopSpeaking : M unit :=
  h <- gets hook;;
  if negb (audioManagerRef h) then ret tt
  else manager_stopSpeaking;; setVoiceState idle.

(** [toggleListening] (lines 219-225). *)
Definition toggleListening : M unit :=
  h <- gets hook;;
  match voiceState h with
  | listening => stopListening
  | idle => startListening_begin
  | _ => ret tt
  end.

End UseVoiceMode.
End Coordinator.

(** ** A voice session as a sequence of events *)

(** Everything that can start a turn of the event loop: the life cycle of
    the hook, the calls the host can make through the values the hook
    returns, and the events the browser delivers.  [Commit] is React having
    rendered the current [voiceState]: the effects that depend on it run and
    copy it to [voiceStateRef]; until then the ref keeps what was last
    written to it.  The host is any caller of the returned functions; the
    component [VoiceMode] is one. *)
Inductive Event :=
| Mount (supported : bool)
| Unmount
| Commit
| InitParticleSystem (ok : bool)
| StartListening
| StopListening
| Speak (text : JSString)
| StopSpeaking
| ToggleListening
| SetVoiceState (v : VoiceState)
| AnimationFrame (id : positive) (bins : list Z)
| TimerFires (id : positive)
| MicSettles (id : positive) (r : MicResult)
| RecognitionResult (r : positive) (res : SpeechRecognitionResult)
| RecognitionError (r : positive) (code : string)
| RecognitionEnd (r : positive)
| UtteranceEnd (u : positive)
| UtteranceError (u : positive).

Module Session.
Section WithConfig.

Variable config : VoiceModeConfig.

Definition initialHook : Hook :=
  mkHook idle [] false None false None [] idle [] None.
Definition initialManager : AudioManager :=
  mkAudioManager None None None None None None None.
Definition initialBrowser : Browser :=
  mkBrowser 1 [] [] [] [] [] [] [] [] [] [] [].
(** [VoiceMode] starts with voice output and the microphone enabled. *)
Definition initialUI : VoiceModeState :=
  mkVoiceModeState [] false true true [].
Definition initial : World :=
  mkWorld initialHook initialManager initialBrowser initialUI [].

Definition findTimer (id : positive) (b : Browser) : option Timer :=
  find (fun t => Pos.eqb id (timerId t)) (timers b).

Definition findRequest (id : positive) (b : Browser) : option MicRequest :=
  find (fun q => Pos.eqb id (reqId q)) (micRequests b).

Definition findRecognizer (r : positive) (b : Browser) : option Recognizer :=
  find (fun x => Pos.eqb r (recId x)) (recognizers b).

(** A pending timer fires: it leaves the queue and its callback runs.  A
    [ResponseTimer] is the host's; see [VoiceMode.responseTimer]. *)
Definition timerFires (id : positive) : M unit :=
  b <- gets br;;
  match findTimer id b with
  | Some t =>
      Browser.clearTimeout id;;
      match timerCallback t with
      | DebounceCheck => Coordinator.debounceCheck
      | ResponseTimer _ _ _ => ret tt
      end
  | None => ret tt
  end.

Definition animationFrame (id : positive) (bins : list Z) : M unit :=
  b <- gets br;;
  if Browser.mem id (frames b)
  then Browser.cancelAnimationFrame id;; Coordinator.analyze bins
  else ret tt.

Definition micSettles (id : positive) (r : MicResult) : M unit :=
  b <- gets br;;
  match findRequest id b with
  | Some q =>
      upd_br (set_micRequests
                (filter (fun x => negb (Pos.eqb id (reqId x))) (micRequests b)));;
      Coordinator.startListening_resume config (req_language q) (req_continuous q) r
  | None => ret tt
  end.

Definition recognitionResult (r : positive) (res : SpeechRecognitionResult)
    : M unit :=
  b <- gets br;;
  if Browser.mem r (started b)
  then Coordinator.recognition_onresult config res
  else ret tt.

Definition recognitionError (r : positive) (code : string) : M unit :=
  b <- gets br;;
  if Browser.mem r (started b)
  then Coordinator.recognition_onerror config code
  else ret tt.

(** The engine of a started recognizer ends: the browser clears its
    started flag, then runs [onend]. *)
Definition recognitionEnd (r : positive) : M unit :=
  b <- gets br;;
  match Browser.mem r (started b), findRecognizer r b with
  | true, Some x =>
      upd_br (fun b => set_stopping (Browser.remove r (stopping b))
                         (set_started (Browser.remove r (started b)) b));;
      AudioManagerClass.recognition_onend (rec_continuous x)
  | _, _ => ret tt
  end.

(** An utterance whose promise is pending ends or fails: the promise
    settles and the [speak] that awaits it goes on. *)
Definition settle (u : positive) : M unit :=
  upd_br (fun b => set_promises (Browser.remove u (promises b))
                     (set_utterances (Browser.remove u (utterances b)) b)).

Definition utteranceEnd (u : positive) : M unit :=
  b <- gets br;;
  if Browser.mem u (promises b)
  then settle u;; Coordinator.speak_resolved config
  else ret tt.

Definition utteranceError (u : positive) : M unit :=
  b <- gets br;;
  if Browser.mem u (promises b)
  then
    settle u;;
    e <- AudioManagerClass.utterance_onerror;;
    Coordinator.speak_rejected e
  else ret tt.

Definition handle (e : Event) : M unit :=
  match e with
  | Mount supported => Coordinator.mount config supported
  | Unmount => Coordinator.unmount
  | Commit => Coordinator.voiceStateEffects
  | InitParticleSystem ok => Coordinator.initParticleSystem ok
  | StartListening => Coordinator.startListening_begin config
  | StopListening => Coordinator.stopListening
  | Speak text => _ <- Coordinator.speak_begin text;; ret tt
  | StopSpeaking => Coordinator.stopSpeaking
  | ToggleListening => Coordinator.toggleListening config
  | SetVoiceState v => Coordinator.setVoiceState v
  | AnimationFrame id bins => animationFrame id bins
  | TimerFires id => timerFires id
  | MicSettles id r => micSettles id r
  | RecognitionResult r res => recognitionResult r res
  | RecognitionError r code => recognitionError r code
  | RecognitionEnd r => recognitionEnd r
  | UtteranceEnd u => utteranceEnd u
  | UtteranceError u => utteranceError u
  end.

Definition step (w : World) (e : Event) : World := exec (handle e) w.

Definition run (es : list Event) (w : World) : World := fold_left step es w.

End WithConfig.
End Session.

(** ** The component [VoiceMode] (index.tsx 1-293)

    A closure made by a render sees the [voiceEnabled] and [micEnabled] of
    that render; they are parameters of the handlers below. *)

Module VoiceMode.

(** The configuration passed to [useVoiceMode] (index.tsx 28-71). *)
Definition config : VoiceModeConfig :=
  mkConfig true true true (Some "en-US"%string) (Some false).

Definition mockResponse : JSString :=
  JS.of_string "I've received your message and I'm processing it.".

(** The callbacks below are closures: each keeps the values of the render
    that made it.  [isInitialized] is the value inside the [startListening]
    and the [speak] that render got from the hook, [voiceEnabled] and
    [micEnabled] are its own state. *)

(** The callback of [speak(mockResponse).then(..)] (index.tsx 48-53). *)
Definition speakThen (isInitialized micEnabled : bool) : M unit :=
  upd_ui (set_pendingResponse false);;
  when micEnabled (Coordinator.startListening_closure config isInitialized).

(** The callback of the [setTimeout] in [onTextRecognized]
    (index.tsx 44-58).  A [speak] whose guard returns gives a promise that
    is resolved already: the callback attached to it runs next.  A [speak]
    that gets past its guard awaits its utterance, and the callback waits
    with it. *)
Definition responseTimer (isInitialized voiceEnabled micEnabled : bool)
    : M unit :=
  if voiceEnabled
  then
    r <- Coordinator.speak_closure isInitialized mockResponse;;
    match r with
    | Some u =>
        upd_ui (fun v => set_thenCallbacks (thenCallbacks v ++ [(u, micEnabled)]) v)
    | None => speakThen isInitialized micEnabled
    end
  else
    upd_ui (set_pendingResponse false);;
    Coordinator.setVoiceState idle.

(** [onTextRecognized] (index.tsx 29-59). *)
Definition onTextRecognized (isInitialized voiceEnabled micEnabled : bool)
    (text : JSString) : M unit :=
  emit (ConsoleLog "Text recognized:");;
  upd_ui (set_recognizedText text);;
  Coordinator.stopListening;;
  Coordinator.setVoiceState processing;;
  upd_ui (set_pendingResponse true);;
  emit (OnSubmit text);;
  _ <- Browser.setTimeout
         (ResponseTimer isInitialized voiceEnabled micEnabled) 1000;;
  ret tt.

(** [onSpeechComplete] (index.tsx 60-65). *)
Definition onSpeechComplete (isInitialized micEnabled : bool) : M unit :=
  emit (ConsoleLog "Speech complete");;
  when micEnabled (Coordinator.startListening_closure config isInitialized).

(** The [onTextRecognized] the hook calls.  The mount effect that registers
    the transcript callback runs once (its dependencies are empty,
    use-voice-mode.ts 129), so the [config] that callback reads is the
    object of the first render, whatever was rendered since.  That render
    saw [isInitialized = false] (use-voice-mode.ts 9) and
    [voiceEnabled = micEnabled = true] (index.tsx 13-14). *)
Definition onTextRecognized_held (text : JSString) : M unit :=
  onTextRecognized false true true text.

(** [onError] (index.tsx 66-68). *)
Definition onError (err : Error) : M unit :=
  emit (ConsoleError "Voice mode error:").

(** [handleClose] (index.tsx 113-117). *)
Definition handleClose : M unit :=
  Coordinator.stopListening;;
  Coordinator.stopSpeaking;;
  emit OnClose.

(** [handleToggleMic] (index.tsx 120-127). *)
Definition handleToggleMic (micEnabled : bool) : M unit :=
  upd_ui (set_micEnabled (negb micEnabled));;
  if negb micEnabled
  then Coordinator.startListening_begin config
  else Coordinator.stopListening.

(** [handleToggleVoice] (index.tsx 130-135). *)
Definition handleToggleVoice (voiceEnabled : bool) : M unit :=
  upd_ui (set_voiceEnabled (negb voiceEnabled));;
  when voiceEnabled Coordinator.stopSpeaking.

(** A pending timer fires in the page that shows [VoiceMode]: as
    [Session.timerFires], with the component's own callback. *)
Definition timerFires (id : positive) : M unit :=
  b <- gets br;;
  match Session.findTimer id b with
  | Some t =>
      Browser.clearTimeout id;;
      match timerCallback t with
      | DebounceCheck => Coordinator.debounceCheck
      | ResponseTimer isInitialized voiceEnabled micEnabled =>
          responseTimer isInitialized voiceEnabled micEnabled
      end
  | None => ret tt
  end.

(** [!!error] (index.tsx 174). *)
Definition hasError (error : option string) : bool :=
  match error with
  | Some e => negb (String.eqb e "")
  | None => false
  end.

(** The transcript panel (index.tsx 258-267): its label and its text, or
    [None] when it is not rendered. *)
Definition transcriptPanel (error : option string)
    (transcript recognizedText : JSString) (voiceState : VoiceState)
    : option (string * JSString) :=
  if negb (hasError error)
     && (JS.truthy transcript || JS.truthy recognizedText)
  then Some (if VoiceState_eqb voiceState listening
             then "Transcribing..."%string else "Recognized:"%string,
             if JS.truthy transcript then transcript else recognizedText)
  else None.

(** The hints of the footer (index.tsx 271-287), in the order of the JSX. *)
Definition footerHints (micEnabled : bool) (voiceState : VoiceState)
    (pendingResponse : bool) : list string :=
  (if negb micEnabled && VoiceState_eqb voiceState idle
   then ["Click the microphone button to start voice input."%string] else [])
  ++ (if micEnabled && VoiceState_eqb voiceState listening
      then ["Listening... Speak now."%string] else [])
  ++ (if micEnabled && VoiceState_eqb voiceState idle && negb pendingResponse
      then ["Ready to listen. Microphone is enabled."%string] else [])
  ++ (if VoiceState_eqb voiceState processing
      then ["Processing your request..."%string] else [])
  ++ (if VoiceState_eqb voiceState speaking
      then ["Speaking response..."%string] else []).

(** What the component renders (index.tsx 165-290): the screen that says
    voice mode is initializing, or the interface with its two toggles, the
    close button, the transcript panel and the footer. *)
Inductive Screen :=
| Initializing
| Interface (micOn voiceOn : bool) (panel : option (string * JSString))
    (hints : list string).

Definition render (w : World) : Screen :=
  let h := hook w in
  if negb (isInitialized h) then Initializing
  else Interface (micEnabled (ui w)) (voiceEnabled (ui w))
         (transcriptPanel (error h) (transcript h) (recognizedText (ui w))
            (voiceState h))
         (footerHints (micEnabled (ui w)) (voiceState h)
            (pendingResponse (ui w))).

End VoiceMode.

(** ** Agent configuration ([src/lib/services/agent-config.ts]) *)

Module Agent.

Module AgentType.
Inductive t := planner | navigator | visual | analyst | executor.
End AgentType.

Record AgentConfig := mkAgentConfig {
  name : string;
  type : AgentType.t;
  model : string;
  temperature : float;
  description : string;
  isVisual : bool
}.

Record AgentConfigs := mkAgentConfigs {
  planner : AgentConfig;
  navigator : AgentConfig;
  visual : AgentConfig;
  analyst : AgentConfig;
  executor : AgentConfig
}.

(** [Partial<AgentConfigs>] and [Partial<AgentConfig>]: a key is absent
    ([None]) or present with a value.  What [storage.get] delivers is
    treated the same way: an object with some of the five keys. *)
Record PartialConfigs := mkPartialConfigs {
  planner_opt : option AgentConfig;
  navigator_opt : option AgentConfig;
  visual_opt : option AgentConfig;
  analyst_opt : option AgentConfig;
  executor_opt : option AgentConfig
}.

Record PartialConfig := mkPartialConfig {
  name_opt : option string;
  type_opt : option AgentType.t;
  model_opt : option string;
  temperature_opt : option float;
  description_opt : option string;
  isVisual_opt : option bool
}.

(** The value of [DEFAULT_AGENT_CONFIGS] when the module is loaded
    (lines 31-72). *)
Definition DEFAULT_AGENT_CONFIGS : AgentConfigs :=
  mkAgentConfigs
    (mkAgentConfig "Planner" AgentType.planner "anthropic/claude-3.5-sonnet"
       0.7%float "Plans and strategizes multi-step tasks" false)
    (mkAgentConfig "Navigator" AgentType.navigator
       "anthropic/claude-3.5-sonnet" 0.1%float
       "Navigates browser tabs, windows, and UI elements" false)
    (mkAgentConfig "Visual Analyst" AgentType.visual
       "anthropic/claude-3.5-sonnet" 0.3%float
       "Analyzes images, screenshots, and visual content" true)
    (mkAgentConfig "Content Analyst" AgentType.analyst
       "anthropic/claude-3.5-sonnet" 0.4%float
       "Analyzes web content, extracts information, and summarizes" false)
    (mkAgentConfig "Executor" AgentType.executor
       "anthropic/claude-3.5-sonnet" 0.2%float
       "Executes browser actions, form filling, and interactions" false).

(** [configs[agentType]] and [configs[agentType] = c]. *)
Definition get (t : AgentType.t) (c : AgentConfigs) : AgentConfig :=
  match t with
  | AgentType.planner => planner c
  | AgentType.navigator => navigator c
  | AgentType.visual => visual c
  | AgentType.analyst => analyst c
  | AgentType.executor => executor c
  end.

Definition set (t : AgentType.t) (x : AgentConfig) (c : AgentConfigs)
    : AgentConfigs :=
  match t with
  | AgentType.planner =>
      mkAgentConfigs x (navigator c) (visual c) (analyst c) (executor c)
  | AgentType.navigator =>
      mkAgentConfigs (planner c) x (visual c) (analyst c) (executor c)
  | AgentType.visual =>
      mkAgentConfigs (planner c) (navigator c) x (analyst c) (executor c)
  | AgentType.analyst =>
      mkAgentConfigs (planner c) (navigator c) (visual c) x (executor c)
  | AgentType.executor =>
      mkAgentConfigs (planner c) (navigator c) (visual c) (analyst c) x
  end.

Definition get_opt (t : AgentType.t) (p : PartialConfigs) : option AgentConfig :=
  match t with
  | AgentType.planner => planner_opt p
  | AgentType.navigator => navigator_opt p
  | AgentType.visual => visual_opt p
  | AgentType.analyst => analyst_opt p
  | AgentType.executor => executor_opt p
  end.

(** [{ ...base, ...over }]. *)
Definition spread (base : AgentConfigs) (over : PartialConfigs)
    : AgentConfigs :=
  mkAgentConfigs
    (JS.nullish (planner_opt over) (planner base))
    (JS.nullish (navigator_opt over) (navigator base))
    (JS.nullish (visual_opt over) (visual base))
    (JS.nullish (analyst_opt over) (analyst base))
    (JS.nullish (executor_opt over) (executor base)).

Definition spreadConfig (base : AgentConfig) (over : PartialConfig)
    : AgentConfig :=
  mkAgentConfig
    (JS.nullish (name_opt over) (name base))
    (JS.nullish (type_opt over) (type base))
    (JS.nullish (model_opt over) (model base))
    (JS.nullish (temperature_opt over) (temperature base))
    (JS.nullish (description_opt over) (description base))
    (JS.nullish (isVisual_opt over) (isVisual base)).

(** The object with all five keys, as a partial one. *)
Definition complete (c : AgentConfigs) : PartialConfigs :=
  mkPartialConfigs (Some (planner c)) (Some (navigator c)) (Some (visual c))
    (Some (analyst c)) (Some (executor c)).

(** How a call of [storage.get] and of [storage.set] ends. *)
Inductive GetResult :=
| Got (stored : option PartialConfigs)
| GetFailed (e : Error).

Inductive SetResult :=
| SetDone
| SetFailed (e : Error).

(** What the module can change or emit: the object bound to
    [DEFAULT_AGENT_CONFIGS], which is shared with whoever receives it; the
    values handed to [storage.set] under the key [agent_configs], in the
    order of the calls; the messages of [console.error]. *)
Record Env := mkEnv {
  defaults : AgentConfigs;
  written : list AgentConfigs;
  console : list string
}.

Definition initialEnv : Env := mkEnv DEFAULT_AGENT_CONFIGS [] [].

(** The object that [getConfigs] returns: a new one, or the very object
    bound to [DEFAULT_AGENT_CONFIGS]. *)
Inductive ConfigsObject :=
| NewObject (c : AgentConfigs)
| DefaultsObject.

Definition deref (env : Env) (o : ConfigsObject) : AgentConfigs :=
  match o with
  | NewObject c => c
  | DefaultsObject => defaults env
  end.

Module AgentConfigManager.

(** [getConfigs] (lines 82-97). *)
Definition getConfigs (g : GetResult) (env : Env) : ConfigsObject * Env :=
  match g with
  | Got (Some stored) => (NewObject (spread (defaults env) stored), env)
  | Got None => (DefaultsObject, env)
  | GetFailed _ =>
      (DefaultsObject,
       mkEnv (defaults env) (written env)
         (console env ++ ["Failed to load agent configs:"%string]))
  end.

(** [getConfig] (lines 102-105). *)
Definition getConfig (agentType : AgentType.t) (g : GetResult) (env : Env)
    : AgentConfig * Env :=
  let (configs, env1) := getConfigs g env in
  (get agentType (deref env1 configs), env1).

(** The end of the three writers: [await storage.set(..)] inside [try],
    with the [catch] that logs and throws again. *)
Definition store (value : AgentConfigs) (msg : string) (s : SetResult)
    (env : Env) : Completion unit * Env :=
  let env1 := mkEnv (defaults env) (written env ++ [value]) (console env) in
  match s with
  | SetDone => (Normal tt, env1)
  | SetFailed e =>
      (Throw e, mkEnv (defaults env1) (written env1) (console env1 ++ [msg]))
  end.

(** [updateConfigs] (lines 110-122). *)
Definition updateConfigs (configs : PartialConfigs) (g : GetResult)
    (s : SetResult) (env : Env) : Completion unit * Env :=
  let (current, env1) := getConfigs g env in
  let updated := spread (deref env1 current) configs in
  store updated "Failed to save agent configs:" s env1.

(** [updateConfig] (lines 127-143): the assignment to
    [configs[agentType]] changes the object that [getConfigs] returned. *)
Definition updateConfig (agentType : AgentType.t) (config : PartialConfig)
    (g : GetResult) (s : SetResult) (env : Env) : Completion unit * Env :=
  let (configs, env1) := getConfigs g env in
  let entry := spreadConfig (get agentType (deref env1 configs)) config in
  let (configs', env2) :=
    match configs with
    | NewObject c => (NewObject (set agentType entry c), env1)
    | DefaultsObject =>
        (DefaultsObject,
         mkEnv (set agentType entry (defaults env1)) (written env1)
           (console env1))
    end in
  store (deref env2 configs') "Failed to save agent config:" s env2.

(** [resetToDefaults] (lines 148-155). *)
Definition resetToDefaults (s : SetResult) (env : Env)
    : Completion unit * Env :=
  store (defaults env) "Failed to reset agent configs:" s env.

(** *** [determineAgent] (lines 160-199) *)

(** [\w] of a regular expression without flags. *)
Definition isWordChar (c : N) : bool :=
  (N.leb 48 c && N.leb c 57) || (N.leb 65 c && N.leb c 90)
  || N.eqb c 95 || (N.leb 97 c && N.leb c 122).

Definition wordOpt (c : option N) : bool :=
  match c with Some c => isWordChar c | None => false end.

(** [\b] between the code unit [a] before a position and [b] after it;
    [None] is an end of the string. *)
Definition boundary (a b : option N) : bool := xorb (wordOpt a) (wordOpt b).

Fixpoint prefix (p s : JSString) : bool :=
  match p, s with
  | [], _ => true
  | c :: p', d :: s' => N.eqb c d && prefix p' s'
  | _ :: _, [] => false
  end.

(** [\b alt \b] at the start of [s], with [prev] the code unit before. *)
Definition altAt (prev : option N) (s : JSString) (alt : JSString) : bool :=
  boundary prev (hd_error s)
  && prefix alt s
  && boundary (last (map Some alt) prev)
       (hd_error (skipn (List.length alt) s)).

(** [/\b(alt1|alt2|...)\b/.test(s)]: some alternative matches at some
    position. *)
Fixpoint testFrom (alts : list JSString) (prev : option N) (s : JSString)
    : bool :=
  existsb (altAt prev s) alts
  || match s with
     | [] => false
     | c :: s' => testFrom alts (Some c) s'
     end.

Definition test (alts : list string) (s : JSString) : bool :=
  testFrom (map JS.of_string alts) None s.

Definition planningKeywords : list string :=
  ["plan"; "organize"; "strategy"; "multi-step"; "complex"; "workflow"]%string.
Definition navigationKeywords : list string :=
  ["switch"; "navigate"; "go to"; "open"; "close"; "tab"; "window";
   "visit"]%string.
Definition analysisKeywords : list string :=
  ["analyze"; "summarize"; "extract"; "read"; "understand"; "explain";
   "compare"]%string.
Definition executionKeywords : list string :=
  ["fill"; "submit"; "click"; "type"; "select"; "interact";
   "execute"]%string.

Section DetermineAgent.

(** [String.prototype.toLowerCase], which the program takes from the
    language. *)
Variable toLowerCase : JSString -> JSString.

Definition determineAgent (messageContent : JSString) (hasImages : bool)
    : AgentType.t :=
  if hasImages then AgentType.visual
  else
    let lowerContent := toLowerCase messageContent in
    if test planningKeywords lowerContent then AgentType.planner
    else if test navigationKeywords lowerContent then AgentType.navigator
    else if test analysisKeywords lowerContent then AgentType.analyst
    else if test executionKeywords lowerContent then AgentType.executor
    else AgentType.planner.

End DetermineAgent.

End AgentConfigManager.

End Agent.

(** * Vocabulary of the properties *)

Module Spec.

Import Coordinator.

(** One step of the audio-driven logic: the handler of an amplitude
    sample, or the callback of the debounce timer. *)
Inductive AudioStep (w : World) : World -> Prop :=
| step_sample (data : AudioData) :
    AudioStep w (exec (handleAudioData data) w)
| step_timer :
    AudioStep w (exec debounceCheck w).

(** Any number of such steps. *)
Inductive AudioSteps (w : World) : World -> Prop :=
| steps_nil : AudioSteps w w
| steps_cons w1 w2 : AudioStep w w1 -> AudioSteps w1 w2 -> AudioSteps w w2.

(** Nothing the detection owns or drives has changed: the state, the
    holder the handlers read, the sample window, the browser (no timer
    set or cleared), the manager, the component and the outputs. *)
Definition untouched (w w' : World) : Prop :=
  voiceState (hook w') = voiceState (hook w)
  /\ voiceStateRef (hook w') = voiceStateRef (hook w)
  /\ audioLevelHistoryRef (hook w') = audioLevelHistoryRef (hook w)
  /\ br w' = br w /\ am w' = am w /\ ui w' = ui w /\ log w' = log w.

Definition exempt (s : VoiceState) : Prop := s = speaking \/ s = processing.

(** [m] leaves a world where [P] holds if it starts in one, however it
    completes. *)
Definition preserves (P : World -> Prop) {A} (m : M A) : Prop :=
  forall w, P w -> P (snd (m w)).

Definition isDebounce (t : Timer) : bool :=
  match timerCallback t with
  | DebounceCheck => true
  | ResponseTimer _ _ _ => false
  end.

(** The debounce timers the browser holds. *)
Definition debounceTimers (w : World) : list Timer :=
  filter isDebounce (timers (br w)).

(** The window never holds more than 5 samples, and a pending debounce
    timer is the only one and the one [stateChangeTimerRef] names. *)
Definition Inv (w : World) : Prop :=
  List.length (audioLevelHistoryRef (hook w)) <= 5
  /\ match debounceTimers w with
     | [] => True
     | [t] => stateChangeTimerRef (hook w) = Some (timerId t)
     | _ :: _ :: _ => False
     end.

(** The [n] most recent elements of a list that grows at its end. *)
Definition lastn {A} (n : nat) (l : list A) : list A :=
  skipn (List.length l - n) l.

(** The samples are handed to the audio callback, one after the other. *)
Fixpoint deliverSamples (ds : list AudioData) (w : World) : World :=
  match ds with
  | [] => w
  | d :: ds' => deliverSamples ds' (exec (handleAudioData d) w)
  end.

(** What the analyser reports for a loud moment and for silence. *)
Definition loudBins : list Z := repeat 40%Z 128.
Definition silentBins : list Z := repeat 0%Z 128.

Definition loud : AudioData := mkAudioData loudBins 0.5%float true.
Definition quiet : AudioData := mkAudioData silentBins 0%float false.

(** Voice mode opens, the microphone is granted during a loud moment: the
    state is [idle] and a debounce timer (handle 6) waits. *)
Definition opening : list Event :=
  [Mount true; InitParticleSystem true; StartListening;
   MicSettles 1 (Granted loudBins)].

Definition armed : World :=
  Session.run VoiceMode.config opening Session.initial.

(** The debounce timer fires and the state, now [listening], is rendered;
    then four silent frames follow. *)
Definition quieting : list Event :=
  opening ++ [TimerFires 6; Commit;
              AnimationFrame 7 silentBins; AnimationFrame 9 silentBins;
              AnimationFrame 10 silentBins; AnimationFrame 11 silentBins].

(** The same session once the host has called [speak]. *)
Definition whileSpeaking : World :=
  Session.run VoiceMode.config
    (opening ++ [Speak (JS.of_string "Done.")]) Session.initial.

(** A final result of the recognizer with this text. *)
Definition final (t : JSString) : SpeechRecognitionResult :=
  mkResult t true 0.9%float.

(** The texts the host was called with through [onTextRecognized]. *)
Fixpoint recognized (l : list Output) : list JSString :=
  match l with
  | OnTextRecognized t :: l' => t :: recognized l'
  | _ :: l' => recognized l'
  | [] => []
  end.

(** The results are handed to the transcript callback, one after the other. *)
Fixpoint deliver (config : VoiceModeConfig)
    (rs : list SpeechRecognitionResult) (w : World) : World :=
  match rs with
  | [] => w
  | r :: rs' => deliver config rs' (exec (handleTranscript config r) w)
  end.

(** The text of the last final result of a sequence. *)
Definition precedingFinal (rs : list SpeechRecognitionResult)
    : option JSString :=
  match filter isFinal rs with
  | [] => None
  | r :: rs' => Some (res_transcript (last rs' r))
  end.

Definition hello : JSString := JS.of_string "hello".
Definition blank : JSString := JS.of_string " ".

(** A session that starts with voice mode initialized. *)
Definition ready : World :=
  Session.run VoiceMode.config [Mount true] Session.initial.

(** An example: ["hello"] was forwarded and is retained. *)
Definition heardHello : World :=
  deliver VoiceMode.config [final hello] ready.

(** Which events may write the retained text. *)
Definition writesRetained (e : Event) : bool :=
  match e with
  | StartListening | ToggleListening | RecognitionResult _ _ => true
  | _ => false
  end.

(** An example: voice mode is listening (the microphone was granted, the
    debounce timer fired and the state was rendered). *)
Definition listeningWorld : World :=
  Session.run VoiceMode.config
    (opening ++ [TimerFires 6; Commit]) Session.initial.

(** The events that settle the promise of utterance [u]. *)
Definition settles (u : positive) (e : Event) : bool :=
  match e with
  | UtteranceEnd v | UtteranceError v => Pos.eqb u v
  | _ => false
  end.

(** The events that are, or complete, a call of [startListening]. *)
Definition startsListening (e : Event) : bool :=
  match e with
  | StartListening | ToggleListening | MicSettles _ _ => true
  | _ => false
  end.

(** The manager holds no recognizer, and no recognizer is started that was
    not among [S]. *)
Definition stopped (S : list positive) (w : World) : Prop :=
  recognition (am w) = None /\ incl (started (br w)) S.

(** A configuration that leaves [continuous] to its default, [true]. *)
Definition continuousConfig : VoiceModeConfig :=
  mkConfig true true true (Some "en-US"%string) None.

(** An example: continuous recognition (handle 7) runs. *)
Definition dictating : World :=
  Session.run continuousConfig
    [Mount true; StartListening; MicSettles 1 (Granted silentBins)]
    Session.initial.

(** The errors the host was given through [onError]. *)
Fixpoint errorsReported (l : list Output) : list Error :=
  match l with
  | OnError e :: l' => e :: errorsReported l'
  | _ :: l' => errorsReported l'
  | [] => []
  end.

(** What the browser answers when the user refuses the microphone. *)
Definition notAllowed : Error := mkError "Permission denied".

(** Voice mode opens and the user refuses the microphone. *)
Definition refused : World :=
  Session.run VoiceMode.config
    [Mount true; StartListening; MicSettles 1 (Denied notAllowed)]
    Session.initial.

Definition request : JSString := JS.of_string "organize my tabs".

(** Voice mode is listening (recognizer 8 runs) and the user turns voice
    output off with the toggle; the microphone stays on. *)
Definition voiceOff : World :=
  exec (VoiceMode.handleToggleVoice true) listeningWorld.

(** The final transcript arrives: the hook calls the [onTextRecognized] it
    holds. *)
Definition processingWorld : World :=
  exec (VoiceMode.onTextRecognized_held request)
    (Session.step VoiceMode.config voiceOff
       (RecognitionResult 8 (final request))).

(** One second later the response timer (handle 9) fires. *)
Definition answered : World :=
  exec (VoiceMode.timerFires 9) processingWorld.

(** Voice mode listens and a fifth silent frame arrives: the average falls
    below 0.03 and the debounce timer towards [idle] (handle 13, 1500 ms)
    waits. *)
Definition fallingSilent : World :=
  Session.run VoiceMode.config (quieting ++ [AnimationFrame 12 silentBins])
    Session.initial.

(** Before that timer fires the final transcript arrives and the hook
    calls the [onTextRecognized] it holds, which sets [processing]; the
    effect that copies the state to [voiceStateRef] has not run yet. *)
Definition interrupted : World :=
  exec (VoiceMode.onTextRecognized_held request)
    (Session.step VoiceMode.config fallingSilent
       (RecognitionResult 8 (final request))).

(** Voice mode opens in silence: the state is [idle], no timer waits and
    recognizer 7 runs. *)
Definition calm : World :=
  Session.run VoiceMode.config
    [Mount true; StartListening; MicSettles 1 (Granted silentBins)]
    Session.initial.

(** The final transcript arrives there and the held [onTextRecognized]
    sets [processing]. *)
Definition submitted : World :=
  exec (VoiceMode.onTextRecognized_held request)
    (Session.step VoiceMode.config calm (RecognitionResult 7 (final request))).

(** What the analyser reports for a shout. *)
Definition shoutBins : list Z := repeat 255%Z 128.

(** The debounce timer the cleanup clears. *)
Definition clearPending (t : option positive) (w : World) : World :=
  match t with
  | Some id => exec (Browser.clearTimeout id) w
  | None => w
  end.

(** The mount effect got past the support check: the manager exists and
    the hook says it is initialized. *)
Definition mounted (w : World) : Prop :=
  audioManagerRef (hook w) = true /\ isInitialized (hook w) = true.

(** No manager was made: the hook is not initialized, and the manager's
    fields and the browser are as they were when the page loaded. *)
Definition untouchedBrowser (w : World) : Prop :=
  isInitialized (hook w) = false
  /\ am w = Session.initialManager
  /\ br w = Session.initialBrowser.

(** The calls a host makes through the functions the hook returns. *)
Definition isCall (e : Event) : bool :=
  match e with
  | StartListening | StopListening | Speak _ | StopSpeaking
  | ToggleListening => true
  | _ => false
  end.

(** The synthesis queue holds one utterance at most. *)
Definition short (w : World) : Prop := List.length (utterances (br w)) <= 1.

(** Every recognizer made so far has the properties [startListening]
    gives it from the configuration, and every microphone request that
    waits belongs to a call with the configuration's arguments. *)
Definition configured (config : VoiceModeConfig) (w : World) : Prop :=
  (forall x : Recognizer, In x (recognizers (br w)) ->
     rec_lang x = JS.or_else (language config) "en-US"
     /\ rec_continuous x = JS.nullish (continuous config) true
     /\ rec_interimResults x = true
     /\ rec_maxAlternatives x = 1%Z)
  /\ (forall q : MicRequest, In q (micRequests (br w)) ->
       req_language q = JS.or_else (language config) "en-US"
       /\ req_continuous q = JS.nullish (continuous config) true).

(** The recognizers that are started, and the one the manager holds, were
    made before: their handles are below the next one the page gives out. *)
Definition handlesBelow (w : World) : Prop :=
  (forall r : positive, In r (started (br w)) ->
     (r < nextHandle (br w))%positive)
  /\ (forall r : positive, recognition (am w) = Some r ->
       (r < nextHandle (br w))%positive).

(** The state is still [v0], or it is one of [targets]. *)
Definition stateIn (v0 : VoiceState) (targets : list VoiceState)
    (w : World) : Prop :=
  voiceState (hook w) = v0 \/ In (voiceState (hook w)) targets.

(** The states an event can move the hook to, besides leaving it where it
    is. *)
Definition targetsOf (e : Event) : list VoiceState :=
  match e with
  | SetVoiceState v => [v]
  | Speak _ => [speaking]
  | TimerFires _ => [idle; listening]
  | StartListening | StopListening | StopSpeaking | ToggleListening
  | MicSettles _ _ | UtteranceEnd _ | UtteranceError _ => [idle]
  | Mount _ | Unmount | Commit | InitParticleSystem _ | AnimationFrame _ _
  | RecognitionResult _ _ | RecognitionError _ _ | RecognitionEnd _ => []
  end.

(** The sample that [analyze] makes of the bytes the analyser wrote. *)
Definition sampleOf (fd' : list Z) : AudioData :=
  let sum := fold_left (fun s b => (s + JS.of_Z b)%float) fd' 0%float in
  let normalized := (sum / JS.of_nat (List.length fd') / 255)%float in
  mkAudioData fd' normalized (0.01 <? normalized)%float.

(** [Math.min(Math.max(f, 0), 1)], the value [updateFrequency] writes. *)
Definition clamp (f : float) : float :=
  JS.Math_min (JS.Math_max f 0%float) 1%float.

(** Where a number that is not NaN lies with respect to 0 and 1, told by the
    comparisons the program makes. *)
Definition SF0 : spec_float := S754_zero false.
Definition SF1 : spec_float := S754_finite false 4503599627370496 (-52).

Definition placeS (x : spec_float) (lt0 gt0 lt1 gt1 nz : bool) : Prop :=
  SFltb x SF0 = lt0 /\ SFltb SF0 x = gt0
  /\ SFltb x SF1 = lt1 /\ SFltb SF1 x = gt1
  /\ match x with S754_zero true => true | _ => false end = nz
  /\ (lt0 = false -> SFleb SF0 x = true)
  /\ (gt1 = false -> SFleb x SF1 = true).

Record place (f : float) (lt0 gt0 lt1 gt1 nz : bool) : Prop := mkPlace {
  p_nan : JS.is_nan f = false;
  p_lt0 : (f <? 0)%float = lt0;
  p_gt0 : (0 <? f)%float = gt0;
  p_lt1 : (f <? 1)%float = lt1;
  p_gt1 : (1 <? f)%float = gt1;
  p_nz : JS.is_neg_zero f = nz;
  p_ge0 : lt0 = false -> (0 <=? f)%float = true;
  p_le1 : gt1 = false -> (f <=? 1)%float = true
}.

(** The calls that clear the error message: [startListening], and
    [toggleListening], which may call it. *)
Definition clearsError (e : Event) : bool :=
  match e with
  | StartListening | ToggleListening => true
  | _ => false
  end.

(** An error message is set. *)
Definition errorSet (w : World) : Prop := error (hook w) <> None.

(** The particle system exists and shows one of the four states: the state
    uniform and the target radius are those [setState] writes together. *)
Definition shows (w : World) : Prop :=
  exists (p : ParticleSystem) (s : VoiceState),
    particleSystemRef (hook w) = Some p
    /\ uState p = uState (ParticleSystem.setState s ParticleSystem.create)
    /\ targetRadius p
       = targetRadius (ParticleSystem.setState s ParticleSystem.create).

(** A text that is one word for a regular expression: not empty, and made
    of letters, digits and underscores only. *)
Definition singleWord (s : JSString) : Prop :=
  s <> [] /\ forallb Agent.AgentConfigManager.isWordChar s = true.

(** The keyword is one of the list, as code units. *)
Definition keywordOf (alts : list string) (s : JSString) : bool :=
  existsb (fun alt => JS.eqb (JS.of_string alt) s) alts.

(** Nothing of a word touches the place between [a] and [b]: [a] is empty
    or ends with a code unit that is no word character, and [b] is empty or
    starts with one. *)
Definition apart (a b : JSString) : Prop :=
  Agent.AgentConfigManager.wordOpt (last (map Some a) None) = false
  /\ Agent.AgentConfigManager.wordOpt (hd_error b) = false.

(** The keyword begins and ends with a word character, as all the
    keywords of [determineAgent] do. *)
Definition wordEnds (kw : JSString) : bool :=
  Agent.AgentConfigManager.wordOpt (hd_error kw)
  && Agent.AgentConfigManager.wordOpt (last (map Some kw) None).

(** The agent for a text that is a single word. *)
Definition agentOfWord (s : JSString) : Agent.AgentType.t :=
  if keywordOf Agent.AgentConfigManager.planningKeywords s
  then Agent.AgentType.planner
  else if keywordOf Agent.AgentConfigManager.navigationKeywords s
  then Agent.AgentType.navigator
  else if keywordOf Agent.AgentConfigManager.analysisKeywords s
  then Agent.AgentType.analyst
  else if keywordOf Agent.AgentConfigManager.executionKeywords s
  then Agent.AgentType.executor
  else Agent.AgentType.planner.

Definition AgentType_eqb (a b : Agent.AgentType.t) : bool :=
  match a, b with
  | Agent.AgentType.planner, Agent.AgentType.planner
  | Agent.AgentType.navigator, Agent.AgentType.navigator
  | Agent.AgentType.visual, Agent.AgentType.visual
  | Agent.AgentType.analyst, Agent.AgentType.analyst
  | Agent.AgentType.executor, Agent.AgentType.executor => true
  | _, _ => false
  end.

(** What [getConfigs] answers for the agent [t]: the stored entry if the
    stored object has one, else the entry of [DEFAULT_AGENT_CONFIGS]. *)
Definition answered_for (t : Agent.AgentType.t) (g : Agent.GetResult)
    (env : Agent.Env) : Agent.AgentConfig :=
  match g with
  | Agent.Got (Some stored) =>
      match Agent.get_opt t stored with
      | Some c => c
      | None => Agent.get t (Agent.defaults env)
      end
  | _ => Agent.get t (Agent.defaults env)
  end.

(** The audio context the manager holds, if it holds one, is open. *)
Definition contextOpen (w : World) : Prop :=
  match audioContext (am w) with
  | Some c => Browser.mem c (openContexts (br w)) = true
  | None => True
  end.

(** The manager holds stream [s] and context [c]; [L] and [C] are the
    streams that are live and the contexts that are open, [R] the requests
    for the microphone that have not settled. *)
Definition capturing (L C : list positive) (R : list MicRequest)
    (s c : positive) (w : World) : Prop :=
  liveStreams (br w) = L /\ openContexts (br w) = C
  /\ micRequests (br w) = R
  /\ stream (am w) = Some s /\ audioContext (am w) = Some c
  /\ (c < nextHandle (br w))%positive
  /\ mounted w.

(** Stream [s] is live and context [c] is open, both were handed out
    before now, and the manager holds neither. *)
Definition orphaned (s c : positive) (w : World) : Prop :=
  Browser.mem s (liveStreams (br w)) = true
  /\ Browser.mem c (openContexts (br w)) = true
  /\ (s < nextHandle (br w))%positive
  /\ (c < nextHandle (br w))%positive
  /\ stream (am w) <> Some s
  /\ audioContext (am w) <> Some c.

(** Recognizer [r], made with the properties [x], is no longer the
    manager's: the manager holds another or none, and [r] is a handle the
    page has handed out. *)
Definition retired (r : positive) (x : Recognizer) (w : World) : Prop :=
  recognition (am w) <> Some r
  /\ (r < nextHandle (br w))%positive
  /\ Session.findRecognizer r (br w) = Some x.

(** It is retired and its engine has ended: it is not started. *)
Definition ended (r : positive) (x : Recognizer) (w : World) : Prop :=
  retired r x w /\ Browser.mem r (started (br w)) = false.

(** Either of the two. *)
Definition gone (after_end : bool) (r : positive) (x : Recognizer)
    (w : World) : Prop :=
  if after_end then ended r x w else retired r x w.

(** The events that grant a request for the microphone. *)
Definition grants (e : Event) : bool :=
  match e with
  | MicSettles _ (Granted _) => true
  | _ => false
  end.

(** The manager has no analyser, and no frame is pending that was not
    among [F]. *)
Definition loopStopped (F : list positive) (w : World) : Prop :=
  analyser (am w) = None /\ incl (frames (br w)) F.

End Spec.

Import Spec.

(** * Proofs *)

(** ** Voice activity detection *)

Module VAD.

Import Coordinator.

#[global] Arguments Browser.mem : simpl never.
#[global] Arguments Browser.remove : simpl never.
#[global] Arguments averageLevel : simpl never.
#[global] Arguments desiredState : simpl never.
#[global] Arguments pushSample : simpl never.
#[global] Arguments ENTER_THRESHOLD : simpl never.
#[global] Arguments EXIT_THRESHOLD : simpl never.
#[global] Arguments handleAudioData : simpl never.
#[global] Arguments debounceCheck : simpl never.

Ltac run :=
  unfold exec, handleAudioData, debounceCheck, Browser.setTimeout,
    Browser.clearTimeout, Browser.fresh, setVoiceState, when, bind, gets,
    upd_hook, upd_br, modify, ret;
  cbn.

Lemma sample_exempt (w : World) (data : AudioData) :
  exempt (voiceStateRef (hook w)) ->
  exec (handleAudioData data) w
  = set_hook (showFrequency (averageFrequency data) (hook w)) w.
Proof.
  intros [H | H]; run.
  all: replace (voiceStateRef (showFrequency (averageFrequency data) (hook w)))
         with (voiceStateRef (hook w))
         by (unfold showFrequency; destruct (particleSystemRef (hook w)); reflexivity).
  all: rewrite H; reflexivity.
Qed.

Lemma timer_exempt (w : World) :
  exempt (voiceStateRef (hook w)) ->
  exec debounceCheck w = set_hook (set_stateChangeTimerRef None (hook w)) w.
Proof.
  intros [H | H]; run; rewrite H;
    rewrite ?andb_false_r; reflexivity.
Qed.

Lemma showFrequency_voiceState f h :
  voiceState (showFrequency f h) = voiceState h.
Proof. unfold showFrequency; destruct (particleSystemRef h); reflexivity. Qed.

Lemma showFrequency_voiceStateRef f h :
  voiceStateRef (showFrequency f h) = voiceStateRef h.
Proof. unfold showFrequency; destruct (particleSystemRef h); reflexivity. Qed.

Lemma showFrequency_history f h :
  audioLevelHistoryRef (showFrequency f h) = audioLevelHistoryRef h.
Proof. unfold showFrequency; destruct (particleSystemRef h); reflexivity. Qed.

Lemma showFrequency_timer f h :
  stateChangeTimerRef (showFrequency f h) = stateChangeTimerRef h.
Proof. unfold showFrequency; destruct (particleSystemRef h); reflexivity. Qed.

Lemma showFrequency_lastFinal f h :
  lastFinalTranscriptRef (showFrequency f h) = lastFinalTranscriptRef h.
Proof. unfold showFrequency; destruct (particleSystemRef h); reflexivity. Qed.

Ltac show_freq :=
  rewrite ?showFrequency_voiceState, ?showFrequency_voiceStateRef,
    ?showFrequency_history, ?showFrequency_timer.

(** The handler of a sample never writes [voiceState] or the holder. *)
Lemma sample_keeps_state (w : World) (data : AudioData) :
  voiceState (hook (exec (handleAudioData data) w)) = voiceState (hook w)
  /\ voiceStateRef (hook (exec (handleAudioData data) w)) = voiceStateRef (hook w).
Proof.
  run. show_freq.
  destruct (negb (VoiceState_eqb (voiceStateRef (hook w)) speaking)
            && negb (VoiceState_eqb (voiceStateRef (hook w)) processing));
    cbn; show_freq; [ | split; reflexivity ].
  match goal with
  | |- context [ if ?c then _ else _ ] => destruct c
  end;
    destruct (stateChangeTimerRef (hook w)); cbn; show_freq; split; reflexivity.
Qed.

(** What the timer callback commits. *)
Lemma timer_commits (w : World) :
  voiceState (hook (exec debounceCheck w)) <> voiceState (hook w) ->
  (voiceStateRef (hook w) = idle
   /\ voiceState (hook (exec debounceCheck w)) = listening)
  \/ (voiceStateRef (hook w) = listening
      /\ voiceState (hook (exec debounceCheck w)) = idle).
Proof.
  run. unfold desiredState.
  destruct (voiceStateRef (hook w)); cbn;
    repeat match goal with
           | |- context [ PrimFloat.ltb ?a ?b ] => destruct (PrimFloat.ltb a b); cbn
           end;
    intros H; try (exfalso; apply H; reflexivity); auto.
Qed.

Lemma timer_keeps_holder (w : World) :
  voiceStateRef (hook (exec debounceCheck w)) = voiceStateRef (hook w).
Proof.
  run.
  match goal with
  | |- context [ if ?c then _ else _ ] => destruct c; reflexivity
  end.
Qed.

Lemma step_untouched (w w' : World) :
  AudioStep w w' -> exempt (voiceStateRef (hook w)) -> untouched w w'.
Proof.
  intros [data | ] Hx.
  - rewrite (sample_exempt w data Hx). unfold untouched; cbn.
    now rewrite showFrequency_voiceState, showFrequency_voiceStateRef,
      showFrequency_history.
  - rewrite (timer_exempt w Hx). unfold untouched; cbn. tauto.
Qed.

Lemma untouched_trans (a b c : World) :
  untouched a b -> untouched b c -> untouched a c.
Proof.
  unfold untouched.
  intros (H1 & H2 & H3 & H4 & H5 & H6 & H7) (G1 & G2 & G3 & G4 & G5 & G6 & G7).
  repeat split; congruence.
Qed.

Lemma steps_untouched (w w' : World) :
  AudioSteps w w' -> exempt (voiceStateRef (hook w)) -> untouched w w'.
Proof.
  induction 1 as [ | w w1 w2 Hs _ IH ]; intros Hx.
  - unfold untouched; tauto.
  - pose proof (step_untouched _ _ Hs Hx) as Hu.
    apply (untouched_trans _ _ _ Hu), IH.
    destruct Hu as (_ & Hr & _). unfold exempt. rewrite Hr. exact Hx.
Qed.

End VAD.

(** ** Properties kept by every handler *)

Module Hoare.
Section Preserves.

Variable P : World -> Prop.

Lemma preserves_ret {A} (a : A) : preserves P (ret a).
Proof. intros w H; exact H. Qed.

Lemma preserves_throw {A} (e : Error) : preserves P (@throw A e).
Proof. intros w H; exact H. Qed.

Lemma preserves_gets {A} (f : World -> A) : preserves P (gets f).
Proof. intros w H; exact H. Qed.

Lemma preserves_bind {A B} (m : M A) (k : A -> M B) :
  preserves P m -> (forall a, preserves P (k a)) -> preserves P (bind m k).
Proof.
  intros Hm Hk w H. unfold bind.
  specialize (Hm w H). destruct (m w) as [[a | e] w']; cbn in *.
  - apply Hk, Hm.
  - exact Hm.
Qed.

Lemma preserves_try_catch {A} (m : M A) (h : Error -> M A) :
  preserves P m -> (forall e, preserves P (h e)) -> preserves P (try_catch m h).
Proof.
  intros Hm Hh w H. unfold try_catch.
  specialize (Hm w H). destruct (m w) as [[a | e] w']; cbn in *.
  - exact Hm.
  - apply Hh, Hm.
Qed.

Lemma preserves_when (b : bool) (m : M unit) :
  preserves P m -> preserves P (when b m).
Proof. intros Hm; destruct b; [ exact Hm | apply preserves_ret ]. Qed.

Lemma preserves_modify (f : World -> World) :
  (forall w, P w -> P (f w)) -> preserves P (modify f).
Proof. intros Hf w H; apply Hf, H. Qed.

Lemma preserves_exec {A} (m : M A) (w : World) :
  preserves P m -> P w -> P (exec m w).
Proof. intros Hm H; apply Hm, H. Qed.

End Preserves.
End Hoare.

(** Breaks a handler into its statements; what is left are the writes. *)
Ltac preserves_step :=
  match goal with
  | |- preserves _ (ret _) => apply Hoare.preserves_ret
  | |- preserves _ (throw _) => apply Hoare.preserves_throw
  | |- preserves _ (gets _) => apply Hoare.preserves_gets
  | |- preserves _ (bind _ _) => apply Hoare.preserves_bind; [ | intro ]
  | |- preserves _ (try_catch _ _) =>
      apply Hoare.preserves_try_catch; [ | intro ]
  | |- preserves _ (when _ _) => apply Hoare.preserves_when
  | |- preserves _ (AudioManagerClass.call _ _) =>
      unfold AudioManagerClass.call
  | |- preserves _ (match ?x with _ => _ end) => destruct x
  | |- preserves _ (let _ := _ in _) => cbv zeta
  end.

Ltac unfold_handlers :=
  unfold
    Browser.fresh, Browser.setTimeout, Browser.clearTimeout,
    Browser.requestAnimationFrame, Browser.cancelAnimationFrame,
    Browser.getUserMedia, Browser.newStream, Browser.newAudioContext,
    Browser.connect, Browser.disconnect, Browser.closeContext,
    Browser.stopTracks, Browser.newSpeechRecognition,
    Browser.recognitionStart, Browser.recognitionStop,
    Browser.synthesisCancel, Browser.synthesisSpeak,
    AudioManagerClass.analyze, AudioManagerClass.startAnalyzing,
    AudioManagerClass.initAudioContext_begin,
    AudioManagerClass.initAudioContext_granted,
    AudioManagerClass.connectAnalyser,
    AudioManagerClass.initAudioContext_resume,
    AudioManagerClass.startRecognition, AudioManagerClass.startListening_catch,
    AudioManagerClass.startListening_begin,
    AudioManagerClass.startListening_resume,
    AudioManagerClass.recognition_onresult,
    AudioManagerClass.recognition_onerror,
    AudioManagerClass.recognition_onend, AudioManagerClass.stopListening,
    AudioManagerClass.speak, AudioManagerClass.utterance_onerror,
    AudioManagerClass.stopSpeaking,
    Coordinator.setVoiceState, Coordinator.setTranscript,
    Coordinator.setIsInitialized, Coordinator.setError,
    Coordinator.config_onTextRecognized, Coordinator.config_onSpeechComplete,
    Coordinator.config_onError, Coordinator.handleTranscript,
    Coordinator.handleError, Coordinator.analyze,
    Coordinator.manager_startListening_begin,
    Coordinator.manager_startListening_resume,
    Coordinator.recognition_onresult, Coordinator.recognition_onerror,
    Coordinator.manager_stopListening, Coordinator.manager_speak,
    Coordinator.manager_stopSpeaking, Coordinator.manager_destroy,
    Coordinator.mount, Coordinator.voiceStateEffects,
    Coordinator.initParticleSystem, Coordinator.startListening_catch,
    Coordinator.startListening_begin, Coordinator.startListening_resume,
    Coordinator.stopListening, Coordinator.speak_begin,
    Coordinator.speak_resolved, Coordinator.speak_rejected,
    Coordinator.stopSpeaking, Coordinator.toggleListening,
    Session.animationFrame, Session.micSettles, Session.recognitionResult,
    Session.recognitionError, Session.recognitionEnd, Session.settle,
    Session.utteranceEnd, Session.utteranceError,
    upd_hook, upd_am, upd_br, upd_ui, emit.

(** The same, with the two methods that make and release the audio
    context. *)
Ltac unfold_model :=
  unfold_handlers;
  unfold AudioManagerClass.createContext, AudioManagerClass.destroy;
  unfold_handlers.

(** ** The debounce timer and the sample window, over a whole session *)

Module Invariants.

Import Coordinator.

Lemma Inv_initial : Inv Session.initial.
Proof. split; cbn; [ lia | exact I ]. Qed.

Lemma pushSample_length (h : list float) (x : float) :
  List.length h <= 5 -> List.length (pushSample h x) <= 5.
Proof.
  intros H. unfold pushSample.
  destruct (Nat.ltb_spec 5 (List.length (h ++ [x]))) as [Hlt | Hge]; [ | exact Hge ].
  rewrite length_app in Hlt; cbn in Hlt.
  destruct h as [ | a h ]; cbn in *; [ lia | ].
  rewrite length_app; cbn; lia.
Qed.

Lemma filter_swap {A} (p q : A -> bool) (l : list A) :
  filter p (filter q l) = filter q (filter p l).
Proof.
  induction l as [ | a l IH ]; cbn; [ reflexivity | ].
  destruct (p a) eqn:Hp, (q a) eqn:Hq; cbn; rewrite ?Hp, ?Hq, IH; reflexivity.
Qed.

(** Clearing the timer that [stateChangeTimerRef] names leaves no debounce
    timer. *)
Lemma clear_named (w : World) (id : positive) :
  Inv w -> stateChangeTimerRef (hook w) = Some id ->
  filter isDebounce
    (filter (fun t => negb (Pos.eqb id (timerId t))) (timers (br w))) = [].
Proof.
  intros [_ H] Hid. rewrite filter_swap. unfold debounceTimers in H.
  destruct (filter isDebounce (timers (br w))) as [ | t [ | t' l ] ];
    [ reflexivity | | contradiction ].
  rewrite Hid in H. injection H as ->. cbn. rewrite Pos.eqb_refl. reflexivity.
Qed.

(** With no timer named, none is pending. *)
Lemma none_named (w : World) :
  Inv w -> stateChangeTimerRef (hook w) = None -> debounceTimers w = [].
Proof.
  intros [_ H] Hn.
  destruct (debounceTimers w) as [ | t [ | t' l ] ];
    [ reflexivity | congruence | contradiction ].
Qed.

Lemma handleAudioData_Inv (data : AudioData) :
  preserves Inv (handleAudioData data).
Proof.
  intros w HI. pose proof HI as [Hlen Htimers].
  unfold handleAudioData, Browser.setTimeout, Browser.clearTimeout,
    Browser.fresh, bind, gets, upd_hook, upd_br, modify, ret. cbn.
  rewrite !VAD.showFrequency_voiceStateRef, !VAD.showFrequency_history.
  destruct (negb (VoiceState_eqb (voiceStateRef (hook w)) speaking)
            && negb (VoiceState_eqb (voiceStateRef (hook w)) processing)); cbn;
    [ | unfold Inv, debounceTimers; cbn;
        rewrite VAD.showFrequency_history, VAD.showFrequency_timer; exact HI ].
  match goal with
  | |- context [ if ?c then _ else _ ] => destruct c
  end;
    rewrite ?VAD.showFrequency_timer;
    destruct (stateChangeTimerRef (hook w)) as [ id | ] eqn:Hid; cbn;
    unfold Inv, debounceTimers; cbn;
    rewrite ?VAD.showFrequency_history, ?VAD.showFrequency_timer;
    (split; [ apply pushSample_length, Hlen | ]).
  - rewrite Hid. exact Htimers.
  - rewrite filter_app. fold (debounceTimers w).
    rewrite (none_named w HI Hid). cbn. reflexivity.
  - rewrite (clear_named w id HI Hid). exact I.
  - rewrite Hid. exact Htimers.
Qed.

(** Removing timers keeps the invariant. *)
Lemma Inv_filter (w : World) (q : Timer -> bool) :
  Inv w -> Inv (set_br (set_timers (filter q (timers (br w))) (br w)) w).
Proof.
  intros [Hlen H]. split; [ exact Hlen | ].
  unfold debounceTimers in *. cbn. rewrite filter_swap.
  destruct (filter isDebounce (timers (br w))) as [ | t [ | t' l ] ];
    [ exact I | | contradiction ].
  cbn. destruct (q t); [ exact H | exact I ].
Qed.

Lemma findTimer_In (id : positive) (b : Browser) (t : Timer) :
  Session.findTimer id b = Some t ->
  In t (timers b) /\ Pos.eqb id (timerId t) = true.
Proof. intros H. apply find_some in H. exact H. Qed.

Lemma timerFires_Inv (id : positive) :
  preserves Inv (Session.timerFires id).
Proof.
  intros w HI.
  unfold Session.timerFires, Browser.clearTimeout, bind, gets, upd_br, modify. cbn.
  destruct (Session.findTimer id (br w)) as [ t | ] eqn:Hf; cbn; [ | exact HI ].
  pose proof (Inv_filter w (fun t => negb (Pos.eqb id (timerId t))) HI) as HI'.
  destruct (timerCallback t) eqn:Hcb; cbn; [ | exact HI' ].
  apply findTimer_In in Hf. destruct Hf as [Hin Hid].
  assert (Hd : In t (debounceTimers w)).
  { apply filter_In. split; [ exact Hin | unfold isDebounce; now rewrite Hcb ]. }
  unfold debounceCheck, setVoiceState, when, bind, gets, upd_hook, modify, ret. cbn.
  match goal with
  | |- context [ if ?c then _ else _ ] => destruct c
  end; cbn.
  all: destruct HI as [Hlen H]; split; [ exact Hlen | ].
  all: unfold debounceTimers in *; cbn; rewrite filter_swap.
  all: destruct (filter isDebounce (timers (br w))) as [ | t0 [ | t' l ] ];
    [ exact I | | contradiction ].
  all: destruct Hd as [ <- | [] ]; cbn; rewrite Hid; exact I.
Qed.

Ltac preserves_leaf :=
  apply Hoare.preserves_modify;
  let w := fresh "w" in
  let H := fresh "H" in
  intros w H;
  first
    [ exact H
    | unfold Inv, debounceTimers in *; cbn;
      repeat match goal with
             | |- context [ match ?x with _ => _ end ] => destruct x
             end;
      exact H ].

Ltac preserves_Inv :=
  repeat first
    [ match goal with
      | |- preserves _ (handleAudioData _) => apply handleAudioData_Inv
      | |- preserves _ (Session.timerFires _) => apply timerFires_Inv
      end
    | preserves_step
    | progress unfold_model
    | progress cbv beta iota
    | preserves_leaf ].

Lemma unmount_Inv : preserves Inv unmount.
Proof.
  unfold unmount.
  apply Hoare.preserves_bind; [ apply Hoare.preserves_gets | intros h ].
  apply Hoare.preserves_when.
  apply Hoare.preserves_bind; [ | intros _; preserves_Inv ].
  destruct (stateChangeTimerRef h); [ | apply Hoare.preserves_ret ].
  intros w HI. apply (Inv_filter w _ HI).
Qed.

Lemma handle_Inv (config : VoiceModeConfig) (e : Event) :
  preserves Inv (Session.handle config e).
Proof.
  destruct e; cbn [Session.handle];
    try apply unmount_Inv; preserves_Inv.
Qed.

(** The handlers of the component [VoiceMode] keep the invariant too,
    whatever its closures captured. *)
Lemma VoiceMode_Inv (isInitialized voiceEnabled micEnabled : bool)
    (text : JSString) (id : positive) :
  preserves Inv
    (VoiceMode.onTextRecognized isInitialized voiceEnabled micEnabled text)
  /\ preserves Inv
       (VoiceMode.responseTimer isInitialized voiceEnabled micEnabled)
  /\ preserves Inv (VoiceMode.speakThen isInitialized micEnabled)
  /\ preserves Inv (VoiceMode.onSpeechComplete isInitialized micEnabled)
  /\ preserves Inv VoiceMode.handleClose
  /\ preserves Inv (VoiceMode.handleToggleMic micEnabled)
  /\ preserves Inv (VoiceMode.handleToggleVoice voiceEnabled).
Proof.
  repeat apply conj;
    unfold VoiceMode.onTextRecognized, VoiceMode.responseTimer,
      VoiceMode.speakThen, VoiceMode.onSpeechComplete, VoiceMode.handleClose,
      VoiceMode.handleToggleMic, VoiceMode.handleToggleVoice,
      Coordinator.startListening_closure, Coordinator.speak_closure;
    preserves_Inv.
  (* the response timer the handler sets is not a debounce timer *)
  intros w [Hlen H]. split; [ exact Hlen | ].
  unfold debounceTimers in *. cbn. rewrite filter_app. cbn.
  rewrite app_nil_r. exact H.
Qed.

(** The invariant holds all along every session. *)
Lemma run_Inv (config : VoiceModeConfig) (es : list Event) (w : World) :
  Inv w -> Inv (Session.run config es w).
Proof.
  revert w. induction es as [ | e es IH ]; intros w HI; cbn; [ exact HI | ].
  apply IH. apply (handle_Inv config e w HI).
Qed.

End Invariants.

Module VoiceActivity.

Import Coordinator Invariants.

Lemma pushSample_lastn (h : list float) (x : float) :
  List.length h <= 5 -> pushSample h x = lastn 5 (h ++ [x]).
Proof.
  intros H. unfold pushSample, lastn.
  destruct (Nat.ltb_spec 5 (List.length (h ++ [x]))) as [Hlt | Hge].
  - rewrite length_app in *; cbn in *.
    replace (List.length h + 1 - 5) with 1 by lia.
    destruct h; reflexivity.
  - replace (List.length (h ++ [x]) - 5) with 0 by lia. reflexivity.
Qed.

(** The window after a sample that is taken into account. *)
Lemma sample_window (w : World) (data : AudioData) :
  voiceStateRef (hook w) = idle \/ voiceStateRef (hook w) = listening ->
  audioLevelHistoryRef (hook (exec (handleAudioData data) w))
  = pushSample (audioLevelHistoryRef (hook w)) (averageFrequency data).
Proof.
  intros [H | H]; VAD.run; VAD.show_freq; rewrite H; cbn;
    match goal with
    | |- context [ if ?c then _ else _ ] => destruct c
    end;
    VAD.show_freq; destruct (stateChangeTimerRef (hook w)); reflexivity.
Qed.

Lemma app_one_neq {A} (l : list A) (t : A) : l <> l ++ [t].
Proof.
  intros H. apply (f_equal (@List.length A)) in H.
  rewrite length_app in H; cbn in H; lia.
Qed.

Lemma filter_not_longer {A} (q : A -> bool) (l : list A) (t : A) :
  filter q l <> l ++ [t].
Proof.
  intros H. apply (f_equal (@List.length A)) in H.
  rewrite length_app in H; cbn in H.
  pose proof (filter_length_le q l). lia.
Qed.

Lemma lastn_short {A} (n : nat) (l : list A) :
  List.length l <= n -> lastn n l = l.
Proof.
  intros H. unfold lastn.
  replace (List.length l - n) with 0 by lia. reflexivity.
Qed.

Lemma lastn_length {A} (n : nat) (l : list A) :
  List.length (lastn n l) <= n.
Proof. unfold lastn. rewrite length_skipn. lia. Qed.

(** Keeping the last [n] at every step is keeping the last [n] of all. *)
Lemma lastn_snoc {A} (n : nat) (l : list A) (x : A) :
  0 < n -> lastn n (lastn n l ++ [x]) = lastn n (l ++ [x]).
Proof.
  intros Hn.
  destruct (Nat.le_gt_cases (List.length l) n) as [Hle | Hgt].
  - rewrite (lastn_short n l Hle). reflexivity.
  - unfold lastn. rewrite !length_app, length_skipn. cbn [List.length].
    replace (List.length l - (List.length l - n) + 1 - n) with 1 by lia.
    replace (List.length l + 1 - n) with (1 + (List.length l - n)) by lia.
    rewrite !skipn_app, length_skipn.
    replace (1 - (List.length l - (List.length l - n))) with 0 by lia.
    replace (1 + (List.length l - n) - List.length l) with 0 by lia.
    rewrite skipn_skipn. reflexivity.
Qed.

(** The window after any number of samples taken into account. *)
Lemma window_after_samples (ds : list AudioData) (w : World) :
  voiceStateRef (hook w) = idle \/ voiceStateRef (hook w) = listening ->
  List.length (audioLevelHistoryRef (hook w)) <= 5 ->
  audioLevelHistoryRef (hook (deliverSamples ds w))
  = lastn 5 (audioLevelHistoryRef (hook w) ++ map averageFrequency ds).
Proof.
  revert w. induction ds as [ | d ds IH ]; intros w Hs Hlen; cbn.
  - rewrite app_nil_r. symmetry. apply lastn_short, Hlen.
  - rewrite IH.
    + rewrite (sample_window w d Hs), (pushSample_lastn _ _ Hlen).
      clear IH. revert d.
      induction ds as [ | d' ds IH' ] using rev_ind; intros d; cbn.
      * rewrite app_nil_r. apply lastn_short, lastn_length.
      * rewrite map_app. cbn.
        rewrite !app_assoc.
        rewrite <- (lastn_snoc 5 (lastn 5 _ ++ _)) by lia.
        rewrite IH'.
        rewrite (lastn_snoc 5) by lia.
        rewrite <- !app_assoc. reflexivity.
    + destruct (VAD.sample_keeps_state w d) as [_ Hr]. rewrite Hr. exact Hs.
    + rewrite (sample_window w d Hs). apply pushSample_length, Hlen.
Qed.

(** When a sample adds a timer: which one, and why. *)
Lemma sample_schedules (w : World) (data : AudioData) (t : Timer) :
  let w' := exec (handleAudioData data) w in
  let avgLevel := averageLevel (audioLevelHistoryRef (hook w')) in
  timers (br w') = timers (br w) ++ [t] ->
  stateChangeTimerRef (hook w) = None
  /\ timerCallback t = DebounceCheck
  /\ stateChangeTimerRef (hook w') = Some (timerId t)
  /\ ((voiceStateRef (hook w) = idle
       /\ (ENTER_THRESHOLD <? avgLevel)%float = true
       /\ timerDelay t = 300%Z)
      \/ (voiceStateRef (hook w) = listening
          /\ (avgLevel <? EXIT_THRESHOLD)%float = true
          /\ timerDelay t = 1500%Z)).
Proof.
  cbv zeta. VAD.run. VAD.show_freq. unfold desiredState.
  destruct (voiceStateRef (hook w)) eqn:Hs; cbn; VAD.show_freq;
    try (intros H; exfalso; exact (app_one_neq _ _ H)).
  - destruct (ENTER_THRESHOLD <? _)%float eqn:Hc; cbn; VAD.show_freq;
      destruct (stateChangeTimerRef (hook w)) eqn:Ht; cbn; VAD.show_freq;
      intros H;
      try (exfalso; exact (app_one_neq _ _ H));
      try (exfalso; exact (filter_not_longer _ _ _ H)).
    apply app_inv_head in H. injection H as <-. cbn.
    rewrite Hc. auto 10.
  - destruct (_ <? EXIT_THRESHOLD)%float eqn:Hc; cbn; VAD.show_freq;
      destruct (stateChangeTimerRef (hook w)) eqn:Ht; cbn; VAD.show_freq;
      intros H;
      try (exfalso; exact (app_one_neq _ _ H));
      try (exfalso; exact (filter_not_longer _ _ _ H)).
    apply app_inv_head in H. injection H as <-. cbn.
    rewrite Hc. auto 10.
Qed.

(** A sample that asks for no change clears the timer and leaves none. *)
Lemma sample_cancels (w : World) (data : AudioData) :
  Inv w ->
  voiceStateRef (hook w) = idle \/ voiceStateRef (hook w) = listening ->
  desiredState (voiceStateRef (hook w))
    (averageLevel (pushSample (audioLevelHistoryRef (hook w)) (averageFrequency data)))
  = voiceStateRef (hook w) ->
  debounceTimers (exec (handleAudioData data) w) = []
  /\ stateChangeTimerRef (hook (exec (handleAudioData data) w)) = None.
Proof.
  intros HI Hs Hd. VAD.run. VAD.show_freq. rewrite Hd.
  replace (VoiceState_eqb (voiceStateRef (hook w)) (voiceStateRef (hook w)))
    with true by (destruct (voiceStateRef (hook w)); reflexivity).
  destruct Hs as [Hs | Hs]; rewrite Hs; cbn; VAD.show_freq;
    destruct (stateChangeTimerRef (hook w)) as [ id | ] eqn:Ht; cbn;
    unfold debounceTimers; cbn; VAD.show_freq;
    ((split; [ exact (clear_named w id HI Ht) | reflexivity ])
     || (split; [ exact (none_named w HI Ht) | exact Ht ])).
Qed.

(** With no debounce timer pending, no timer that fires changes the state. *)
Lemma no_timer_no_transition (config : VoiceModeConfig) (w : World) (id : positive) :
  debounceTimers w = [] ->
  voiceState (hook (Session.step config w (TimerFires id))) = voiceState (hook w).
Proof.
  intros Hn. unfold Session.step, exec. cbn [Session.handle].
  unfold Session.timerFires, Browser.clearTimeout, bind, gets, upd_br, modify. cbn.
  destruct (Session.findTimer id (br w)) as [ t | ] eqn:Hf; cbn; [ | reflexivity ].
  destruct (timerCallback t) eqn:Hcb; cbn; [ | reflexivity ].
  exfalso. apply findTimer_In in Hf. destruct Hf as [Hin _].
  assert (Hd : In t (debounceTimers w)).
  { apply filter_In. split; [ exact Hin | unfold isDebounce; now rewrite Hcb ]. }
  rewrite Hn in Hd. exact Hd.
Qed.

Lemma Inv_at_most_one (w : World) :
  Inv w -> List.length (debounceTimers w) <= 1.
Proof.
  intros [_ H]. destruct (debounceTimers w) as [ | t [ | t' l ] ]; cbn;
    [ lia | lia | contradiction ].
Qed.

(** The holder follows a state set through [setVoiceState] when the render
    that shows it is committed. *)
Lemma holder_after_commit (config : VoiceModeConfig) (w : World) (v : VoiceState) :
  voiceState (hook (Session.run config [SetVoiceState v; Commit] w)) = v
  /\ voiceStateRef (hook (Session.run config [SetVoiceState v; Commit] w)) = v.
Proof.
  cbn. unfold Session.step, exec. cbn [Session.handle].
  unfold Coordinator.voiceStateEffects, setVoiceState, bind, gets, upd_hook,
    modify. cbn.
  destruct (particleSystemRef (hook w)); cbn; split; reflexivity.
Qed.

(** In a session: an analysis frame or a timer that fires while the holder
    is [speaking] or [processing] changes neither the state, nor the holder,
    nor the window; the frame sets and clears no timer. *)
Lemma exempt_in_session (config : VoiceModeConfig) (w : World) :
  exempt (voiceStateRef (hook w)) ->
  (forall (id : positive) (bins : list Z),
     let w' := Session.step config w (AnimationFrame id bins) in
     voiceState (hook w') = voiceState (hook w)
     /\ voiceStateRef (hook w') = voiceStateRef (hook w)
     /\ audioLevelHistoryRef (hook w') = audioLevelHistoryRef (hook w)
     /\ stateChangeTimerRef (hook w') = stateChangeTimerRef (hook w)
     /\ timers (br w') = timers (br w))
  /\ (forall id : positive,
        let w' := Session.step config w (TimerFires id) in
        voiceState (hook w') = voiceState (hook w)
        /\ voiceStateRef (hook w') = voiceStateRef (hook w)
        /\ audioLevelHistoryRef (hook w') = audioLevelHistoryRef (hook w)).
Proof.
  intros Hx. split.
  - intros id bins. cbv zeta. unfold Session.step, exec. cbn [Session.handle].
    unfold Session.animationFrame, Coordinator.analyze,
      AudioManagerClass.analyze, AudioManagerClass.call,
      Browser.cancelAnimationFrame, Browser.requestAnimationFrame,
      Browser.fresh, bind, gets, upd_am, upd_br, modify, ret. cbn.
    destruct (Browser.mem id (frames (br w))); cbn; [ | tauto ].
    destruct (analyser (am w)); cbn; [ | tauto ].
    destruct (frequencyData (am w)); cbn; [ | tauto ].
    match goal with
    | |- context [ handleAudioData ?d ?w0 ] =>
        pose proof (VAD.sample_exempt w0 d Hx) as He;
        unfold exec in He;
        destruct (handleAudioData d w0) as [[ [] | e ] w1]; cbn in *; subst w1; cbn
    end;
      rewrite ?VAD.showFrequency_voiceState, ?VAD.showFrequency_voiceStateRef,
        ?VAD.showFrequency_history, ?VAD.showFrequency_timer;
      tauto.
  - intros id. cbv zeta. unfold Session.step, exec. cbn [Session.handle].
    unfold Session.timerFires, Browser.clearTimeout, bind, gets, upd_br, modify.
    cbn.
    destruct (Session.findTimer id (br w)) as [ t | ]; cbn; [ | tauto ].
    destruct (timerCallback t); cbn; [ | tauto ].
    match goal with
    | |- context [ debounceCheck ?w0 ] =>
        pose proof (VAD.timer_exempt w0 Hx) as He;
        unfold exec in He;
        destruct (debounceCheck w0) as [c w1]; cbn in *; subst w1; cbn
    end.
    tauto.
Qed.

(** What holds of the exemption: it follows the holder.  While the state
    read by the audio-driven logic ([voiceStateRef.current], which [speak]
    sets together with the state) is
    [speaking] or [processing]: the handler of a sample only forwards the
    frequency to the particle system, so no timer is set or cleared; the
    callback of a debounce timer that fires then only forgets the timer
    handle and commits nothing; any sequence of samples and timer firings
    leaves the state, the holder, the window, the browser, the manager and
    the outputs as they were; and in a session an analysis frame or a timer
    that fires changes neither the state nor the window, the frame leaving
    the timers alone.  Moreover, from any world at all, a step of the
    audio-driven logic that changes [voiceState] either finds the holder at
    [idle] and sets [listening], or finds it at [listening] and sets
    [idle]. *)
Theorem audio_logic_exempts_speaking_and_processing
    (config : VoiceModeConfig) (w : World) :
  (exempt (voiceStateRef (hook w)) ->
   (forall data : AudioData,
      exec (handleAudioData data) w
      = set_hook (showFrequency (averageFrequency data) (hook w)) w)
   /\ exec debounceCheck w = set_hook (set_stateChangeTimerRef None (hook w)) w
   /\ (forall w', AudioSteps w w' -> untouched w w')
   /\ (forall (id : positive) (bins : list Z),
         let w' := Session.step config w (AnimationFrame id bins) in
         voiceState (hook w') = voiceState (hook w)
         /\ audioLevelHistoryRef (hook w') = audioLevelHistoryRef (hook w)
         /\ stateChangeTimerRef (hook w') = stateChangeTimerRef (hook w)
         /\ timers (br w') = timers (br w))
   /\ (forall id : positive,
         voiceState (hook (Session.step config w (TimerFires id)))
         = voiceState (hook w)))
  /\ (forall w', AudioStep w w' ->
      voiceState (hook w') <> voiceState (hook w) ->
      (voiceStateRef (hook w) = idle /\ voiceState (hook w') = listening)
      \/ (voiceStateRef (hook w) = listening /\ voiceState (hook w') = idle)).
Proof.
  split.
  - intros Hx.
    destruct (exempt_in_session config w Hx) as [Hframe Hfire].
    repeat apply conj.
    + intros data. apply VAD.sample_exempt, Hx.
    + apply VAD.timer_exempt, Hx.
    + intros w' Hs. apply VAD.steps_untouched; assumption.
    + intros id bins. cbv zeta.
      destruct (Hframe id bins) as (H1 & _ & H3 & H4 & H5). auto.
    + intros id. apply (Hfire id).
  - intros w' [ data | ] Hne.
    + exfalso. apply Hne. apply VAD.sample_keeps_state.
    + apply VAD.timer_commits, Hne.
Qed.

Lemma audio_logic_exempts_speaking_and_processing_witness :
  voiceStateRef (hook whileSpeaking) = speaking
  /\ stateChangeTimerRef (hook whileSpeaking) = Some 6%positive
  /\ untouched whileSpeaking
       (exec debounceCheck (exec (handleAudioData loud) whileSpeaking))
  /\ voiceState
       (hook (Session.step VoiceMode.config whileSpeaking (TimerFires 6)))
     = voiceState (hook whileSpeaking).
Proof.
  destruct (audio_logic_exempts_speaking_and_processing VoiceMode.config
              whileSpeaking) as [H _].
  destruct (H (or_introl eq_refl)) as (_ & _ & Hsteps & _ & Hfire).
  split; [ reflexivity | split; [ reflexivity | split ] ].
  - apply Hsteps.
    apply steps_cons with (w1 := exec (handleAudioData loud) whileSpeaking).
    + apply step_sample.
    + apply steps_cons with
        (w1 := exec debounceCheck (exec (handleAudioData loud) whileSpeaking)).
      * apply step_timer.
      * apply steps_nil.
  - apply (Hfire 6%positive).
Defined.

(** C2. In any session, when a sample arrives in state [idle] or
    [listening], the window becomes the 5 most recent of the samples held
    plus the new one (at most 5 values), and the average is taken over it;
    after any further samples the window is again the 5 most recent of all.
    If the sample adds a timer to the browser, that timer is the debounce
    check, and either the state is [idle], the average exceeds 0.10 and the
    delay is 300 ms, or the state is [listening], the average is below 0.03
    and the delay is 1500 ms. *)
Theorem window_average_and_debounce_delays
    (config : VoiceModeConfig) (es : list Event) (data : AudioData) :
  let w := Session.run config es Session.initial in
  let w' := exec (handleAudioData data) w in
  let window := audioLevelHistoryRef (hook w') in
  let avgLevel := averageLevel window in
  voiceStateRef (hook w) = idle \/ voiceStateRef (hook w) = listening ->
  window = lastn 5 (audioLevelHistoryRef (hook w) ++ [averageFrequency data])
  /\ List.length window <= 5
  /\ avgLevel = (JS.sum window / JS.of_nat (Nat.max (List.length window) 1))%float
  /\ (forall ds : list AudioData,
        audioLevelHistoryRef (hook (deliverSamples (data :: ds) w))
        = lastn 5 (audioLevelHistoryRef (hook w)
                     ++ map averageFrequency (data :: ds)))
  /\ (forall t : Timer,
        timers (br w') = timers (br w) ++ [t] ->
        timerCallback t = DebounceCheck
        /\ ((voiceStateRef (hook w) = idle
             /\ (0.10 <? avgLevel)%float = true
             /\ timerDelay t = 300%Z)
            \/ (voiceStateRef (hook w) = listening
                /\ (avgLevel <? 0.03)%float = true
                /\ timerDelay t = 1500%Z))).
Proof.
  cbv zeta. intros Hs.
  pose proof (run_Inv config es Session.initial Inv_initial) as HI.
  set (w := Session.run config es Session.initial) in *.
  pose proof HI as [Hlen _].
  rewrite (sample_window w data Hs).
  split; [ apply pushSample_lastn, Hlen | ].
  split; [ apply pushSample_length, Hlen | ].
  split; [ reflexivity | ].
  split; [ intros ds; apply window_after_samples; assumption | ].
  intros t Ht.
  destruct (sample_schedules w data t Ht) as (_ & Hcb & _ & Hwhy).
  rewrite (sample_window w data Hs) in Hwhy.
  split; [ exact Hcb | exact Hwhy ].
Qed.

Lemma window_average_and_debounce_delays_witness :
  audioLevelHistoryRef
    (hook (Session.run VoiceMode.config quieting Session.initial))
  = [0.15686274509803921; 0; 0; 0; 0]%float
  /\ audioLevelHistoryRef
       (hook (exec (handleAudioData quiet)
                (Session.run VoiceMode.config quieting Session.initial)))
     = lastn 5 ([0.15686274509803921; 0; 0; 0; 0] ++ [0])%float
  /\ (voiceStateRef
        (hook (Session.run VoiceMode.config quieting Session.initial))
      = listening
      /\ (averageLevel
            (audioLevelHistoryRef
               (hook (exec (handleAudioData quiet)
                        (Session.run VoiceMode.config quieting Session.initial))))
          <? 0.03)%float = true
      /\ timerDelay (mkTimer 13 1500 DebounceCheck) = 1500%Z).
Proof.
  destruct (window_average_and_debounce_delays VoiceMode.config quieting quiet)
    as (Hw & _ & _ & _ & Ht).
  - right. vm_compute. reflexivity.
  - split; [ vm_compute; reflexivity | split; [ exact Hw | ] ].
    destruct (Ht (mkTimer 13 1500 DebounceCheck)) as [_ [Hidle | Hlistening]].
    + vm_compute. reflexivity.
    + destruct Hidle as [Hidle _]. vm_compute in Hidle. discriminate Hidle.
    + exact Hlistening.
Defined.

(** The hysteresis asks for no change exactly when the average does not
    cross the threshold of the current state. *)
Lemma desiredState_same (s : VoiceState) (a : float) :
  (s = idle /\ (0.10 <? a)%float = false)
  \/ (s = listening /\ (a <? 0.03)%float = false) ->
  desiredState s a = s.
Proof.
  unfold desiredState, ENTER_THRESHOLD, EXIT_THRESHOLD.
  intros [[-> H] | [-> H]]; cbn; rewrite H; reflexivity.
Qed.

(** C3. At every point of every session at most one debounce timer is
    pending; a sample adds a timer only when none is pending; and when a
    sample arrives in [idle] or [listening] whose average no longer crosses
    the threshold of that state, the pending timer is cleared: afterwards no
    debounce timer is pending, [stateChangeTimerRef] is [null], the state is
    what it was, and whatever timer fires next leaves it so. *)
Theorem at_most_one_debounce_timer
    (config : VoiceModeConfig) (es : list Event) (data : AudioData) :
  let w := Session.run config es Session.initial in
  let w' := exec (handleAudioData data) w in
  let avgLevel := averageLevel (audioLevelHistoryRef (hook w')) in
  List.length (debounceTimers w) <= 1
  /\ (forall t : Timer,
        timers (br w') = timers (br w) ++ [t] -> debounceTimers w = [])
  /\ ((voiceStateRef (hook w) = idle /\ (0.10 <? avgLevel)%float = false)
      \/ (voiceStateRef (hook w) = listening /\ (avgLevel <? 0.03)%float = false) ->
      debounceTimers w' = []
      /\ stateChangeTimerRef (hook w') = None
      /\ voiceState (hook w') = voiceState (hook w)
      /\ forall id : positive,
           voiceState (hook (Session.step config w' (TimerFires id)))
           = voiceState (hook w)).
Proof.
  cbv zeta.
  pose proof (run_Inv config es Session.initial Inv_initial) as HI.
  set (w := Session.run config es Session.initial) in *.
  split; [ apply Inv_at_most_one, HI | ].
  split.
  - intros t Ht.
    destruct (sample_schedules w data t Ht) as (Hnone & _).
    apply none_named; assumption.
  - intros Hsame.
    assert (Hs : voiceStateRef (hook w) = idle \/ voiceStateRef (hook w) = listening)
      by (destruct Hsame as [[H _] | [H _]]; auto).
    rewrite (sample_window w data Hs) in Hsame.
    destruct (sample_cancels w data HI Hs (desiredState_same _ _ Hsame))
      as [Hnone Href].
    destruct (VAD.sample_keeps_state w data) as [Hv _].
    repeat split; try assumption.
    intros id. rewrite (no_timer_no_transition config _ id Hnone). exact Hv.
Qed.

Lemma at_most_one_debounce_timer_witness :
  debounceTimers armed = [mkTimer 6 300 DebounceCheck]
  /\ debounceTimers (exec (handleAudioData quiet) armed) = []
  /\ voiceState
       (hook (Session.step VoiceMode.config
                (exec (handleAudioData quiet) armed) (TimerFires 6)))
     = idle.
Proof.
  destruct (at_most_one_debounce_timer VoiceMode.config opening quiet)
    as (_ & _ & H).
  destruct (H (or_introl (conj eq_refl eq_refl))) as (Hnone & _ & _ & Hfire).
  split; [ reflexivity | split; [ exact Hnone | exact (Hfire 6%positive) ] ].
Defined.

(** C1, on the code.  The audio-driven logic reads the holder
    [voiceStateRef], and the [setVoiceState('processing')] of the component
    (index.tsx 35) writes the state only: the holder follows when the
    effect of lines 23-25 runs.  Until then the state is [processing] and
    the logic acts as before.
    (1) Voice mode listens, silence has set the debounce timer towards
    [idle] (handle 13); the final transcript arrives and the state becomes
    [processing]; the timer fires and commits its transition: the state is
    [idle].  Had the effect run first, the timer would have committed
    nothing.
    (2) Voice mode is idle and no timer waits; the final transcript arrives
    and the state becomes [processing]; a sample that arrives then is pushed
    on the window and a debounce timer is scheduled. *)
Theorem audio_logic_acts_in_processing_until_synced :
  (voiceState (hook interrupted) = processing
   /\ voiceStateRef (hook interrupted) = listening
   /\ debounceTimers interrupted = [mkTimer 13 1500 DebounceCheck]
   /\ voiceState
        (hook (Session.step VoiceMode.config interrupted (TimerFires 13)))
      = idle
   /\ voiceState
        (hook (Session.run VoiceMode.config [Commit; TimerFires 13]
                 interrupted))
      = processing)
  /\ (voiceState (hook submitted) = processing
      /\ voiceStateRef (hook submitted) = idle
      /\ debounceTimers submitted = []
      /\ let w' :=
           Session.step VoiceMode.config submitted
             (AnimationFrame 6 shoutBins) in
         voiceState (hook w') = processing
         /\ debounceTimers w' = [mkTimer 9 300 DebounceCheck]
         /\ stateChangeTimerRef (hook w') = Some 9%positive
         /\ List.length (audioLevelHistoryRef (hook w'))
            = S (List.length (audioLevelHistoryRef (hook submitted)))).
Proof.
  cbv zeta. repeat apply conj; vm_compute; reflexivity.
Qed.

End VoiceActivity.

(** ** Final transcripts *)

Module Transcripts.

Import Coordinator.

Lemma eqb_refl (s : JSString) : JS.eqb s s = true.
Proof.
  induction s as [ | c s IH ]; cbn; [ reflexivity | ].
  rewrite N.eqb_refl, IH. reflexivity.
Qed.

Lemma eqb_eq (s t : JSString) : JS.eqb s t = true <-> s = t.
Proof.
  split; [ | intros ->; apply eqb_refl ].
  revert t. induction s as [ | c s IH ]; intros [ | d t ]; cbn; try congruence.
  intros H. apply andb_prop in H. destruct H as [Hc Hs].
  apply N.eqb_eq in Hc. apply IH in Hs. congruence.
Qed.

Lemma eqb_neq (s t : JSString) : JS.eqb s t = false <-> s <> t.
Proof.
  rewrite <- eqb_eq. destruct (JS.eqb s t); split; congruence.
Qed.

Lemma truthy_nonempty (s : JSString) : JS.truthy s = true <-> s <> [].
Proof. destruct s; cbn; split; congruence. Qed.

Ltac run :=
  unfold exec, handleTranscript, setTranscript, config_onTextRecognized,
    when, emit, bind, gets, upd_hook, modify, ret;
  cbn.

(** What the transcript callback does with a result, by cases. *)
Lemma handleTranscript_forwards (config : VoiceModeConfig) (w : World)
    (r : SpeechRecognitionResult) :
  has_onTextRecognized config = true ->
  isFinal r = true ->
  JS.trim (res_transcript r) <> [] ->
  res_transcript r <> lastFinalTranscriptRef (hook w) ->
  log (exec (handleTranscript config r) w)
  = log w ++ [OnTextRecognized (res_transcript r)]
  /\ lastFinalTranscriptRef (hook (exec (handleTranscript config r) w))
     = res_transcript r.
Proof.
  intros Hc Hf Ht Hne. run.
  apply truthy_nonempty in Ht. apply eqb_neq in Hne.
  rewrite Hf, Ht. cbn. rewrite Hne. cbn. rewrite Hc. cbn. split; reflexivity.
Qed.

Lemma handleTranscript_ignores (config : VoiceModeConfig) (w : World)
    (r : SpeechRecognitionResult) :
  isFinal r = false
  \/ JS.trim (res_transcript r) = []
  \/ res_transcript r = lastFinalTranscriptRef (hook w) ->
  log (exec (handleTranscript config r) w) = log w
  /\ lastFinalTranscriptRef (hook (exec (handleTranscript config r) w))
     = lastFinalTranscriptRef (hook w).
Proof.
  intros H. run.
  destruct (isFinal r); cbn; [ | split; reflexivity ].
  destruct (JS.truthy (JS.trim (res_transcript r))) eqn:Ht; cbn;
    [ | split; reflexivity ].
  destruct H as [H | [H | H]]; [ discriminate | | ].
  - rewrite H in Ht. discriminate.
  - rewrite H, eqb_refl. cbn. split; reflexivity.
Qed.

(** Against C4 as stated.  First: ["hello"], then [" "], then ["hello"]
    again, all final.  The third is not empty after trimming and differs
    from the final transcript just before it, and no call is made for it:
    the text it is compared with is the one retained, and a transcript that
    is blank is not retained.  Second: ["hello"], a call of
    [startListening], then ["hello"]: the second is identical to the final
    transcript just before it, and a call is made. *)
Lemma consecutive_finals_counterexample :
  (precedingFinal [final hello; final blank] = Some blank
   /\ JS.trim hello <> [] /\ hello <> blank
   /\ log (exec (handleTranscript VoiceMode.config (final hello))
             (deliver VoiceMode.config [final hello; final blank] ready))
      = log (deliver VoiceMode.config [final hello; final blank] ready))
  /\ (precedingFinal [final hello] = Some hello
      /\ log (exec (handleTranscript VoiceMode.config (final hello))
                (exec (startListening_begin VoiceMode.config)
                   (deliver VoiceMode.config [final hello] ready)))
         = log (exec (startListening_begin VoiceMode.config)
                  (deliver VoiceMode.config [final hello] ready))
           ++ [OnTextRecognized hello]).
Proof.
  repeat apply conj; try (vm_compute; reflexivity); cbv; discriminate.
Qed.

(** C4, amended.  A final result is compared with the text retained in
    [lastFinalTranscriptRef].  If its text is not empty after trimming and
    differs from the retained text, exactly one call of [onTextRecognized]
    is made, with that text, and the text is retained.  If its text is empty
    after trimming or equals the retained text, nothing is output and the
    retained text stays. *)
Theorem final_transcript_compared_with_retained
    (config : VoiceModeConfig) (w : World) (r : SpeechRecognitionResult) :
  has_onTextRecognized config = true ->
  isFinal r = true ->
  let w' := exec (handleTranscript config r) w in
  (JS.trim (res_transcript r) <> []
   /\ res_transcript r <> lastFinalTranscriptRef (hook w) ->
   log w' = log w ++ [OnTextRecognized (res_transcript r)]
   /\ lastFinalTranscriptRef (hook w') = res_transcript r)
  /\ (JS.trim (res_transcript r) = []
      \/ res_transcript r = lastFinalTranscriptRef (hook w) ->
      log w' = log w
      /\ lastFinalTranscriptRef (hook w') = lastFinalTranscriptRef (hook w)).
Proof.
  intros Hc Hf. cbv zeta. split.
  - intros [Ht Hne]. apply handleTranscript_forwards; assumption.
  - intros H. apply handleTranscript_ignores. right. exact H.
Qed.

Lemma final_transcript_compared_with_retained_witness :
  log (exec (handleTranscript VoiceMode.config (final hello)) ready)
  = [OnTextRecognized hello]
  /\ log (deliver VoiceMode.config [final hello; final hello] ready)
     = [OnTextRecognized hello].
Proof.
  destruct (final_transcript_compared_with_retained VoiceMode.config ready
              (final hello) eq_refl eq_refl) as [Hfwd _].
  destruct (final_transcript_compared_with_retained VoiceMode.config
              (exec (handleTranscript VoiceMode.config (final hello)) ready)
              (final hello) eq_refl eq_refl) as [_ Hign].
  split.
  - apply Hfwd. split; cbv; discriminate.
  - apply (proj1 (Hign (or_intror eq_refl))).
Defined.

(** [startListening] on an initialized hook empties the two transcripts,
    whether the manager then starts, waits for the microphone or fails. *)
Lemma startListening_begin_resets (config : VoiceModeConfig) (w : World) :
  audioManagerRef (hook w) = true ->
  isInitialized (hook w) = true ->
  lastFinalTranscriptRef (hook (exec (startListening_begin config) w)) = []
  /\ transcript (hook (exec (startListening_begin config) w)) = [].
Proof.
  intros Ha Hi.
  unfold exec, startListening_begin, startListening_catch,
    manager_startListening_begin, AudioManagerClass.startListening_begin,
    AudioManagerClass.startListening_catch,
    AudioManagerClass.initAudioContext_begin,
    AudioManagerClass.startRecognition, AudioManagerClass.call,
    Browser.getUserMedia, Browser.newSpeechRecognition,
    Browser.recognitionStart, Browser.fresh, handleError, config_onError,
    setError, setVoiceState, setTranscript, when, emit, try_catch, throw,
    bind, gets, upd_hook, upd_am, upd_br, modify, ret.
  cbn. rewrite Ha, Hi. cbn.
  destruct (audioContext (am w)); cbn; [ | split; reflexivity ].
  destruct (Browser.mem _ (started (br w))); cbn; [ | split; reflexivity ].
  destruct (has_onError config); cbn; split; reflexivity.
Qed.

(** C10. [startListening] on an initialized hook empties the retained final
    transcript and the displayed transcript; so the next final transcript
    that is not empty after trimming is forwarded with exactly one call of
    [onTextRecognized], whatever was retained before, be it the very same
    text. *)
Theorem startListening_forgets_retained_transcript
    (config : VoiceModeConfig) (w : World) (r : SpeechRecognitionResult) :
  audioManagerRef (hook w) = true ->
  isInitialized (hook w) = true ->
  has_onTextRecognized config = true ->
  isFinal r = true ->
  JS.trim (res_transcript r) <> [] ->
  let w1 := exec (startListening_begin config) w in
  lastFinalTranscriptRef (hook w1) = []
  /\ transcript (hook w1) = []
  /\ log (exec (handleTranscript config r) w1)
     = log w1 ++ [OnTextRecognized (res_transcript r)].
Proof.
  intros Ha Hi Hc Hf Ht. cbv zeta.
  destruct (startListening_begin_resets config w Ha Hi) as [Hl Htr].
  split; [ exact Hl | split; [ exact Htr | ] ].
  apply handleTranscript_forwards; try assumption.
  rewrite Hl. intros He. apply Ht. rewrite He. reflexivity.
Qed.

Lemma startListening_forgets_retained_transcript_witness :
  lastFinalTranscriptRef (hook heardHello) = hello
  /\ recognized
       (log (exec (handleTranscript VoiceMode.config (final hello))
               (exec (startListening_begin VoiceMode.config) heardHello)))
     = [hello; hello].
Proof.
  split; [ reflexivity | ].
  destruct (startListening_forgets_retained_transcript VoiceMode.config
              heardHello (final hello) eq_refl eq_refl eq_refl eq_refl)
    as (_ & _ & H).
  - cbv; discriminate.
  - rewrite H. reflexivity.
Defined.

Ltac retained_leaf :=
  apply Hoare.preserves_modify;
  let w := fresh "w" in
  let H := fresh "H" in
  intros w H; cbn;
  rewrite ?VAD.showFrequency_lastFinal;
  first
    [ exact H
    | repeat match goal with
             | |- context [ match ?x with _ => _ end ] => destruct x
             end;
      exact H ].

(** The retained text is written by the transcript callback and by
    [startListening] only: every other event leaves it. *)
Lemma retained_kept (config : VoiceModeConfig) (e : Event) (t : JSString) :
  writesRetained e = false ->
  preserves (fun w => lastFinalTranscriptRef (hook w) = t)
    (Session.handle config e).
Proof.
  destruct e; cbn [Session.handle writesRetained]; try discriminate; intros _;
    unfold Coordinator.unmount, Session.timerFires, debounceCheck,
      handleAudioData;
    repeat first
      [ preserves_step
      | progress unfold_model
      | progress unfold handleAudioData
      | progress cbv beta iota
      | retained_leaf ].
Qed.

End Transcripts.

(** ** Speech synthesis *)

Module Synthesis.

Import Coordinator.

Lemma mem_last (u : positive) (l : list positive) :
  Browser.mem u (l ++ [u]) = true.
Proof.
  unfold Browser.mem. rewrite existsb_app. cbn.
  rewrite Pos.eqb_refl. apply orb_true_r.
Qed.

(** What [speak] does on an initialized hook, up to its [await]. *)
Lemma speak_begin_awaits (text : JSString) (w : World) :
  audioManagerRef (hook w) = true ->
  isInitialized (hook w) = true ->
  fst (speak_begin text w) = Normal (Some (nextHandle (br w)))
  /\ voiceState (hook (exec (speak_begin text) w)) = speaking
  /\ voiceStateRef (hook (exec (speak_begin text) w)) = speaking
  /\ utterances (br (exec (speak_begin text) w)) = [nextHandle (br w)]
  /\ promises (br (exec (speak_begin text) w))
     = promises (br w) ++ [nextHandle (br w)].
Proof.
  intros Ha Hi.
  unfold exec, speak_begin, manager_speak, AudioManagerClass.speak,
    Browser.synthesisCancel, Browser.synthesisSpeak, Browser.fresh,
    setVoiceState, bind, gets, upd_hook, upd_br, modify, ret.
  cbn. rewrite Ha, Hi. cbn. repeat split; reflexivity.
Qed.

(** What happens when an awaited utterance fails. *)
Lemma utteranceError_rejects (config : VoiceModeConfig) (w : World)
    (u : positive) :
  Browser.mem u (promises (br w)) = true ->
  let w' := Session.step config w (UtteranceError u) in
  voiceState (hook w') = idle
  /\ voiceStateRef (hook w') = idle
  /\ error (hook w') = Some "Failed to speak"%string
  /\ log w' = log w ++ [ConsoleError "Speech synthesis error:";
                        ConsoleError "Failed to speak:"]
  /\ promises (br w') = Browser.remove u (promises (br w)).
Proof.
  intros Hm. cbv zeta.
  unfold Session.step, exec. cbn [Session.handle].
  unfold Session.utteranceError, Session.settle,
    AudioManagerClass.utterance_onerror, speak_rejected, setError,
    setVoiceState, emit, bind, gets, upd_hook, upd_br, modify, ret.
  cbn. rewrite Hm. cbn. rewrite <- app_assoc. repeat split; reflexivity.
Qed.

Lemma mem_app_l (u : positive) (l l' : list positive) :
  Browser.mem u l = true -> Browser.mem u (l ++ l') = true.
Proof.
  unfold Browser.mem. rewrite existsb_app. intros ->. reflexivity.
Qed.

Lemma mem_remove_other (u v : positive) (l : list positive) :
  Pos.eqb u v = false ->
  Browser.mem u l = true -> Browser.mem u (Browser.remove v l) = true.
Proof.
  unfold Browser.mem, Browser.remove. intros Hne.
  induction l as [ | a l IH ]; cbn; [ congruence | ].
  intros H. apply orb_prop in H.
  destruct (Pos.eqb v a) eqn:Hva; cbn.
  - destruct H as [H | H]; [ | exact (IH H) ].
    apply Pos.eqb_eq in H, Hva. subst. rewrite Pos.eqb_refl in Hne. discriminate.
  - destruct H as [H | H]; [ rewrite H; reflexivity | ].
    rewrite (IH H). apply orb_true_r.
Qed.

Ltac pending_leaf :=
  apply Hoare.preserves_modify;
  let w := fresh "w" in
  let H := fresh "H" in
  intros w H; cbn;
  first
    [ exact H
    | apply mem_app_l; exact H
    | apply mem_remove_other; [ assumption | exact H ]
    | repeat match goal with
             | |- context [ match ?x with _ => _ end ] => destruct x
             end;
      exact H ].

(** The promise of an utterance stays pending until the utterance ends or
    fails, whatever else happens. *)
Lemma pending_kept (config : VoiceModeConfig) (u : positive) (e : Event) :
  settles u e = false ->
  preserves (fun w => Browser.mem u (promises (br w)) = true)
    (Session.handle config e).
Proof.
  destruct e; cbn [Session.handle settles]; intros Hs;
    unfold Coordinator.unmount, Session.timerFires, Coordinator.debounceCheck,
      Coordinator.handleAudioData;
    repeat first
      [ preserves_step
      | progress unfold_model
      | progress unfold Coordinator.handleAudioData
      | progress cbv beta iota
      | pending_leaf ].
Qed.

Lemma run_pending (config : VoiceModeConfig) (u : positive)
    (es : list Event) (w : World) :
  forallb (fun e => negb (settles u e)) es = true ->
  Browser.mem u (promises (br w)) = true ->
  Browser.mem u (promises (br (Session.run config es w))) = true.
Proof.
  revert w. induction es as [ | e es IH ]; intros w Hes Hw; cbn in *;
    [ exact Hw | ].
  apply andb_prop in Hes. destruct Hes as [He Hes].
  apply IH; [ exact Hes | ].
  apply (pending_kept config u e); [ | exact Hw ].
  destruct (settles u e); [ discriminate | reflexivity ].
Qed.

(** C5. A call of [speak] on an initialized hook sets the state to
    [speaking] and awaits the utterance it queued.  Whatever events follow,
    as long as that utterance has neither ended nor failed, its promise
    stays pending; and in whatever world its failure is then delivered,
    whatever the state has become in between, the failure is reported (on
    the console and in the [error] cell of the hook, which reads "Failed to
    speak") and both the state and the holder read by the audio logic are
    [idle] afterwards. *)
Theorem synthesis_failure_returns_to_idle
    (config : VoiceModeConfig) (text : JSString) (w : World)
    (es : list Event) :
  audioManagerRef (hook w) = true ->
  isInitialized (hook w) = true ->
  forallb (fun e => negb (settles (nextHandle (br w)) e)) es = true ->
  let u := nextHandle (br w) in
  let w1 := exec (speak_begin text) w in
  let w2 := Session.run config es w1 in
  let w3 := Session.step config w2 (UtteranceError u) in
  fst (speak_begin text w) = Normal (Some u)
  /\ voiceState (hook w1) = speaking
  /\ voiceState (hook w3) = idle
  /\ voiceStateRef (hook w3) = idle
  /\ error (hook w3) = Some "Failed to speak"%string
  /\ log w3 = log w2 ++ [ConsoleError "Speech synthesis error:";
                         ConsoleError "Failed to speak:"].
Proof.
  intros Ha Hi Hes. cbv zeta.
  destruct (speak_begin_awaits text w Ha Hi) as (Hr & Hv & _ & _ & Hp).
  split; [ exact Hr | split; [ exact Hv | ] ].
  assert (Hm : Browser.mem (nextHandle (br w))
                 (promises (br (exec (speak_begin text) w))) = true)
    by (rewrite Hp; apply mem_last).
  pose proof (run_pending config _ es _ Hes Hm) as Hm2.
  destruct (utteranceError_rejects config _ _ Hm2) as (H1 & H2 & H3 & H4 & _).
  repeat split; assumption.
Qed.

Lemma synthesis_failure_returns_to_idle_witness :
  voiceState (hook listeningWorld) = listening
  /\ voiceState
       (hook (Session.step VoiceMode.config
                (Session.run VoiceMode.config
                   [AnimationFrame 7 loudBins; RecognitionEnd 8; StopSpeaking]
                   (exec (speak_begin VoiceMode.mockResponse) listeningWorld))
                (UtteranceError (nextHandle (br listeningWorld)))))
     = idle.
Proof.
  split; [ vm_compute; reflexivity | ].
  destruct (synthesis_failure_returns_to_idle VoiceMode.config
              VoiceMode.mockResponse listeningWorld
              [AnimationFrame 7 loudBins; RecognitionEnd 8; StopSpeaking])
    as (_ & _ & H & _).
  - vm_compute; reflexivity.
  - vm_compute; reflexivity.
  - vm_compute; reflexivity.
  - exact H.
Defined.

End Synthesis.

(** ** Speech recognition: restart and stop *)

Module Recognition.

Lemma incl_remove (r : positive) (l S : list positive) :
  incl l S -> incl (Browser.remove r l) S.
Proof.
  intros H x Hx. apply H. unfold Browser.remove in Hx.
  apply filter_In in Hx. exact (proj1 Hx).
Qed.

Lemma recognitionEnd_stopped (S : list positive) (r : positive) :
  preserves (stopped S) (Session.recognitionEnd r).
Proof.
  intros w [Hn Hs].
  unfold Session.recognitionEnd, AudioManagerClass.recognition_onend,
    bind, gets, upd_br, modify, ret. cbn.
  destruct (Browser.mem r (started (br w))); [ | split; assumption ].
  destruct (Session.findRecognizer r (br w)); cbn; [ | split; assumption ].
  rewrite Hn. cbn. split; [ exact Hn | apply incl_remove, Hs ].
Qed.

Ltac stopped_leaf :=
  apply Hoare.preserves_modify;
  let w := fresh "w" in
  let H := fresh "H" in
  intros w H; unfold stopped in *; cbn;
  rewrite ?VAD.showFrequency_lastFinal;
  first
    [ exact H
    | split; [ reflexivity | exact (proj2 H) ]
    | repeat match goal with
             | |- context [ match ?x with _ => _ end ] => destruct x
             end;
      exact H ].

(** Nothing but a call of [startListening] (or its completion) takes the
    manager out of the stopped condition. *)
Lemma handle_stopped (config : VoiceModeConfig) (S : list positive) (e : Event) :
  startsListening e = false ->
  preserves (stopped S) (Session.handle config e).
Proof.
  destruct e; cbn [Session.handle startsListening]; try discriminate; intros _;
    try apply recognitionEnd_stopped;
    unfold Coordinator.unmount, Session.timerFires, Coordinator.debounceCheck,
      Coordinator.handleAudioData;
    repeat first
      [ preserves_step
      | progress unfold_model
      | progress unfold Coordinator.handleAudioData
      | progress cbv beta iota
      | stopped_leaf ].
Qed.

Lemma run_stopped (config : VoiceModeConfig) (S : list positive)
    (es : list Event) (w : World) :
  forallb (fun e => negb (startsListening e)) es = true ->
  stopped S w -> stopped S (Session.run config es w).
Proof.
  revert w. induction es as [ | e es IH ]; intros w Hes Hw; cbn in *;
    [ exact Hw | ].
  apply andb_prop in Hes. destruct Hes as [He Hes].
  apply IH; [ exact Hes | ].
  apply (handle_stopped config S e); [ | exact Hw ].
  destruct (startsListening e); [ discriminate | reflexivity ].
Qed.

(** [stopListening] leaves the manager stopped. *)
Lemma stopListening_stopped (w : World) :
  stopped (started (br w)) (exec AudioManagerClass.stopListening w)
  /\ started (br (exec AudioManagerClass.stopListening w)) = started (br w).
Proof.
  unfold stopped, exec, AudioManagerClass.stopListening,
    Browser.recognitionStop, bind, gets, upd_am, upd_br, modify, ret. cbn.
  destruct (recognition (am w)) as [ r | ] eqn:Hr; cbn.
  - destruct (Browser.mem r (started (br w)) && negb (Browser.mem r (stopping (br w))));
      cbn; repeat split; try reflexivity; apply incl_refl.
  - repeat split; try assumption; apply incl_refl.
Qed.

Lemma mem_remove_same (r : positive) (l : list positive) :
  Browser.mem r (Browser.remove r l) = false.
Proof.
  unfold Browser.mem, Browser.remove.
  induction l as [ | a l IH ]; cbn; [ reflexivity | ].
  destruct (Pos.eqb r a) eqn:He; cbn; [ exact IH | ].
  rewrite He, IH. reflexivity.
Qed.

(** The engine of the recognizer the manager holds ends, and [continuous]
    was asked for: it is started again, and nothing else happens. *)
Lemma engine_end_restarts (config : VoiceModeConfig) (w : World)
    (r : positive) (x : Recognizer) :
  recognition (am w) = Some r ->
  Browser.mem r (started (br w)) = true ->
  Session.findRecognizer r (br w) = Some x ->
  rec_continuous x = true ->
  let w' := Session.step config w (RecognitionEnd r) in
  started (br w') = Browser.remove r (started (br w)) ++ [r]
  /\ recognition (am w') = Some r
  /\ log w' = log w /\ hook w' = hook w /\ ui w' = ui w.
Proof.
  intros Hr Hm Hf Hc. cbv zeta.
  unfold Session.step, exec. cbn [Session.handle].
  unfold Session.recognitionEnd, AudioManagerClass.recognition_onend,
    Browser.recognitionStart, try_catch, throw, bind, gets, upd_br, modify, ret.
  cbn. rewrite Hm, Hf. cbn. rewrite Hr, Hc. cbn.
  rewrite mem_remove_same. cbn. repeat split; try reflexivity; assumption.
Qed.

(** *** A recognizer the manager let go of *)

Lemma find_app_some {A} (p : A -> bool) (l l' : list A) (x : A) :
  find p l = Some x -> find p (l ++ l') = Some x.
Proof.
  induction l as [ | a l IH ]; cbn; [ discriminate | ].
  destruct (p a); [ trivial | exact IH ].
Qed.

Lemma mem_snoc_other (r n : positive) (l : list positive) :
  r <> n -> Browser.mem r (l ++ [n]) = Browser.mem r l.
Proof.
  intros Hne. unfold Browser.mem. rewrite existsb_app. cbn.
  apply Pos.eqb_neq in Hne. rewrite Hne. rewrite !orb_false_r. reflexivity.
Qed.

Lemma mem_remove_absent (r y : positive) (l : list positive) :
  Browser.mem r l = false -> Browser.mem r (Browser.remove y l) = false.
Proof.
  unfold Browser.mem, Browser.remove.
  induction l as [ | a l IH ]; cbn; [ trivial | ].
  intros H. apply orb_false_elim in H. destruct H as [Ha Hl].
  destruct (negb (Pos.eqb y a)); cbn; [ rewrite Ha | ]; auto.
Qed.

Lemma fresh_gone (e : bool) (r : positive) (x : Recognizer) :
  preserves (gone e r x) Browser.fresh.
Proof.
  intros w H. unfold Browser.fresh, bind, gets, upd_br, modify, ret. cbn.
  destruct e; unfold gone, ended, retired in *; cbn;
    repeat split; try apply H; lia.
Qed.

(** A new recognizer takes a handle the retired one cannot have. *)
Lemma startRecognition_gone (e : bool) (r : positive) (x : Recognizer)
    (lang : string) (cont : bool) :
  preserves (gone e r x) (AudioManagerClass.startRecognition lang cont).
Proof.
  intros w H.
  assert (Hr : retired r x w) by (destruct e; apply H).
  destruct Hr as (Hn & Hlt & Hf).
  assert (Hne : r <> nextHandle (br w)) by lia.
  unfold AudioManagerClass.startRecognition, Browser.newSpeechRecognition,
    Browser.recognitionStart, Browser.fresh, bind, gets, upd_am, upd_br,
    modify, ret, throw.
  cbn.
  assert (Hret : forall v : World,
            recognition (am v) = Some (nextHandle (br w)) ->
            nextHandle (br v) = Pos.succ (nextHandle (br w)) ->
            recognizers (br v)
            = recognizers (br w)
              ++ [mkRecognizer (nextHandle (br w)) cont true lang 1] ->
            retired r x v).
  { intros v H1 H2 H3. unfold retired, Session.findRecognizer.
    rewrite H1, H2, H3. repeat split.
    - intros [= E]. congruence.
    - lia.
    - apply find_app_some, Hf. }
  destruct (Browser.mem (nextHandle (br w)) (started (br w))); cbn;
    destruct e; unfold gone, ended in *; cbn;
    try (apply Hret; reflexivity);
    (split; [ apply Hret; reflexivity | ]); cbn.
  - apply H.
  - rewrite mem_snoc_other by exact Hne. apply H.
Qed.

(** [onend] starts the recognizer the manager holds, never a retired one. *)
Lemma onend_gone (e : bool) (r : positive) (x : Recognizer) (cont : bool) :
  preserves (gone e r x) (AudioManagerClass.recognition_onend cont).
Proof.
  intros w H.
  assert (Hr : retired r x w) by (destruct e; apply H).
  destruct Hr as (Hn & Hlt & Hf).
  unfold AudioManagerClass.recognition_onend, Browser.recognitionStart,
    try_catch, bind, gets, upd_br, modify, ret, throw.
  cbn. destruct (recognition (am w)) as [ cur | ] eqn:Hc; [ | exact H ].
  destruct cont; [ | exact H ].
  destruct (Browser.mem cur (started (br w))); cbn; [ exact H | ].
  assert (Hne : r <> cur) by congruence.
  destruct e; unfold gone, ended, retired in *; cbn.
  - rewrite Hc. repeat split; try apply H; try assumption.
    rewrite mem_snoc_other by exact Hne. apply H.
  - rewrite Hc. repeat split; assumption.
Qed.

Lemma recognitionEnd_gone (e : bool) (r : positive) (x : Recognizer)
    (r' : positive) :
  preserves (gone e r x) (Session.recognitionEnd r').
Proof.
  unfold Session.recognitionEnd.
  apply Hoare.preserves_bind; [ apply Hoare.preserves_gets | intros b ].
  destruct (Browser.mem r' (started b)); [ | apply Hoare.preserves_ret ].
  destruct (Session.findRecognizer r' b) as [ y | ];
    [ | apply Hoare.preserves_ret ].
  apply Hoare.preserves_bind; [ | intros _; apply onend_gone ].
  unfold upd_br. apply Hoare.preserves_modify. intros w H.
  destruct e; unfold gone, ended, retired in *; cbn.
  - repeat split; try apply H. apply mem_remove_absent, H.
  - exact H.
Qed.

Ltac gone_leaf :=
  apply Hoare.preserves_modify;
  let w := fresh "w" in
  let H := fresh "H" in
  intros w H;
  first
    [ exact H
    | unfold gone, ended, retired in *; cbn;
      repeat match goal with
             | |- context [ match ?x with _ => _ end ] => destruct x
             end;
      first
        [ exact H
        | intuition (try discriminate; try congruence) ] ].

Ltac preserves_gone :=
  repeat first
    [ match goal with
      | |- preserves _ Browser.fresh => apply fresh_gone
      | |- preserves _ (AudioManagerClass.startRecognition _ _) =>
          apply startRecognition_gone
      | |- preserves _ (AudioManagerClass.recognition_onend _) =>
          apply onend_gone
      | |- preserves _ (Session.recognitionEnd _) =>
          apply recognitionEnd_gone
      | |- preserves _ (AudioManagerClass.startListening_catch _ _) =>
          unfold AudioManagerClass.startListening_catch
      | |- preserves _ (Coordinator.startListening_catch _) =>
          unfold Coordinator.startListening_catch
      | |- preserves _ (Coordinator.handleAudioData _) =>
          unfold Coordinator.handleAudioData, Coordinator.showFrequency
      | |- preserves _ Coordinator.debounceCheck =>
          unfold Coordinator.debounceCheck
      | |- preserves _ Coordinator.unmount =>
          unfold Coordinator.unmount
      | |- preserves _ AudioManagerClass.createContext =>
          unfold AudioManagerClass.createContext
      | |- preserves _ AudioManagerClass.destroy =>
          unfold AudioManagerClass.destroy
      | |- preserves _ (Session.timerFires _) =>
          unfold Session.timerFires
      | |- preserves _ (Coordinator.mount _ _) =>
          unfold Coordinator.mount
      | |- preserves _ (if _ then _ else _) =>
          match goal with
          | |- context [ if ?c then _ else _ ] => destruct c
          end
      end
    | preserves_step
    | progress unfold_handlers
    | progress cbv beta iota
    | gone_leaf ].

(** Whatever happens - a new [startListening] included - a retired
    recognizer stays retired, and once ended it stays ended. *)
Lemma handle_gone (config : VoiceModeConfig) (e : bool) (r : positive)
    (x : Recognizer) (ev : Event) :
  preserves (gone e r x) (Session.handle config ev).
Proof.
  destruct ev; cbn [Session.handle]; preserves_gone.
Qed.

Lemma run_gone (config : VoiceModeConfig) (e : bool) (r : positive)
    (x : Recognizer) (es : list Event) (w : World) :
  gone e r x w -> gone e r x (Session.run config es w).
Proof.
  revert w. induction es as [ | ev es IH ]; intros w H; cbn; [ exact H | ].
  apply IH. apply (handle_gone config e r x ev w H).
Qed.

(** [stopListening] retires the recognizer the manager held. *)
Lemma stopListening_retires (w : World) (r : positive) (x : Recognizer) :
  recognition (am w) = Some r ->
  (r < nextHandle (br w))%positive ->
  Session.findRecognizer r (br w) = Some x ->
  retired r x (exec AudioManagerClass.stopListening w).
Proof.
  intros Hr Hlt Hf.
  unfold retired, exec, AudioManagerClass.stopListening,
    Browser.recognitionStop, Session.findRecognizer, bind, gets, upd_am,
    upd_br, modify, ret.
  cbn. rewrite Hr. cbn.
  destruct (Browser.mem r (started (br w))
            && negb (Browser.mem r (stopping (br w)))); cbn;
    repeat split; try discriminate; assumption.
Qed.

(** The end of a retired recognizer leaves it not started, and nothing is
    output. *)
Lemma retired_end_ends (config : VoiceModeConfig) (w : World) (r : positive)
    (x : Recognizer) :
  retired r x w ->
  let w' := Session.step config w (RecognitionEnd r) in
  ended r x w' /\ log w' = log w.
Proof.
  intros Hret. cbv zeta. split.
  - split; [ apply (handle_gone config false r x (RecognitionEnd r) w Hret) | ].
    destruct Hret as (Hn & Hlt & Hf).
    unfold Session.step, exec. cbn [Session.handle].
    unfold Session.recognitionEnd, AudioManagerClass.recognition_onend,
      Browser.recognitionStart, try_catch, throw, bind, gets, upd_br, modify,
      ret.
    cbn. rewrite Hf.
    destruct (Browser.mem r (started (br w))) eqn:Hm; cbn; [ | exact Hm ].
    destruct (recognition (am w)) as [ cur | ] eqn:Hc; cbn;
      [ | apply mem_remove_same ].
    destruct (rec_continuous x); cbn; [ | apply mem_remove_same ].
    destruct (Browser.mem cur (Browser.remove r (started (br w)))); cbn;
      [ apply mem_remove_same | ].
    rewrite mem_snoc_other by congruence. apply mem_remove_same.
  - unfold Session.step, exec. cbn [Session.handle].
    unfold Session.recognitionEnd, AudioManagerClass.recognition_onend,
      Browser.recognitionStart, try_catch, throw, bind, gets, upd_br, modify,
      ret.
    cbn.
    repeat match goal with
           | |- context [ if ?c then _ else _ ] => destruct c; cbn
           | |- context [ match ?c with Some _ => _ | None => _ end ] =>
               destruct c; cbn
           end; reflexivity.
Qed.

(** C6. (1) When the engine of the recognizer held by the manager ends and
    [continuous] was asked for, the manager starts it again; no callback of
    the hook runs and nothing is output.
    (2) After [stopListening], as long as [startListening] is not called
    again (nor a pending call of it completed), whatever events arrive -
    ends, results and errors of any recognizer, frames, timers, utterances,
    the other calls of the host - the manager holds no recognizer and no
    recognizer is started that was not started already.
    (3) The recognizer [stopListening] stopped (its handle is one the page
    has handed out, as every recognizer's is) is never started again,
    whatever happens afterwards, calls of [startListening] included: the
    manager never holds it again; when its engine ends, it is left not
    started and nothing is output; and from then on it is not started in
    any state the session reaches. *)
Theorem restart_if_continuous_never_after_stop
    (config : VoiceModeConfig) (w : World) :
  (forall (r : positive) (x : Recognizer),
     recognition (am w) = Some r ->
     Browser.mem r (started (br w)) = true ->
     Session.findRecognizer r (br w) = Some x ->
     rec_continuous x = true ->
     let w' := Session.step config w (RecognitionEnd r) in
     Browser.mem r (started (br w')) = true
     /\ recognition (am w') = Some r
     /\ log w' = log w /\ hook w' = hook w)
  /\ (forall es : list Event,
        forallb (fun e => negb (startsListening e)) es = true ->
        let w1 := exec AudioManagerClass.stopListening w in
        let w2 := Session.run config es w1 in
        recognition (am w2) = None
        /\ incl (started (br w2)) (started (br w)))
  /\ (forall (r : positive) (x : Recognizer),
        recognition (am w) = Some r ->
        (r < nextHandle (br w))%positive ->
        Session.findRecognizer r (br w) = Some x ->
        forall es1 es2 : list Event,
          let w1 := exec AudioManagerClass.stopListening w in
          let w2 := Session.run config es1 w1 in
          let w3 := Session.step config w2 (RecognitionEnd r) in
          let w4 := Session.run config es2 w3 in
          recognition (am w2) <> Some r
          /\ Browser.mem r (started (br w3)) = false
          /\ log w3 = log w2
          /\ recognition (am w4) <> Some r
          /\ Browser.mem r (started (br w4)) = false).
Proof.
  split; [ | split ].
  - intros r x Hr Hm Hf Hc. cbv zeta.
    destruct (engine_end_restarts config w r x Hr Hm Hf Hc)
      as (Hs & Hr' & Hl & Hh & _).
    rewrite Hs. repeat split; try assumption. apply Synthesis.mem_last.
  - intros es Hes. cbv zeta.
    destruct (stopListening_stopped w) as [Hstop _].
    exact (run_stopped config _ es _ Hes Hstop).
  - intros r x Hr Hlt Hf es1 es2. cbv zeta.
    pose proof (stopListening_retires w r x Hr Hlt Hf) as H1.
    pose proof (run_gone config false r x es1 _ H1) as H2.
    destruct (retired_end_ends config _ r x H2) as [H3 Hlog].
    pose proof (run_gone config true r x es2 _ H3) as H4.
    split; [ exact (proj1 H2) | ].
    split; [ exact (proj2 H3) | ].
    split; [ exact Hlog | ].
    split; [ exact (proj1 (proj1 H4)) | exact (proj2 H4) ].
Qed.

Lemma restart_if_continuous_never_after_stop_witness :
  (recognition (am dictating) = Some 7%positive
   /\ Browser.mem 7 (started (br dictating)) = true)
  /\ Browser.mem 7 (started (br (Session.step continuousConfig dictating
                                   (RecognitionEnd 7)))) = true
  /\ Browser.mem 7
       (started
          (br (Session.step continuousConfig
                 (Session.run continuousConfig
                    [RecognitionResult 7 (final hello)]
                    (exec AudioManagerClass.stopListening dictating))
                 (RecognitionEnd 7)))) = false
  /\ Browser.mem 7
       (started
          (br (Session.run continuousConfig
                 [StartListening; RecognitionEnd 8; RecognitionEnd 7]
                 (Session.step continuousConfig
                    (Session.run continuousConfig
                       [RecognitionResult 7 (final hello)]
                       (exec AudioManagerClass.stopListening dictating))
                    (RecognitionEnd 7))))) = false.
Proof.
  destruct (restart_if_continuous_never_after_stop continuousConfig dictating)
    as (Hrestart & _ & Hnever).
  assert (Hr : recognition (am dictating) = Some 7%positive)
    by (vm_compute; reflexivity).
  assert (Hm : Browser.mem 7 (started (br dictating)) = true)
    by (vm_compute; reflexivity).
  assert (Hf : Session.findRecognizer 7 (br dictating)
               = Some (mkRecognizer 7 true true "en-US" 1))
    by (vm_compute; reflexivity).
  assert (Hlt : (7 < nextHandle (br dictating))%positive)
    by (vm_compute; reflexivity).
  split; [ split; assumption | split ].
  - exact (proj1 (Hrestart 7%positive _ Hr Hm Hf eq_refl)).
  - pose proof (Hnever 7%positive _ Hr Hlt Hf
                  [RecognitionResult 7 (final hello)]
                  [StartListening; RecognitionEnd 8; RecognitionEnd 7]) as T.
    cbv zeta in T. destruct T as (_ & H3 & _ & _ & H4).
    split; assumption.
Defined.

End Recognition.

(** ** Microphone permission *)

Module Microphone.

Lemma errorsReported_app (l l' : list Output) :
  errorsReported (l ++ l') = errorsReported l ++ errorsReported l'.
Proof.
  induction l as [ | o l IH ]; cbn; [ reflexivity | ].
  destruct o; cbn; rewrite IH; reflexivity.
Qed.

(** The rejection of [getUserMedia] travels through the [catch] of
    [initAudioContext], which calls the error callback and throws again,
    then through the [catch] of the manager's [startListening], which calls
    the error callback again and throws again, and ends in the [catch] of
    the hook's [startListening]. *)
Lemma denial_path (config : VoiceModeConfig) (w : World) (id : positive)
    (q : MicRequest) (err : Error) :
  Session.findRequest id (br w) = Some q ->
  has_onError config = true ->
  let w' := Session.step config w (MicSettles id (Denied err)) in
  log w' = log w ++ [ConsoleError "Failed to initialize audio context:";
                     ConsoleError "Audio manager error:";
                     OnError (mkError "Microphone access denied");
                     ConsoleError "Failed to start listening:";
                     ConsoleError "Audio manager error:";
                     OnError err;
                     ConsoleError "Failed to start listening:"]
  /\ voiceState (hook w') = idle
  /\ voiceStateRef (hook w') = idle
  /\ am w' = am w
  /\ frames (br w') = frames (br w)
  /\ started (br w') = started (br w)
  /\ recognizers (br w') = recognizers (br w).
Proof.
  intros Hf Hc. cbv zeta.
  unfold Session.step, exec. cbn [Session.handle].
  unfold Session.micSettles, Coordinator.startListening_resume,
    Coordinator.startListening_catch, Coordinator.manager_startListening_resume,
    AudioManagerClass.startListening_resume,
    AudioManagerClass.startListening_catch,
    AudioManagerClass.initAudioContext_resume, AudioManagerClass.call,
    Coordinator.handleError, Coordinator.config_onError, Coordinator.setError,
    Coordinator.setVoiceState, when, emit, try_catch, throw, bind, gets,
    upd_hook, upd_br, modify, ret.
  cbn. rewrite Hf. cbn. rewrite Hc. cbn.
  repeat rewrite <- app_assoc. cbn.
  repeat split; reflexivity.
Qed.

(** C7, on the code.  When the microphone is refused at the start of voice
    mode, the hook ends in [idle], no recognizer was made or started and no
    analysis frame is requested, and neither a new request for the
    microphone nor a timer is pending; but the host's [onError] is called
    twice for the one failure, first with "Microphone access denied" and
    then with the error of the browser. *)
Theorem microphone_denial_reported_twice :
  errorsReported (log refused)
  = [mkError "Microphone access denied"; notAllowed]
  /\ voiceState (hook refused) = idle
  /\ voiceStateRef (hook refused) = idle
  /\ recognition (am refused) = None
  /\ recognizers (br refused) = []
  /\ started (br refused) = []
  /\ animationId (am refused) = None
  /\ frames (br refused) = []
  /\ micRequests (br refused) = []
  /\ timers (br refused) = [].
Proof. repeat apply conj; vm_compute; reflexivity. Qed.

(** The same for every session and every configuration with an [onError]:
    a refusal adds two calls of [onError]. *)
Lemma denial_reported_twice_everywhere (config : VoiceModeConfig) (w : World)
    (id : positive) (q : MicRequest) (err : Error) :
  Session.findRequest id (br w) = Some q ->
  has_onError config = true ->
  errorsReported (log (Session.step config w (MicSettles id (Denied err))))
  = errorsReported (log w) ++ [mkError "Microphone access denied"; err].
Proof.
  intros Hf Hc.
  destruct (denial_path config w id q err Hf Hc) as (Hl & _).
  rewrite Hl, errorsReported_app. reflexivity.
Qed.

End Microphone.

(** ** The response of the host *)

Module Response.

(** The branch of the response timer written for voice output off
    (index.tsx 54-57) writes the state and [pendingResponse] and nothing
    else; it does not call [startListening]. *)
Lemma response_without_voice (isInitialized micEnabled : bool) (w : World) :
  let w' := exec (VoiceMode.responseTimer isInitialized false micEnabled) w in
  voiceState (hook w') = idle
  /\ pendingResponse (ui w') = false
  /\ am w' = am w /\ br w' = br w /\ log w' = log w.
Proof.
  cbv zeta.
  unfold exec, VoiceMode.responseTimer, Coordinator.setVoiceState, bind,
    upd_ui, upd_hook, modify.
  cbn. repeat split; reflexivity.
Qed.

(** The callback attached to [speak], held by a render that saw the hook
    initialized, starts listening again when the microphone is on: with an
    audio context, a new recognizer is made and started. *)
Lemma speakThen_resumes (w : World) (c : positive) :
  audioManagerRef (hook w) = true ->
  audioContext (am w) = Some c ->
  Browser.mem (nextHandle (br w)) (started (br w)) = false ->
  recognition (am (exec (VoiceMode.speakThen true true) w))
  = Some (nextHandle (br w))
  /\ started (br (exec (VoiceMode.speakThen true true) w))
     = started (br w) ++ [nextHandle (br w)].
Proof.
  intros Ha Hc Hm.
  unfold exec, VoiceMode.speakThen, Coordinator.startListening_closure,
    Coordinator.startListening_catch, Coordinator.manager_startListening_begin,
    AudioManagerClass.startListening_begin,
    AudioManagerClass.startListening_catch,
    AudioManagerClass.initAudioContext_begin,
    AudioManagerClass.startRecognition, Browser.newSpeechRecognition,
    Browser.recognitionStart, Browser.fresh, Coordinator.setError,
    Coordinator.setVoiceState, Coordinator.setTranscript, when, try_catch,
    bind, gets, upd_hook, upd_am, upd_br, upd_ui, modify, ret.
  cbn. rewrite Ha. cbn. rewrite Hc. cbn. rewrite Hm. cbn.
  split; reflexivity.
Qed.

(** [startListening_begin] and [speak_begin] are the closures of the render
    that shows the current [isInitialized]. *)
Lemma begin_is_current_closure (config : VoiceModeConfig) (text : JSString)
    (w : World) :
  Coordinator.startListening_begin config w
  = Coordinator.startListening_closure config (isInitialized (hook w)) w
  /\ Coordinator.speak_begin text w
     = Coordinator.speak_closure (isInitialized (hook w)) text w.
Proof. split; reflexivity. Qed.

(** The closures of a render that saw [isInitialized = false] return at
    once, whatever the hook holds by now. *)
Lemma stale_closures_return (text : JSString) (w : World) :
  Coordinator.startListening_closure VoiceMode.config false w = (Normal tt, w)
  /\ Coordinator.speak_closure false text w = (Normal None, w).
Proof.
  unfold Coordinator.startListening_closure, Coordinator.speak_closure,
    bind, gets, ret.
  cbn. rewrite !orb_true_r. split; reflexivity.
Qed.

(** The response timer set by the [onTextRecognized] the hook holds: with
    the first render's [voiceEnabled] it takes the branch that speaks, and
    both [speak] and [startListening] return at once.  All it does is
    clear [pendingResponse]. *)
Lemma held_response_only_clears_pending (w : World) :
  VoiceMode.responseTimer false true true w
  = (Normal tt, set_ui (set_pendingResponse false (ui w)) w).
Proof.
  unfold VoiceMode.responseTimer, VoiceMode.speakThen,
    Coordinator.startListening_closure, Coordinator.speak_closure,
    when, bind, gets, ret, upd_ui, modify.
  cbn. rewrite !orb_true_r. reflexivity.
Qed.

(** What the held [onTextRecognized] leaves on a hook with its manager:
    recognition stopped, the state [processing], and the response timer
    with the first render's values. *)
Lemma held_callback_submits (text : JSString) (w : World) :
  audioManagerRef (hook w) = true ->
  let w' := exec (VoiceMode.onTextRecognized_held text) w in
  voiceState (hook w') = processing
  /\ voiceStateRef (hook w') = voiceStateRef (hook w)
  /\ recognition (am w') = None
  /\ pendingResponse (ui w') = true
  /\ timers (br w')
     = timers (br w)
       ++ [mkTimer (nextHandle (br w)) 1000 (ResponseTimer false true true)]
  /\ log w' = log w ++ [ConsoleLog "Text recognized:"; OnSubmit text].
Proof.
  intros Ha. cbv zeta.
  unfold exec, VoiceMode.onTextRecognized_held, VoiceMode.onTextRecognized,
    Coordinator.stopListening, Coordinator.manager_stopListening,
    AudioManagerClass.stopListening, Browser.recognitionStop,
    Browser.setTimeout, Browser.fresh, Coordinator.setVoiceState,
    emit, bind, gets, upd_hook, upd_am, upd_br, upd_ui, modify, ret.
  cbn. rewrite Ha. cbn.
  destruct (recognition (am w)) as [ r | ] eqn:Hr; cbn;
    [ destruct (Browser.mem r (started (br w))
                && negb (Browser.mem r (stopping (br w)))); cbn | ];
    rewrite <- ?app_assoc; repeat apply conj; try reflexivity; exact Hr.
Qed.

(** C8, on the code.  The user has turned voice output off and the
    microphone is on.  The final transcript puts the session in
    [processing] with recognition stopped, and the response timer is the one
    of the first render.  When it fires, the state is still [processing],
    not [idle]; the manager holds no recognizer, none was made or started
    and no request for the microphone is pending: recognition is not
    resumed.  Only [pendingResponse] was cleared. *)
Theorem voice_off_response_leaves_processing_and_recognition_stopped :
  voiceEnabled (ui processingWorld) = false
  /\ micEnabled (ui processingWorld) = true
  /\ isInitialized (hook processingWorld) = true
  /\ voiceState (hook processingWorld) = processing
  /\ recognition (am processingWorld) = None
  /\ timers (br processingWorld)
     = [mkTimer 9 1000 (ResponseTimer false true true)]
  /\ answered = set_ui (set_pendingResponse false (ui processingWorld))
                  (set_br (set_timers [] (br processingWorld)) processingWorld)
  /\ voiceState (hook answered) = processing
  /\ recognition (am answered) = None
  /\ recognizers (br answered) = recognizers (br processingWorld)
  /\ started (br answered) = started (br processingWorld)
  /\ micRequests (br answered) = [].
Proof. repeat apply conj; vm_compute; reflexivity. Qed.

End Response.

(** ** Closing the session *)

Module Cleanup.

Lemma filter_idem {A} (q : A -> bool) (l : list A) :
  filter q (filter q l) = filter q l.
Proof.
  induction l as [ | a l IH ]; cbn; [ reflexivity | ].
  destruct (q a) eqn:Hq; cbn; rewrite ?Hq, IH; reflexivity.
Qed.

Lemma remove_idem (x : positive) (l : list positive) :
  Browser.remove x (Browser.remove x l) = Browser.remove x l.
Proof. apply filter_idem. Qed.

Lemma remove_absent (x : positive) (l : list positive) :
  Browser.mem x l = false -> Browser.remove x l = l.
Proof.
  unfold Browser.mem, Browser.remove.
  induction l as [ | a l IH ]; cbn; [ reflexivity | ].
  intros H. apply orb_false_elim in H. destruct H as [Ha Hl].
  rewrite Ha. cbn. rewrite (IH Hl). reflexivity.
Qed.

Ltac run :=
  unfold exec, Coordinator.unmount, Coordinator.manager_destroy,
    AudioManagerClass.destroy, AudioManagerClass.stopListening,
    AudioManagerClass.stopSpeaking, Browser.recognitionStop,
    Browser.synthesisCancel, Browser.cancelAnimationFrame, Browser.disconnect,
    Browser.closeContext, Browser.stopTracks, Browser.clearTimeout, when, emit,
    bind, gets, upd_am, upd_br, modify, ret.

Ltac cases :=
  repeat match goal with
         | |- context [ if ?c then _ else _ ] => destruct c eqn:?; cbn
         end.

(** The manager after [destroy]: every field but [animationId] is [null]. *)
Lemma destroy_manager (w : World) :
  am (exec AudioManagerClass.destroy w)
  = mkAudioManager None None None None None (animationId (am w)) None.
Proof.
  destruct w as [h [ac an mi re fd ai st] b u l]. run. cbn.
  destruct re, ai, mi, ac, st; cbn; cases; reflexivity.
Qed.

Lemma destroy_returns (w : World) :
  fst (AudioManagerClass.destroy w) = Normal tt.
Proof.
  destruct w as [h [ac an mi re fd ai st] b u l]. run. cbn.
  destruct re, ai, mi, ac, st; cbn; cases; reflexivity.
Qed.

(** A manager whose fields but [animationId] are [null] has nothing left to
    release: [destroy] returns and changes nothing, provided the frame it
    names is not pending and nothing waits to be spoken. *)
Lemma destroy_nothing_left (w : World) :
  am w = mkAudioManager None None None None None (animationId (am w)) None ->
  utterances (br w) = [] ->
  (forall id, animationId (am w) = Some id ->
              Browser.remove id (frames (br w)) = frames (br w)) ->
  AudioManagerClass.destroy w = (Normal tt, w).
Proof.
  destruct w as [h [ac an mi re fd ai st] b u l]. cbn.
  intros Ha Hu Hf. injection Ha as -> -> -> -> -> ->.
  destruct b as [nh ti fr mr rc sd sp ut pr oc cn ls]. cbn in *. subst ut.
  run. cbn. destruct ai as [ id | ]; cbn.
  - rewrite (Hf id eq_refl). reflexivity.
  - reflexivity.
Qed.

(** What [destroy] releases in the browser. *)
Lemma destroy_releases (w : World) :
  let w1 := exec AudioManagerClass.destroy w in
  utterances (br w1) = []
  /\ frames (br w1)
     = match animationId (am w) with
       | Some id => Browser.remove id (frames (br w))
       | None => frames (br w)
       end
  /\ connected (br w1)
     = match microphone (am w) with
       | Some mic => Browser.remove mic (connected (br w))
       | None => connected (br w)
       end
  /\ openContexts (br w1)
     = match audioContext (am w) with
       | Some c => Browser.remove c (openContexts (br w))
       | None => openContexts (br w)
       end
  /\ liveStreams (br w1)
     = match stream (am w) with
       | Some s => Browser.remove s (liveStreams (br w))
       | None => liveStreams (br w)
       end
  /\ hook w1 = hook w /\ ui w1 = ui w /\ timers (br w1) = timers (br w)
  /\ ((forall c, audioContext (am w) = Some c ->
                 Browser.mem c (openContexts (br w)) = true) ->
      log w1 = log w).
Proof.
  destruct w as [h [ac an mi re fd ai st] b u l]. cbv zeta. run. cbn.
  destruct re, ai, mi, ac, st; cbn; cases;
    repeat apply conj; try reflexivity;
    try (intros H; reflexivity);
    try (intros H; specialize (H _ eq_refl); cbn in H; congruence).
  all: symmetry; apply remove_absent; assumption.
Qed.

(** [destroy] a second time, right after the first. *)
Lemma destroy_again (w : World) :
  AudioManagerClass.destroy (exec AudioManagerClass.destroy w)
  = (Normal tt, exec AudioManagerClass.destroy w).
Proof.
  pose proof (destroy_manager w) as Hm.
  pose proof (destroy_releases w) as (Hu & Hf & _).
  apply destroy_nothing_left.
  - rewrite Hm. reflexivity.
  - exact Hu.
  - intros id Hid. rewrite Hm in Hid. cbn in Hid.
    rewrite Hf, Hid. apply remove_idem.
Qed.

Lemma unmount_unfold (w : World) :
  Coordinator.unmount w
  = if audioManagerRef (hook w)
    then (Normal tt,
          exec AudioManagerClass.destroy
            (clearPending (stateChangeTimerRef (hook w)) w))
    else (Normal tt, w).
Proof.
  unfold Coordinator.unmount, Coordinator.manager_destroy, when, bind, gets. cbn.
  destruct (audioManagerRef (hook w)); [ | reflexivity ].
  pose proof (destroy_returns (clearPending (stateChangeTimerRef (hook w)) w)) as Hr.
  unfold exec, clearPending in *.
  destruct (stateChangeTimerRef (hook w)) as [ id | ]; cbn in *.
  - unfold Browser.clearTimeout, upd_br, modify in *. cbn in *.
    destruct (AudioManagerClass.destroy _) as [c w1]. cbn in *. now subst c.
  - destruct (AudioManagerClass.destroy w) as [c w1]. cbn in *. now subst c.
Qed.

Lemma clearPending_fixed (id : positive) (w : World) :
  filter (fun t => negb (Pos.eqb id (timerId t))) (timers (br w)) = timers (br w) ->
  clearPending (Some id) w = w.
Proof.
  destruct w as [h a [nh ti fr mr rc sd sp ut pr oc cn ls] u l]. cbn.
  intros H. unfold exec, Browser.clearTimeout, upd_br, modify. cbn.
  rewrite H. reflexivity.
Qed.

(** The cleanup of the mount effect, a second time. *)
Lemma unmount_again (w : World) :
  Coordinator.unmount (exec Coordinator.unmount w)
  = (Normal tt, exec Coordinator.unmount w).
Proof.
  unfold exec at 1 2. rewrite (unmount_unfold w).
  destruct (audioManagerRef (hook w)) eqn:Ha; cbn [snd].
  - set (w0 := clearPending (stateChangeTimerRef (hook w)) w).
    assert (Hh0 : hook w0 = hook w)
      by (subst w0; destruct (stateChangeTimerRef (hook w)); reflexivity).
    pose proof (destroy_releases w0) as (_ & _ & _ & _ & _ & Hh & _ & Ht & _).
    rewrite unmount_unfold. rewrite Hh, Hh0, Ha.
    assert (Hfix : clearPending (stateChangeTimerRef (hook w))
                     (exec AudioManagerClass.destroy w0)
                   = exec AudioManagerClass.destroy w0).
    { destruct (stateChangeTimerRef (hook w)) as [ id | ] eqn:Hid; [ | reflexivity ].
      apply clearPending_fixed. rewrite Ht. subst w0. cbn.
      apply filter_idem. }
    rewrite Hfix.
    pose proof (destroy_again w0) as Hagain.
    unfold exec at 1. rewrite Hagain. reflexivity.
  - rewrite unmount_unfold, Ha. reflexivity.
Qed.

(** *** The context held is open, all along every session *)

Lemma contextOpen_initial : contextOpen Session.initial.
Proof. exact I. Qed.

(** [createContext] leaves the manager with a context that is open. *)
Lemma createContext_contextOpen :
  preserves contextOpen AudioManagerClass.createContext.
Proof.
  intros w _.
  unfold AudioManagerClass.createContext, Browser.newStream,
    Browser.newAudioContext, Browser.fresh, bind, gets, upd_am, upd_br,
    modify, ret, contextOpen.
  cbn. apply Synthesis.mem_last.
Qed.

(** [destroy] leaves it with none. *)
Lemma destroy_contextOpen :
  preserves contextOpen AudioManagerClass.destroy.
Proof.
  intros w _. change (contextOpen (exec AudioManagerClass.destroy w)).
  unfold contextOpen. rewrite destroy_manager. exact I.
Qed.

Ltac open_leaf :=
  apply Hoare.preserves_modify;
  let w := fresh "w" in
  let H := fresh "H" in
  intros w H;
  first
    [ exact H
    | unfold contextOpen in *; cbn;
      repeat match goal with
             | |- context [ match ?x with _ => _ end ] => destruct x
             end;
      exact H ].

Ltac preserves_open :=
  repeat first
    [ match goal with
      | |- preserves _ AudioManagerClass.createContext =>
          apply createContext_contextOpen
      | |- preserves _ AudioManagerClass.destroy =>
          apply destroy_contextOpen
      | |- preserves _ (Coordinator.handleAudioData _) =>
          unfold Coordinator.handleAudioData, Coordinator.showFrequency
      | |- preserves _ Coordinator.debounceCheck =>
          unfold Coordinator.debounceCheck
      | |- preserves _ Coordinator.unmount =>
          unfold Coordinator.unmount
      | |- preserves _ (Session.timerFires _) =>
          unfold Session.timerFires
      | |- preserves _ (if _ then _ else _) =>
          match goal with
          | |- context [ if ?c then _ else _ ] => destruct c
          end
      end
    | preserves_step
    | progress unfold_handlers
    | progress cbv beta iota
    | open_leaf ].

Lemma handle_contextOpen (config : VoiceModeConfig) (e : Event) :
  preserves contextOpen (Session.handle config e).
Proof.
  destruct e; cbn [Session.handle]; preserves_open.
Qed.

Lemma run_contextOpen (config : VoiceModeConfig) (es : list Event) (w : World) :
  contextOpen w -> contextOpen (Session.run config es w).
Proof.
  revert w. induction es as [ | e es IH ]; intros w H; cbn; [ exact H | ].
  apply IH. apply (handle_contextOpen config e w H).
Qed.

(** Where the context held is open, neither [destroy] nor the cleanup of
    the hook adds an output. *)
Lemma session_logs_nothing (s : World) :
  contextOpen s ->
  log (exec AudioManagerClass.destroy s) = log s
  /\ log (exec Coordinator.unmount s) = log s.
Proof.
  intros Hopen.
  assert (Hd : forall w, contextOpen w ->
                         log (exec AudioManagerClass.destroy w) = log w).
  { intros w Hw.
    pose proof (destroy_releases w) as (_ & _ & _ & _ & _ & _ & _ & _ & Hl).
    apply Hl. intros c Hc. unfold contextOpen in Hw. rewrite Hc in Hw.
    exact Hw. }
  split; [ apply Hd, Hopen | ].
  unfold exec at 1. rewrite unmount_unfold.
  destruct (audioManagerRef (hook s)); [ | reflexivity ].
  cbn [snd]. rewrite Hd.
  - destruct (stateChangeTimerRef (hook s)); reflexivity.
  - destruct (stateChangeTimerRef (hook s)); exact Hopen.
Qed.

(** C9. [destroy] returns normally; called a second time right after, it
    returns normally and leaves the manager, the browser, the hook and the
    outputs exactly as the first call left them: nothing is released twice
    and no error is raised or reported.  The first call empties the
    synthesis queue, cancels the pending analysis frame, disconnects the
    microphone node, closes the audio context and stops the stream, and
    reports nothing when the context it held was open.  The same holds for
    the cleanup of the hook, which clears the debounce timer and calls
    [destroy].  In every state that a session reaches the context held is
    open, so there neither [destroy] nor the cleanup adds an output. *)
Theorem closing_twice_is_closing_once (w : World) :
  let w1 := exec AudioManagerClass.destroy w in
  fst (AudioManagerClass.destroy w) = Normal tt
  /\ AudioManagerClass.destroy w1 = (Normal tt, w1)
  /\ am w1 = mkAudioManager None None None None None (animationId (am w)) None
  /\ utterances (br w1) = []
  /\ (forall id, animationId (am w) = Some id ->
                 Browser.mem id (frames (br w1)) = false)
  /\ (forall s, stream (am w) = Some s ->
                Browser.mem s (liveStreams (br w1)) = false)
  /\ (forall c, audioContext (am w) = Some c ->
                Browser.mem c (openContexts (br w1)) = false)
  /\ ((forall c, audioContext (am w) = Some c ->
                 Browser.mem c (openContexts (br w)) = true) ->
      log w1 = log w)
  /\ Coordinator.unmount (exec Coordinator.unmount w)
     = (Normal tt, exec Coordinator.unmount w)
  /\ (forall (config : VoiceModeConfig) (es : list Event),
        let s := Session.run config es Session.initial in
        log (exec AudioManagerClass.destroy s) = log s
        /\ log (exec Coordinator.unmount s) = log s).
Proof.
  cbv zeta.
  pose proof (destroy_releases w) as (Hu & Hf & _ & Hc & Hs & _ & _ & _ & Hl).
  repeat match goal with |- _ /\ _ => apply conj end.
  - apply destroy_returns.
  - apply destroy_again.
  - apply destroy_manager.
  - exact Hu.
  - intros id Hid. rewrite Hf, Hid. apply Recognition.mem_remove_same.
  - intros s Hst. rewrite Hs, Hst. apply Recognition.mem_remove_same.
  - intros c Hct. rewrite Hc, Hct. apply Recognition.mem_remove_same.
  - exact Hl.
  - apply unmount_again.
  - intros config es.
    pose proof (run_contextOpen config es _ contextOpen_initial) as Hopen.
    apply session_logs_nothing, Hopen.
Qed.

Lemma closing_twice_is_closing_once_witness :
  frames (br armed) = [7%positive]
  /\ frames (br (exec AudioManagerClass.destroy armed)) = []
  /\ log (exec AudioManagerClass.destroy armed)
     = log armed
  /\ exec AudioManagerClass.destroy
       (exec AudioManagerClass.destroy armed)
     = exec AudioManagerClass.destroy armed.
Proof.
  destruct (closing_twice_is_closing_once armed)
    as (_ & Hagain & _ & _ & _ & _ & _ & Hlog & _ & _).
  repeat apply conj.
  - vm_compute; reflexivity.
  - vm_compute; reflexivity.
  - apply Hlog. intros c Hc. vm_compute in Hc. injection Hc as <-.
    vm_compute; reflexivity.
  - unfold exec at 1. rewrite Hagain. reflexivity.
Defined.

End Cleanup.

(** ** Before the manager exists *)

Module Lifecycle.

Ltac mounted_leaf :=
  apply Hoare.preserves_modify;
  let w := fresh "w" in
  let H := fresh "H" in
  intros w H;
  first
    [ exact H
    | unfold mounted in *; cbn;
      repeat match goal with
             | |- context [ match ?x with _ => _ end ] => destruct x
             end;
      first [ exact H | split; [ reflexivity | apply H ] | split; [ apply H | reflexivity ] ] ].

Ltac preserves_mounted :=
  repeat first
    [ match goal with
      | |- preserves _ (Coordinator.handleAudioData _) =>
          unfold Coordinator.handleAudioData, Coordinator.showFrequency
      | |- preserves _ Coordinator.debounceCheck =>
          unfold Coordinator.debounceCheck
      | |- preserves _ Coordinator.unmount =>
          unfold Coordinator.unmount
      | |- preserves _ (Session.timerFires _) =>
          unfold Session.timerFires
      | |- preserves _ (Coordinator.mount _ _) =>
          unfold Coordinator.mount
      | |- preserves _ (if _ then _ else _) =>
          match goal with
          | |- context [ if ?c then _ else _ ] => destruct c
          end
      end
    | preserves_step
    | progress unfold_model
    | progress cbv beta iota
    | mounted_leaf ].

(** Once the manager exists it stays, and so does [isInitialized]: no
    handler, not even the cleanup, resets them. *)
Lemma handle_mounted (config : VoiceModeConfig) (e : Event) :
  preserves mounted (Session.handle config e).
Proof.
  destruct e; cbn [Session.handle]; preserves_mounted.
Qed.

(** While no manager exists no handler reaches the browser or the manager. *)
Lemma step_untouchedBrowser (config : VoiceModeConfig) (e : Event) (w : World) :
  audioManagerRef (hook w) = false ->
  untouchedBrowser w ->
  audioManagerRef (hook (Session.step config w e)) = false ->
  untouchedBrowser (Session.step config w e).
Proof.
  destruct w as [h a b u l]. destruct h as [vs tr ini er amr ps lf vr hi st].
  unfold untouchedBrowser. cbn. intros -> (-> & -> & ->).
  destruct config as [c1 c2 c3 c4 c5].
  destruct e; try destruct supported; try destruct ok; try destruct c3;
    try destruct vs; try destruct ps;
    vm_compute; intros H; try discriminate H;
    repeat apply conj; reflexivity.
Qed.

Lemma run_snoc (config : VoiceModeConfig) (es : list Event) (e : Event)
    (w : World) :
  Session.run config (es ++ [e]) w
  = Session.step config (Session.run config es w) e.
Proof. unfold Session.run. rewrite fold_left_app. reflexivity. Qed.

(** In every session: the manager exists and the hook is initialized, or
    neither is and nothing has reached the browser. *)
Lemma mounted_or_untouched (config : VoiceModeConfig) (es : list Event) :
  let w := Session.run config es Session.initial in
  mounted w \/ (audioManagerRef (hook w) = false /\ untouchedBrowser w).
Proof.
  cbv zeta. induction es as [ | e es IH ] using rev_ind.
  - right. repeat split.
  - rewrite run_snoc.
    destruct IH as [Hm | [Hf Hu]].
    + left. apply (handle_mounted config e _ Hm).
    + destruct (audioManagerRef
                  (hook (Session.step config
                           (Session.run config es Session.initial) e))) eqn:Ha.
      * left.
        set (w := Session.run config es Session.initial) in *.
        clearbody w.
        destruct w as [h a b u l].
        destruct h as [vs tr ini er amr ps lf vr hi st].
        unfold untouchedBrowser in Hu. cbn in Hf, Hu.
        destruct Hu as (Hi & Hma & Hbr). subst amr ini a b.
        destruct config as [c1 c2 c3 c4 c5].
        destruct e; try destruct supported; try destruct ok; try destruct c3;
          try destruct vs; try destruct ps;
          vm_compute in Ha; try discriminate Ha;
          split; vm_compute; reflexivity.
      * right. split; [ reflexivity | ].
        apply step_untouchedBrowser; assumption.
Qed.

(** X1. As long as the hook has no manager -- the mount effect has not run
    or found the Web Speech API missing -- it is not initialized, the
    manager's fields and the browser are untouched, and every call of
    [startListening], [stopListening], [speak], [stopSpeaking] and
    [toggleListening] returns without any effect.  A mount that finds the
    API missing sets the error message, reports to [onError] if the host
    supplied it, and makes no manager. *)
Theorem without_manager_calls_do_nothing
    (config : VoiceModeConfig) (es : list Event) :
  let w := Session.run config es Session.initial in
  audioManagerRef (hook w) = false ->
  isInitialized (hook w) = false
  /\ am w = Session.initialManager
  /\ br w = Session.initialBrowser
  /\ (forall e : Event, isCall e = true -> Session.step config w e = w)
  /\ (let w0 := Session.step config w (Mount false) in
      audioManagerRef (hook w0) = false
      /\ error (hook w0)
         = Some "Web Speech API is not supported in this browser"%string
      /\ log w0
         = log w ++ (if has_onError config
                     then [OnError (mkError "Web Speech API is not supported")]
                     else [])).
Proof.
  cbv zeta. intros Hf.
  destruct (mounted_or_untouched config es) as [[Hm _] | [_ Hu]];
    [ congruence | ].
  destruct Hu as (Hi & Ha & Hb).
  repeat match goal with |- _ /\ _ => apply conj end; try assumption.
  - intros e He.
    set (w := Session.run config es Session.initial) in *. clearbody w.
    destruct w as [h a b u l].
    destruct h as [vs tr ini er amr ps lf vr hi st].
    cbn in *. subst.
    destruct e; try discriminate He; try destruct vs; reflexivity.
  - unfold Session.step, exec, Session.handle, Coordinator.mount,
      Coordinator.setError, Coordinator.config_onError, when, emit, upd_hook,
      bind, modify, ret.
    cbn. destruct (has_onError config); cbn; exact Hf.
  - unfold Session.step, exec, Session.handle, Coordinator.mount,
      Coordinator.setError, Coordinator.config_onError, when, emit, upd_hook,
      bind, modify, ret.
    cbn. destruct (has_onError config); reflexivity.
  - unfold Session.step, exec, Session.handle, Coordinator.mount,
      Coordinator.setError, Coordinator.config_onError, when, emit, upd_hook,
      bind, modify, ret.
    cbn. destruct (has_onError config); cbn; [ reflexivity | ].
    rewrite app_nil_r. reflexivity.
Qed.

Lemma without_manager_calls_do_nothing_witness :
  let w := Session.run VoiceMode.config
             [Mount false; StartListening; Speak hello] Session.initial in
  audioManagerRef (hook w) = false
  /\ br w = Session.initialBrowser
  /\ Session.step VoiceMode.config w StartListening = w.
Proof.
  cbv zeta.
  assert (H : audioManagerRef
                (hook (Session.run VoiceMode.config
                         [Mount false; StartListening; Speak hello]
                         Session.initial)) = false)
    by (vm_compute; reflexivity).
  destruct (without_manager_calls_do_nothing VoiceMode.config
              [Mount false; StartListening; Speak hello] H)
    as (_ & _ & Hb & Hcall & _).
  repeat apply conj.
  - exact H.
  - exact Hb.
  - apply Hcall. reflexivity.
Defined.

End Lifecycle.

(** ** The synthesis queue *)

Module Queue.

Lemma remove_not_longer (x : positive) (l : list positive) :
  List.length (Browser.remove x l) <= List.length l.
Proof.
  unfold Browser.remove. induction l as [ | a l IH ]; cbn; [ lia | ].
  destruct (negb (Pos.eqb x a)); cbn; lia.
Qed.

(** [speak] cancels before it queues: the queue holds the new utterance
    and nothing else. *)
Lemma speak_queue (w : World) :
  utterances (br (exec AudioManagerClass.speak w)) = [nextHandle (br w)]
  /\ fst (AudioManagerClass.speak w) = Normal (nextHandle (br w)).
Proof. split; reflexivity. Qed.

Lemma speak_short : preserves short AudioManagerClass.speak.
Proof.
  intros w _. unfold short.
  change (snd (AudioManagerClass.speak w)) with (exec AudioManagerClass.speak w).
  rewrite (proj1 (speak_queue w)). cbn. lia.
Qed.

Ltac short_leaf :=
  apply Hoare.preserves_modify;
  let w := fresh "w" in
  let H := fresh "H" in
  intros w H;
  first
    [ exact H
    | unfold short in *; cbn;
      repeat match goal with
             | |- context [ match ?x with _ => _ end ] => destruct x
             end;
      first
        [ exact H
        | lia
        | eapply Nat.le_trans; [ apply remove_not_longer | exact H ] ] ].

Ltac preserves_short :=
  repeat first
    [ match goal with
      | |- preserves _ AudioManagerClass.speak => apply speak_short
      | |- preserves _ (Coordinator.handleAudioData _) =>
          unfold Coordinator.handleAudioData, Coordinator.showFrequency
      | |- preserves _ Coordinator.debounceCheck =>
          unfold Coordinator.debounceCheck
      | |- preserves _ Coordinator.unmount =>
          unfold Coordinator.unmount
      | |- preserves _ AudioManagerClass.createContext =>
          unfold AudioManagerClass.createContext
      | |- preserves _ AudioManagerClass.destroy =>
          unfold AudioManagerClass.destroy
      | |- preserves _ (Session.timerFires _) =>
          unfold Session.timerFires
      | |- preserves _ (Coordinator.mount _ _) =>
          unfold Coordinator.mount
      | |- preserves _ (if _ then _ else _) =>
          match goal with
          | |- context [ if ?c then _ else _ ] => destruct c
          end
      end
    | preserves_step
    | progress unfold_handlers
    | progress cbv beta iota
    | short_leaf ].

Lemma handle_short (config : VoiceModeConfig) (e : Event) :
  preserves short (Session.handle config e).
Proof.
  destruct e; cbn [Session.handle]; preserves_short.
Qed.

Lemma run_short (config : VoiceModeConfig) (es : list Event) (w : World) :
  short w -> short (Session.run config es w).
Proof.
  revert w. induction es as [ | e es IH ]; intros w H; cbn; [ exact H | ].
  apply IH. apply (handle_short config e w H).
Qed.

(** X2. [speak] cancels whatever the synthesizer holds before it queues
    the new utterance: in every session the queue holds one utterance at
    most, right after a call of [speak] it holds the new one alone, and
    after [stopSpeaking] it is empty. *)
Theorem never_two_utterances_queued
    (config : VoiceModeConfig) (es : list Event) (text : JSString) :
  let w := Session.run config es Session.initial in
  List.length (utterances (br w)) <= 1
  /\ (audioManagerRef (hook w) = true ->
      utterances (br (Session.step config w (Speak text)))
      = [nextHandle (br w)]
      /\ utterances (br (Session.step config w StopSpeaking)) = []).
Proof.
  cbv zeta.
  set (w := Session.run config es Session.initial).
  assert (Hs : short w) by (apply run_short; unfold short; cbn; lia).
  repeat match goal with |- _ /\ _ => apply conj end.
  - exact Hs.
  - intros Ha.
    destruct (Lifecycle.mounted_or_untouched config es) as [[_ Hi] | [Hf _]];
      fold w in Hi || fold w in Hf; [ | congruence ].
    clearbody w. destruct w as [h a b u l].
    destruct h as [vs tr ini er amr ps lf vr hi st].
    cbn in *. subst. split; reflexivity.
Qed.

Lemma never_two_utterances_queued_witness :
  let w := Session.run VoiceMode.config
             (opening ++ [Speak (JS.of_string "Done.")]) Session.initial in
  audioManagerRef (hook w) = true
  /\ utterances (br (Session.step VoiceMode.config w (Speak hello)))
     = [nextHandle (br w)].
Proof.
  cbv zeta.
  pose proof (never_two_utterances_queued VoiceMode.config
                (opening ++ [Speak (JS.of_string "Done.")]) hello) as T.
  cbv zeta in T. destruct T as (_ & Hq).
  assert (H : audioManagerRef
                (hook (Session.run VoiceMode.config
                         (opening ++ [Speak (JS.of_string "Done.")])
                         Session.initial)) = true)
    by (vm_compute; reflexivity).
  split; [ exact H | exact (proj1 (Hq H)) ].
Defined.

End Queue.

(** ** The recognizers a session makes *)

Module Recognizers.

Section WithConfig.

Variable config : VoiceModeConfig.

Lemma startRecognition_configured :
  preserves (configured config)
    (AudioManagerClass.startRecognition
       (JS.or_else (language config) "en-US")
       (JS.nullish (continuous config) true)).
Proof.
  intros w [Hr Hq].
  unfold AudioManagerClass.startRecognition, Browser.newSpeechRecognition,
    Browser.recognitionStart, Browser.fresh, bind, gets, upd_am, upd_br,
    modify, ret, throw.
  cbn.
  match goal with
  | |- context [ if ?c then _ else _ ] => destruct c
  end; cbn; (split; [ | exact Hq ]); cbn;
    intros x Hin; apply in_app_or in Hin;
    (destruct Hin as [Hin | [ <- | [] ]];
     [ apply Hr, Hin | repeat split ]).
Qed.

Lemma getUserMedia_configured :
  preserves (configured config)
    (Browser.getUserMedia
       (JS.or_else (language config) "en-US")
       (JS.nullish (continuous config) true)).
Proof.
  intros w [Hr Hq].
  unfold Browser.getUserMedia, Browser.fresh, bind, gets, upd_br, modify, ret.
  cbn. split; [ exact Hr | ]. cbn.
  intros q Hin. apply in_app_or in Hin.
  destruct Hin as [Hin | [ <- | [] ]]; [ apply Hq, Hin | split; reflexivity ].
Qed.

End WithConfig.

Ltac configured_leaf :=
  apply Hoare.preserves_modify;
  let w := fresh "w" in
  let H := fresh "H" in
  intros w H;
  first
    [ exact H
    | unfold configured in *; cbn;
      repeat match goal with
             | |- context [ match ?x with _ => _ end ] => destruct x
             end;
      exact H ].

Ltac preserves_configured :=
  repeat first
    [ match goal with
      | |- preserves _ (AudioManagerClass.startRecognition _ _) =>
          apply startRecognition_configured
      | |- preserves _ (Browser.getUserMedia _ _) =>
          apply getUserMedia_configured
      | |- preserves _ (AudioManagerClass.startListening_catch _ _) =>
          unfold AudioManagerClass.startListening_catch
      | |- preserves _ (Coordinator.startListening_catch _) =>
          unfold Coordinator.startListening_catch
      | |- preserves _ (Coordinator.handleAudioData _) =>
          unfold Coordinator.handleAudioData, Coordinator.showFrequency
      | |- preserves _ Coordinator.debounceCheck =>
          unfold Coordinator.debounceCheck
      | |- preserves _ Coordinator.unmount =>
          unfold Coordinator.unmount
      | |- preserves _ AudioManagerClass.createContext =>
          unfold AudioManagerClass.createContext
      | |- preserves _ AudioManagerClass.destroy =>
          unfold AudioManagerClass.destroy
      | |- preserves _ (Session.timerFires _) =>
          unfold Session.timerFires
      | |- preserves _ (Coordinator.mount _ _) =>
          unfold Coordinator.mount
      | |- preserves _ (if _ then _ else _) =>
          match goal with
          | |- context [ if ?c then _ else _ ] => destruct c
          end
      end
    | preserves_step
    | progress unfold_handlers
    | progress cbv beta iota
    | configured_leaf ].

Lemma startListening_resume_configured (config : VoiceModeConfig)
    (r : MicResult) :
  preserves (configured config)
    (Coordinator.startListening_resume config
       (JS.or_else (language config) "en-US")
       (JS.nullish (continuous config) true) r).
Proof.
  preserves_configured.
Qed.

(** The request that settles is one that waited: the call it resumes has
    the configuration's arguments. *)
Lemma micSettles_configured (config : VoiceModeConfig) (id : positive)
    (r : MicResult) :
  preserves (configured config) (Session.micSettles config id r).
Proof.
  intros w H.
  unfold Session.micSettles, bind, gets. cbn.
  destruct (Session.findRequest id (br w)) as [ q | ] eqn:Hf; [ | exact H ].
  apply find_some in Hf. destruct Hf as [Hin _].
  destruct (proj2 H q Hin) as [-> ->].
  unfold upd_br, modify. cbn.
  apply startListening_resume_configured.
  destruct H as [Hr Hq]. split; [ exact Hr | ]. cbn.
  intros q' Hin'. apply filter_In in Hin'. apply Hq, Hin'.
Qed.

Lemma handle_configured (config : VoiceModeConfig) (e : Event) :
  preserves (configured config) (Session.handle config e).
Proof.
  destruct e; cbn [Session.handle];
    try apply micSettles_configured; preserves_configured.
Qed.

Lemma run_configured (config : VoiceModeConfig) (es : list Event) (w : World) :
  configured config w -> configured config (Session.run config es w).
Proof.
  revert w. induction es as [ | e es IH ]; intros w H; cbn; [ exact H | ].
  apply IH. apply (handle_configured config e w H).
Qed.

(** X3. Every recognizer that a session makes listens in
    [config.language], or in [en-US] when the configuration gives none or
    an empty one; it is continuous unless the configuration says
    otherwise; it reports interim results and one alternative.  This holds
    too for the calls that waited for the microphone.  The recognizers of
    [VoiceMode] listen in [en-US] and are not continuous, so when one of
    them ends its [onend] starts nothing: it is not started afterwards. *)
Theorem recognizers_follow_configuration
    (config : VoiceModeConfig) (es : list Event) (x : Recognizer) :
  In x (recognizers (br (Session.run config es Session.initial))) ->
  rec_lang x = match language config with
               | Some l => if String.eqb l "" then "en-US"%string else l
               | None => "en-US"%string
               end
  /\ rec_continuous x = match continuous config with
                        | Some c => c
                        | None => true
                        end
  /\ rec_interimResults x = true
  /\ rec_maxAlternatives x = 1%Z
  /\ (config = VoiceMode.config ->
      let w := Session.run config es Session.initial in
      rec_lang x = "en-US"%string
      /\ rec_continuous x = false
      /\ (forall r : positive,
            Session.findRecognizer r (br w) = Some x ->
            Browser.mem r
              (started (br (Session.step config w (RecognitionEnd r))))
            = false)).
Proof.
  intros Hin.
  assert (H : configured config (Session.run config es Session.initial)).
  { apply run_configured. split; intros y []. }
  destruct (proj1 H x Hin) as (Hl & Hc & Hi & Hm).
  repeat match goal with |- _ /\ _ => apply conj end; try assumption.
  intros ->. cbv zeta.
  repeat match goal with |- _ /\ _ => apply conj end;
    [ exact Hl | exact Hc | ].
  intros r Hf.
  set (w := Session.run VoiceMode.config es Session.initial) in *.
  clearbody w.
  unfold Session.step, exec, Session.handle, Session.recognitionEnd,
    bind, gets.
  cbn. rewrite Hf.
  destruct (Browser.mem r (started (br w))) eqn:Hs; cbn; [ | exact Hs ].
  unfold AudioManagerClass.recognition_onend, bind, gets, upd_br, modify.
  cbn. rewrite Hc.
  destruct (recognition (am w)); cbn; apply Recognition.mem_remove_same.
Qed.

Lemma recognizers_follow_configuration_witness :
  let x := mkRecognizer 8 false true "en-US" 1 in
  In x (recognizers (br (Session.run VoiceMode.config opening Session.initial)))
  /\ rec_lang x = "en-US"%string
  /\ rec_continuous x = false.
Proof.
  cbv zeta.
  assert (Hin : In (mkRecognizer 8 false true "en-US" 1)
                  (recognizers
                     (br (Session.run VoiceMode.config opening
                            Session.initial))))
    by (vm_compute; left; reflexivity).
  pose proof (recognizers_follow_configuration VoiceMode.config opening
                (mkRecognizer 8 false true "en-US" 1) Hin) as T.
  destruct T as (_ & _ & _ & _ & Hv).
  destruct (Hv eq_refl) as (Hl & Hc & _).
  repeat apply conj; [ exact Hin | exact Hl | exact Hc ].
Defined.

End Recognizers.

(** ** Asking for the microphone *)

Module Permission.

Lemma mem_In (x : positive) (l : list positive) :
  Browser.mem x l = true <-> In x l.
Proof.
  unfold Browser.mem. rewrite existsb_exists. split.
  - intros (y & Hin & Heq). apply Pos.eqb_eq in Heq. now subst.
  - intros Hin. exists x. split; [ exact Hin | apply Pos.eqb_refl ].
Qed.

Lemma In_remove (x y : positive) (l : list positive) :
  In y (Browser.remove x l) -> In y l.
Proof. unfold Browser.remove. intros H. apply filter_In in H. apply H. Qed.

Lemma fresh_handlesBelow : preserves handlesBelow Browser.fresh.
Proof.
  intros w [Hs Hr]. unfold Browser.fresh, bind, gets, upd_br, modify, ret.
  cbn. split; cbn; intros r H; [ apply Hs in H | apply Hr in H ]; lia.
Qed.

(** A recognizer just made is not started: [start()] succeeds. *)
Lemma startRecognition_runs (lang : string) (cont : bool) (w : World) :
  handlesBelow w ->
  let r := nextHandle (br w) in
  AudioManagerClass.startRecognition lang cont w
  = (Normal tt,
     set_br (set_started (started (br w) ++ [r])
               (set_recognizers
                  (recognizers (br w) ++ [mkRecognizer r cont true lang 1])
                  (set_nextHandle (Pos.succ r) (br w))))
       (set_am (set_recognition (Some r) (am w)) w)).
Proof.
  intros [Hs Hr]. cbv zeta.
  unfold AudioManagerClass.startRecognition, Browser.newSpeechRecognition,
    Browser.recognitionStart, Browser.fresh, bind, gets, upd_am, upd_br,
    modify, ret, throw.
  cbn.
  destruct (Browser.mem (nextHandle (br w)) (started (br w))) eqn:Hm.
  - apply mem_In, Hs in Hm. lia.
  - reflexivity.
Qed.

Lemma startRecognition_handlesBelow (lang : string) (cont : bool) :
  preserves handlesBelow (AudioManagerClass.startRecognition lang cont).
Proof.
  intros w H. rewrite (startRecognition_runs lang cont w H).
  destruct H as [Hs Hr]. split; cbn.
  - intros r Hin. apply in_app_or in Hin.
    destruct Hin as [Hin | [ <- | [] ]]; [ apply Hs in Hin | ]; lia.
  - intros r [= <-]. lia.
Qed.

Lemma onend_handlesBelow (cont : bool) :
  preserves handlesBelow (AudioManagerClass.recognition_onend cont).
Proof.
  intros w H.
  unfold AudioManagerClass.recognition_onend, Browser.recognitionStart,
    try_catch, bind, gets, upd_br, modify, ret, throw.
  cbn. destruct (recognition (am w)) as [ cur | ] eqn:Hc; [ | exact H ].
  destruct cont; [ | exact H ].
  destruct (Browser.mem cur (started (br w))); cbn; [ exact H | ].
  destruct H as [Hs Hr]. split; cbn; [ | exact Hr ].
  intros r Hin. apply in_app_or in Hin.
  destruct Hin as [Hin | [ <- | [] ]]; [ apply Hs, Hin | apply Hr, Hc ].
Qed.

Ltac below_leaf :=
  apply Hoare.preserves_modify;
  let w := fresh "w" in
  let H := fresh "H" in
  intros w H;
  first
    [ exact H
    | unfold handlesBelow in *; cbn;
      repeat match goal with
             | |- context [ match ?x with _ => _ end ] => destruct x
             end;
      first
        [ exact H
        | split; [ exact (proj1 H) | intros ? [=] ]
        | split;
          [ let r := fresh "r" in
            let Hin := fresh "Hin" in
            intros r Hin; apply In_remove in Hin; apply (proj1 H), Hin
          | exact (proj2 H) ] ] ].

Ltac preserves_below :=
  repeat first
    [ match goal with
      | |- preserves _ Browser.fresh => apply fresh_handlesBelow
      | |- preserves _ (AudioManagerClass.startRecognition _ _) =>
          apply startRecognition_handlesBelow
      | |- preserves _ (AudioManagerClass.recognition_onend _) =>
          apply onend_handlesBelow
      | |- preserves _ (AudioManagerClass.startListening_catch _ _) =>
          unfold AudioManagerClass.startListening_catch
      | |- preserves _ (Coordinator.startListening_catch _) =>
          unfold Coordinator.startListening_catch
      | |- preserves _ (Coordinator.handleAudioData _) =>
          unfold Coordinator.handleAudioData, Coordinator.showFrequency
      | |- preserves _ Coordinator.debounceCheck =>
          unfold Coordinator.debounceCheck
      | |- preserves _ Coordinator.unmount =>
          unfold Coordinator.unmount
      | |- preserves _ AudioManagerClass.createContext =>
          unfold AudioManagerClass.createContext
      | |- preserves _ AudioManagerClass.destroy =>
          unfold AudioManagerClass.destroy
      | |- preserves _ (Session.timerFires _) =>
          unfold Session.timerFires
      | |- preserves _ (Session.recognitionEnd _) =>
          unfold Session.recognitionEnd
      | |- preserves _ (Coordinator.mount _ _) =>
          unfold Coordinator.mount
      | |- preserves _ (if _ then _ else _) =>
          match goal with
          | |- context [ if ?c then _ else _ ] => destruct c
          end
      end
    | preserves_step
    | progress unfold_handlers
    | progress cbv beta iota
    | below_leaf ].

Lemma handle_handlesBelow (config : VoiceModeConfig) (e : Event) :
  preserves handlesBelow (Session.handle config e).
Proof.
  destruct e; cbn [Session.handle]; preserves_below.
Qed.

Lemma run_handlesBelow (config : VoiceModeConfig) (es : list Event) (w : World) :
  handlesBelow w -> handlesBelow (Session.run config es w).
Proof.
  revert w. induction es as [ | e es IH ]; intros w H; cbn; [ exact H | ].
  apply IH. apply (handle_handlesBelow config e w H).
Qed.

Lemma next_not_started (w : World) :
  handlesBelow w -> Browser.mem (nextHandle (br w)) (started (br w)) = false.
Proof.
  intros [Hs _].
  destruct (Browser.mem (nextHandle (br w)) (started (br w))) eqn:Hm;
    [ | reflexivity ].
  apply mem_In, Hs in Hm. lia.
Qed.

Ltac run_startListening :=
  unfold Session.step, exec, Session.handle, Coordinator.startListening_begin,
    Coordinator.startListening_catch, Coordinator.manager_startListening_begin,
    AudioManagerClass.startListening_begin,
    AudioManagerClass.startListening_catch,
    AudioManagerClass.initAudioContext_begin,
    AudioManagerClass.startRecognition, Browser.newSpeechRecognition,
    Browser.recognitionStart, Browser.getUserMedia, Browser.fresh,
    Coordinator.setError, Coordinator.setVoiceState, Coordinator.setTranscript,
    try_catch, bind, gets, upd_hook, upd_am, upd_br, modify, ret, throw.

(** [startListening] on a mounted hook whose manager holds a context. *)
Lemma startListening_with_context (config : VoiceModeConfig) (w : World)
    (c : positive) :
  mounted w -> handlesBelow w -> audioContext (am w) = Some c ->
  let n := nextHandle (br w) in
  let w1 := Session.step config w StartListening in
  micRequests (br w1) = micRequests (br w)
  /\ recognizers (br w1)
     = recognizers (br w)
       ++ [mkRecognizer n (JS.nullish (continuous config) true) true
             (JS.or_else (language config) "en-US") 1]
  /\ started (br w1) = started (br w) ++ [n]
  /\ recognition (am w1) = Some n
  /\ error (hook w1) = None
  /\ voiceState (hook w1) = idle
  /\ log w1 = log w.
Proof.
  intros [Ha Hi] Hb Hc. apply next_not_started in Hb. cbv zeta.
  run_startListening. cbn. rewrite Ha, Hi. cbn. rewrite Hc. cbn.
  rewrite Hb. cbn. repeat apply conj; reflexivity.
Qed.

(** [startListening] on a mounted hook whose manager holds none. *)
Lemma startListening_without_context (config : VoiceModeConfig) (w : World) :
  mounted w -> audioContext (am w) = None ->
  let n := nextHandle (br w) in
  let w1 := Session.step config w StartListening in
  micRequests (br w1)
  = micRequests (br w)
    ++ [mkMicRequest n (JS.or_else (language config) "en-US")
          (JS.nullish (continuous config) true)]
  /\ recognizers (br w1) = recognizers (br w)
  /\ started (br w1) = started (br w)
  /\ am w1 = am w
  /\ error (hook w1) = None
  /\ voiceState (hook w1) = idle
  /\ log w1 = log w.
Proof.
  intros [Ha Hi] Hc. cbv zeta.
  run_startListening. cbn. rewrite Ha, Hi. cbn. rewrite Hc. cbn.
  repeat apply conj; reflexivity.
Qed.

Lemma find_filtered {A} (p : A -> bool) (l : list A) :
  find p (filter (fun x => negb (p x)) l) = None.
Proof.
  induction l as [ | a l IH ]; cbn; [ reflexivity | ].
  destruct (p a) eqn:Hp; cbn; [ exact IH | ].
  rewrite Hp. exact IH.
Qed.

(** A request that is denied: the three [catch] blocks run, the manager
    is left as it was. *)
Lemma denied_leaves_manager (config : VoiceModeConfig) (w : World)
    (id : positive) (q : MicRequest) (err : Error) :
  Session.findRequest id (br w) = Some q ->
  let w2 := Session.step config w (MicSettles id (Denied err)) in
  am w2 = am w
  /\ micRequests (br w2)
     = filter (fun x => negb (Pos.eqb id (reqId x))) (micRequests (br w))
  /\ recognizers (br w2) = recognizers (br w)
  /\ started (br w2) = started (br w)
  /\ frames (br w2) = frames (br w)
  /\ nextHandle (br w2) = nextHandle (br w)
  /\ voiceState (hook w2) = idle
  /\ error (hook w2)
     = Some "Failed to access microphone. Please allow microphone permissions and try again."%string.
Proof.
  intros Hf. cbv zeta.
  unfold Session.step, exec, Session.handle, Session.micSettles, bind, gets.
  cbn. rewrite Hf.
  unfold Coordinator.startListening_resume, Coordinator.startListening_catch,
    Coordinator.manager_startListening_resume,
    AudioManagerClass.startListening_resume,
    AudioManagerClass.startListening_catch,
    AudioManagerClass.initAudioContext_resume, AudioManagerClass.call,
    Coordinator.handleError, Coordinator.config_onError,
    Coordinator.setError, Coordinator.setVoiceState,
    try_catch, when, emit, bind, gets, upd_hook, upd_am, upd_br, modify,
    ret, throw.
  cbn. destruct (has_onError config); cbn; repeat apply conj; reflexivity.
Qed.

(** X4. [startListening] asks for the microphone only while the manager
    holds no audio context.  On a mounted hook whose manager holds one, it
    asks for nothing: it makes a recognizer with the configured properties,
    starts it at once (a new recognizer is never already started) and
    reports no error.  Without a context it files one request and makes no
    recognizer until the request settles.  A request that is denied leaves
    the manager as it was, so the next [startListening] asks again. *)
Theorem microphone_asked_only_without_context
    (config : VoiceModeConfig) (es : list Event) :
  let w := Session.run config es Session.initial in
  let w1 := Session.step config w StartListening in
  let lang := match language config with
              | Some l => if String.eqb l "" then "en-US"%string else l
              | None => "en-US"%string
              end in
  let cont := match continuous config with Some c => c | None => true end in
  audioManagerRef (hook w) = true ->
  (forall c : positive, audioContext (am w) = Some c ->
     micRequests (br w1) = micRequests (br w)
     /\ recognizers (br w1)
        = recognizers (br w)
          ++ [mkRecognizer (nextHandle (br w)) cont true lang 1]
     /\ started (br w1) = started (br w) ++ [nextHandle (br w)]
     /\ recognition (am w1) = Some (nextHandle (br w))
     /\ error (hook w1) = None
     /\ log w1 = log w)
  /\ (audioContext (am w) = None ->
      micRequests (br w1)
      = micRequests (br w) ++ [mkMicRequest (nextHandle (br w)) lang cont]
      /\ recognizers (br w1) = recognizers (br w)
      /\ started (br w1) = started (br w)
      /\ am w1 = am w)
  /\ (forall (id : positive) (q : MicRequest) (err : Error),
        Session.findRequest id (br w) = Some q ->
        let w2 := Session.step config w (MicSettles id (Denied err)) in
        am w2 = am w
        /\ recognizers (br w2) = recognizers (br w)
        /\ started (br w2) = started (br w)
        /\ frames (br w2) = frames (br w)
        /\ Session.findRequest id (br w2) = None
        /\ (audioContext (am w) = None ->
            micRequests (br (Session.step config w2 StartListening))
            = micRequests (br w2) ++ [mkMicRequest (nextHandle (br w)) lang cont])).
Proof.
  cbv zeta. intros Ha.
  set (w := Session.run config es Session.initial) in *.
  assert (Hm : mounted w).
  { destruct (Lifecycle.mounted_or_untouched config es) as [Hm | [Hf _]];
      fold w in Hm || fold w in Hf; [ exact Hm | congruence ]. }
  assert (Hb : handlesBelow w).
  { apply run_handlesBelow. split; [ intros r [] | intros r [=] ]. }
  clearbody w.
  repeat match goal with |- _ /\ _ => apply conj end.
  - intros c Hc.
    destruct (startListening_with_context config w c Hm Hb Hc)
      as (H1 & H2 & H3 & H4 & H5 & _ & H7).
    repeat apply conj; assumption.
  - intros Hc.
    destruct (startListening_without_context config w Hm Hc)
      as (H1 & H2 & H3 & H4 & _).
    repeat apply conj; assumption.
  - intros id q err Hf.
    destruct (denied_leaves_manager config w id q err Hf)
      as (H1 & H2 & H3 & H4 & H5 & H6 & _).
    repeat match goal with |- _ /\ _ => apply conj end; try assumption.
    + unfold Session.findRequest. rewrite H2. apply find_filtered.
    + intros Hc.
      assert (Hm2 : mounted (Session.step config w (MicSettles id (Denied err))))
        by (apply (Lifecycle.handle_mounted config _ w Hm)).
      rewrite <- H1 in Hc.
      destruct (startListening_without_context config _ Hm2 Hc) as (H & _).
      rewrite H, H6. reflexivity.
Qed.

Lemma microphone_asked_only_without_context_witness :
  let w := Session.run VoiceMode.config opening Session.initial in
  audioManagerRef (hook w) = true
  /\ (forall c : positive, audioContext (am w) = Some c ->
      micRequests (br (Session.step VoiceMode.config w StartListening))
      = micRequests (br w)).
Proof.
  cbv zeta.
  assert (H : audioManagerRef
                (hook (Session.run VoiceMode.config opening Session.initial))
              = true)
    by (vm_compute; reflexivity).
  pose proof (microphone_asked_only_without_context VoiceMode.config opening)
    as T.
  cbv zeta in T. destruct (T H) as (Hc & _).
  split; [ exact H | ].
  intros c Hctx. exact (proj1 (Hc c Hctx)).
Defined.

End Permission.

(** ** What moves the state *)

Module Transitions.

Import Coordinator.

Lemma desiredState_range (s : VoiceState) (a : float) :
  desiredState s a = s \/ desiredState s a = idle
  \/ desiredState s a = listening.
Proof.
  unfold desiredState.
  destruct s; cbn;
    repeat match goal with
           | |- context [ if ?c then _ else _ ] => destruct c
           end; auto.
Qed.

Lemma debounceCheck_stateIn (v0 : VoiceState) :
  preserves (stateIn v0 [idle; listening]) debounceCheck.
Proof.
  intros w H.
  unfold debounceCheck, setVoiceState, when, bind, gets, upd_hook, modify, ret.
  cbn.
  match goal with
  | |- context [ if ?c then _ else _ ] => destruct c eqn:Hc
  end; cbn; [ | exact H ].
  apply andb_prop in Hc. destruct Hc as [Hc _].
  apply andb_prop in Hc. destruct Hc as [Hc _].
  right. unfold stateIn. cbn.
  destruct (desiredState_range (voiceStateRef (hook w))
              (averageLevel (audioLevelHistoryRef (hook w))))
    as [He | [He | He]]; rewrite He in *; auto.
  destruct (voiceStateRef (hook w)); discriminate Hc.
Qed.

Ltac stateIn_leaf :=
  apply Hoare.preserves_modify;
  let w := fresh "w" in
  let H := fresh "H" in
  intros w H;
  first
    [ exact H
    | unfold stateIn in *; cbn;
      repeat match goal with
             | |- context [ match ?x with _ => _ end ] => destruct x
             end;
      first [ exact H | right; cbn; auto ] ].

Ltac preserves_stateIn :=
  repeat first
    [ match goal with
      | |- preserves _ debounceCheck => apply debounceCheck_stateIn
      | |- preserves _ (AudioManagerClass.startListening_catch _ _) =>
          unfold AudioManagerClass.startListening_catch
      | |- preserves _ (startListening_catch _) =>
          unfold startListening_catch
      | |- preserves _ (handleAudioData _) =>
          unfold handleAudioData, showFrequency
      | |- preserves _ unmount => unfold unmount
      | |- preserves _ AudioManagerClass.createContext =>
          unfold AudioManagerClass.createContext
      | |- preserves _ AudioManagerClass.destroy =>
          unfold AudioManagerClass.destroy
      | |- preserves _ (Session.timerFires _) =>
          unfold Session.timerFires
      | |- preserves _ (mount _ _) => unfold mount
      | |- preserves _ (if _ then _ else _) =>
          match goal with
          | |- context [ if ?c then _ else _ ] => destruct c
          end
      end
    | preserves_step
    | progress unfold_handlers
    | progress cbv beta iota
    | stateIn_leaf ].

Lemma handle_stateIn (config : VoiceModeConfig) (e : Event) (v0 : VoiceState) :
  preserves (stateIn v0 (targetsOf e)) (Session.handle config e).
Proof.
  destruct e; cbn [Session.handle targetsOf]; preserves_stateIn.
Qed.

(** X5. What can move [voiceState]: [setVoiceState] sets what the host
    asks; [speak] can only make it [speaking]; a timer that fires can only
    make it [idle] or [listening]; [startListening], [stopListening],
    [stopSpeaking], [toggleListening], the settling of a microphone request
    and the end or failure of an utterance can only make it [idle]; the
    mount effect, its cleanup, a render, an animation frame and the
    recognizer's result, error and end events leave it alone.  So the hook
    never enters [processing] by itself, and enters [speaking] only in
    [speak]. *)
Theorem state_moves_only_as_listed
    (config : VoiceModeConfig) (w : World) (e : Event) :
  let w' := Session.step config w e in
  (voiceState (hook w') = voiceState (hook w)
   \/ In (voiceState (hook w')) (targetsOf e))
  /\ (voiceState (hook w') = processing ->
      voiceState (hook w) = processing \/ e = SetVoiceState processing)
  /\ (voiceState (hook w') = speaking ->
      voiceState (hook w) = speaking \/ e = SetVoiceState speaking
      \/ exists text, e = Speak text)
  /\ (voiceState (hook w') = listening ->
      voiceState (hook w) = listening \/ e = SetVoiceState listening
      \/ exists id, e = TimerFires id).
Proof.
  cbv zeta.
  assert (H : stateIn (voiceState (hook w)) (targetsOf e)
                (Session.step config w e))
    by (apply handle_stateIn; left; reflexivity).
  unfold stateIn in H.
  repeat match goal with |- _ /\ _ => apply conj end.
  - exact H.
  - intros Hp. rewrite Hp in H.
    destruct H as [H | H]; [ left; congruence | ].
    destruct e; cbn in H;
      repeat match goal with
             | H : _ \/ _ |- _ => destruct H
             | H : False |- _ => destruct H
             | H : _ = processing |- _ => discriminate H
             end.
    right. congruence.
  - intros Hp. rewrite Hp in H.
    destruct H as [H | H]; [ left; congruence | ].
    destruct e; cbn in H;
      repeat match goal with
             | H : _ \/ _ |- _ => destruct H
             | H : False |- _ => destruct H
             | H : _ = speaking |- _ => discriminate H
             end.
    + right. right. eexists. reflexivity.
    + right. left. congruence.
  - intros Hp. rewrite Hp in H.
    destruct H as [H | H]; [ left; congruence | ].
    destruct e; cbn in H;
      repeat match goal with
             | H : _ \/ _ |- _ => destruct H
             | H : False |- _ => destruct H
             | H : _ = listening |- _ => discriminate H
             end.
    + right. left. congruence.
    + right. right. eexists. reflexivity.
Qed.

End Transitions.

(** ** Stopping *)

Module Stopping.

Ltac run :=
  unfold exec, Coordinator.stopListening, Coordinator.stopSpeaking,
    Coordinator.manager_stopListening, Coordinator.manager_stopSpeaking,
    Coordinator.setVoiceState,
    AudioManagerClass.stopListening, AudioManagerClass.stopSpeaking,
    Browser.recognitionStop, Browser.synthesisCancel,
    bind, gets, upd_hook, upd_am, upd_br, modify, ret.

(** X6. [stopListening] and [stopSpeaking] of the hook never throw and
    report nothing; with a manager they leave the state [idle], the first
    with no recognizer held (the one it held is asked to stop once, if it
    was started), the second with an empty synthesis queue.  Each called
    twice does what one call does, and the two commute: [handleClose] may
    call them in either order. *)
Theorem stopping_twice_or_in_either_order (w : World) :
  let stopL := Coordinator.stopListening in
  let stopS := Coordinator.stopSpeaking in
  fst (stopL w) = Normal tt
  /\ fst (stopS w) = Normal tt
  /\ log (exec stopL w) = log w
  /\ log (exec stopS w) = log w
  /\ (audioManagerRef (hook w) = true ->
      voiceState (hook (exec stopL w)) = idle
      /\ recognition (am (exec stopL w)) = None
      /\ started (br (exec stopL w)) = started (br w)
      /\ (forall r, recognition (am w) = Some r ->
            Browser.mem r (started (br w)) = true ->
            Browser.mem r (stopping (br (exec stopL w))) = true)
      /\ voiceState (hook (exec stopS w)) = idle
      /\ utterances (br (exec stopS w)) = [])
  /\ exec stopL (exec stopL w) = exec stopL w
  /\ exec stopS (exec stopS w) = exec stopS w
  /\ exec stopS (exec stopL w) = exec stopL (exec stopS w).
Proof.
  cbv zeta.
  destruct w as [h a b u l].
  destruct h as [vs tr ini er amr ps lf vr hi st].
  destruct a as [ac an mi re fd ai sm].
  destruct amr, re as [ r | ]; run; cbn;
    try destruct (Browser.mem r (started b)) eqn:Hs;
    try destruct (Browser.mem r (stopping b)) eqn:Hp; cbn;
    repeat match goal with |- _ /\ _ => apply conj end;
    try reflexivity; try discriminate;
    try (intros _; repeat match goal with |- _ /\ _ => apply conj end;
         try reflexivity;
         intros r0 [= <-] Hm;
         first [ apply Synthesis.mem_last
               | exact Hp
               | congruence ]).
Qed.

Lemma stopping_twice_or_in_either_order_witness :
  audioManagerRef (hook armed) = true
  /\ recognition (am (exec Coordinator.stopListening armed)) = None.
Proof.
  assert (H : audioManagerRef (hook armed) = true) by (vm_compute; reflexivity).
  pose proof (stopping_twice_or_in_either_order armed) as T.
  cbv zeta in T.
  destruct T as (_ & _ & _ & _ & Hm & _).
  split; [ exact H | exact (proj1 (proj2 (Hm H))) ].
Defined.

End Stopping.

(** ** The analysis loop *)

Module AnalysisLoop.

Import Coordinator.

(** The audio callback touches neither the manager nor the pending frames;
    it takes a handle only when it sets the debounce timer. *)
Lemma handleAudioData_frames (data : AudioData) (w : World) :
  let w' := exec (handleAudioData data) w in
  fst (handleAudioData data w) = Normal tt
  /\ am w' = am w
  /\ frames (br w') = frames (br w)
  /\ log w' = log w
  /\ (nextHandle (br w') = nextHandle (br w)
      \/ nextHandle (br w') = Pos.succ (nextHandle (br w))).
Proof.
  cbv zeta.
  unfold exec, handleAudioData, Browser.setTimeout, Browser.clearTimeout,
    Browser.fresh, bind, gets, upd_hook, upd_br, modify, ret.
  cbn.
  rewrite !VAD.showFrequency_voiceStateRef, !VAD.showFrequency_history.
  repeat match goal with
         | |- context [ if ?c then _ else _ ] => destruct c; cbn
         | |- context [ match stateChangeTimerRef ?h with _ => _ end ] =>
             destruct (stateChangeTimerRef h); cbn
         end;
    repeat apply conj; auto.
Qed.

Lemma analyze_runs (bins fd : list Z) (an : positive) (w : World) :
  analyser (am w) = Some an -> frequencyData (am w) = Some fd ->
  let fd' := AudioManagerClass.fill fd bins in
  let w1 := set_am (set_frequencyData (Some fd') (am w)) w in
  let w2 := exec (handleAudioData (sampleOf fd')) w1 in
  let n := nextHandle (br w2) in
  analyze bins w
  = (Normal tt,
     set_am (set_animationId (Some n) (am w2))
       (set_br (set_frames (frames (br w2) ++ [n])
                  (set_nextHandle (Pos.succ n) (br w2))) w2)).
Proof.
  intros Ha Hf. cbv zeta.
  pose proof (handleAudioData_frames
                (sampleOf (AudioManagerClass.fill fd bins))
                (set_am (set_frequencyData
                           (Some (AudioManagerClass.fill fd bins)) (am w)) w))
    as (Hr & _).
  unfold analyze, AudioManagerClass.analyze, AudioManagerClass.call,
    Browser.requestAnimationFrame, Browser.fresh,
    bind, gets, upd_am, upd_br, modify, ret.
  cbn. rewrite Ha, Hf. cbn.
  unfold sampleOf, exec in *. cbv zeta in *. cbn in *.
  destruct (handleAudioData _ _) as [c w2]. cbn in Hr. subst c. cbn.
  reflexivity.
Qed.

(** [analyze] without an analyser or without its buffer returns at once. *)
Lemma analyze_stale (bins : list Z) (w : World) :
  analyser (am w) = None \/ frequencyData (am w) = None ->
  analyze bins w = (Normal tt, w).
Proof.
  unfold analyze, AudioManagerClass.analyze, bind, gets. cbn.
  intros [H | H]; rewrite H; [ | destruct (analyser (am w)) ]; reflexivity.
Qed.

Lemma frame_unfold (config : VoiceModeConfig) (id : positive) (bins : list Z)
    (w : World) :
  Session.step config w (AnimationFrame id bins)
  = if Browser.mem id (frames (br w))
    then exec (analyze bins)
           (set_br (set_frames (Browser.remove id (frames (br w))) (br w)) w)
    else w.
Proof.
  unfold Session.step, exec, Session.handle, Session.animationFrame,
    Browser.cancelAnimationFrame, bind, gets, upd_br, modify, ret.
  cbn. destruct (Browser.mem id (frames (br w))); reflexivity.
Qed.

(** *** After [destroy] *)

Lemma analyze_loopStopped (F : list positive) (bins : list Z) :
  preserves (loopStopped F) (analyze bins).
Proof.
  intros w H. rewrite analyze_stale; [ exact H | left; apply H ].
Qed.

Ltac stopped_leaf :=
  apply Hoare.preserves_modify;
  let w := fresh "w" in
  let H := fresh "H" in
  intros w H;
  first
    [ exact H
    | unfold loopStopped in *; cbn;
      repeat match goal with
             | |- context [ match ?x with _ => _ end ] => destruct x
             end;
      first
        [ exact H
        | split; [ reflexivity | exact (proj2 H) ]
        | split; [ exact (proj1 H)
                 | apply Recognition.incl_remove; exact (proj2 H) ] ] ].

Ltac preserves_loopStopped :=
  repeat first
    [ match goal with
      | |- preserves _ (analyze _) => apply analyze_loopStopped
      | |- preserves _ (AudioManagerClass.analyze _ _) =>
          apply analyze_loopStopped
      | |- preserves _ (match Denied _ with _ => _ end) => cbv beta iota
      | |- preserves _ (AudioManagerClass.startListening_catch _ _) =>
          unfold AudioManagerClass.startListening_catch
      | |- preserves _ (Coordinator.startListening_catch _) =>
          unfold Coordinator.startListening_catch
      | |- preserves _ (handleAudioData _) =>
          unfold handleAudioData, showFrequency
      | |- preserves _ debounceCheck => unfold debounceCheck
      | |- preserves _ unmount => unfold unmount
      | |- preserves _ AudioManagerClass.destroy =>
          unfold AudioManagerClass.destroy
      | |- preserves _ (Session.timerFires _) => unfold Session.timerFires
      | |- preserves _ (Session.recognitionEnd _) =>
          unfold Session.recognitionEnd
      | |- preserves _ (mount _ _) => unfold mount
      | |- preserves _ (if _ then _ else _) =>
          match goal with
          | |- context [ if ?c then _ else _ ] => destruct c
          end
      end
    | preserves_step
    | progress unfold_handlers
    | progress cbv beta iota
    | stopped_leaf ].

(** Nothing but a granted request for the microphone gives the manager an
    analyser again or adds a frame. *)
Lemma handle_loopStopped (config : VoiceModeConfig) (F : list positive)
    (e : Event) :
  grants e = false ->
  preserves (loopStopped F) (Session.handle config e).
Proof.
  destruct e as [ | | | | | | | | | | | | id [ bins | err ] | | | | | ];
    cbn [Session.handle grants]; try discriminate; intros _;
    preserves_loopStopped.
Qed.

Lemma run_loopStopped (config : VoiceModeConfig) (F : list positive)
    (es : list Event) (w : World) :
  forallb (fun e => negb (grants e)) es = true ->
  loopStopped F w -> loopStopped F (Session.run config es w).
Proof.
  revert w. induction es as [ | e es IH ]; intros w Hes Hw; cbn in *;
    [ exact Hw | ].
  apply andb_prop in Hes. destruct Hes as [He Hes].
  apply IH; [ exact Hes | ].
  apply (handle_loopStopped config F e); [ | exact Hw ].
  destruct (grants e); [ discriminate | reflexivity ].
Qed.

(** X7. The analysis loop.  A frame callback that runs while the manager
    has its analyser and buffer reads the bytes, hands one sample to the
    audio callback (which pushes it on the window unless the holder
    [voiceStateRef] says [speaking] or [processing]) and requests exactly
    one next frame, whose handle it keeps in [animationId].  Without the
    analyser or the buffer it returns at once and requests nothing.  After
    [destroy], and as long as no request for the microphone is granted, the
    manager has no analyser: whatever else happens, no frame is requested
    and each frame that still fires only leaves the queue. *)
Theorem analysis_loop_rearms_until_destroyed
    (config : VoiceModeConfig) (w : World) (id : positive) (bins : list Z) :
  let w' := Session.step config w (AnimationFrame id bins) in
  (Browser.mem id (frames (br w)) = false -> w' = w)
  /\ (Browser.mem id (frames (br w)) = true ->
      (forall (an : positive) (fd : list Z),
         analyser (am w) = Some an -> frequencyData (am w) = Some fd ->
         let sample := sampleOf (AudioManagerClass.fill fd bins) in
         (exists n : positive,
            frames (br w') = Browser.remove id (frames (br w)) ++ [n]
            /\ animationId (am w') = Some n
            /\ (n = nextHandle (br w) \/ n = Pos.succ (nextHandle (br w))))
         /\ frequencyData (am w') = Some (AudioManagerClass.fill fd bins)
         /\ log w' = log w
         /\ (voiceStateRef (hook w) = idle \/ voiceStateRef (hook w) = listening ->
             audioLevelHistoryRef (hook w')
             = pushSample (audioLevelHistoryRef (hook w))
                 (averageFrequency sample)))
      /\ (analyser (am w) = None \/ frequencyData (am w) = None ->
          frames (br w') = Browser.remove id (frames (br w))
          /\ timers (br w') = timers (br w)
          /\ hook w' = hook w /\ am w' = am w /\ log w' = log w))
  /\ (forall es : list Event,
        forallb (fun e => negb (grants e)) es = true ->
        let w0 := exec AudioManagerClass.destroy w in
        let wd := Session.run config es w0 in
        let w2 := Session.step config wd (AnimationFrame id bins) in
        analyser (am wd) = None
        /\ incl (frames (br wd)) (frames (br w0))
        /\ frames (br w2) = Browser.remove id (frames (br wd))
        /\ timers (br w2) = timers (br wd)
        /\ hook w2 = hook wd /\ am w2 = am wd /\ log w2 = log wd).
Proof.
  cbv zeta.
  assert (Hstale : forall v : World,
            analyser (am v) = None \/ frequencyData (am v) = None ->
            let v' := Session.step config v (AnimationFrame id bins) in
            frames (br v') = Browser.remove id (frames (br v))
            /\ timers (br v') = timers (br v)
            /\ hook v' = hook v /\ am v' = am v /\ log v' = log v).
  { intros v Hv. cbv zeta. rewrite frame_unfold.
    destruct (Browser.mem id (frames (br v))) eqn:Hm.
    - unfold exec. rewrite analyze_stale by exact Hv. cbn.
      repeat apply conj; reflexivity.
    - rewrite Cleanup.remove_absent by exact Hm.
      repeat apply conj; reflexivity. }
  split; [ | split ].
  - intros Hm. rewrite frame_unfold, Hm. reflexivity.
  - intros Hm. split; [ | intros Hv; apply (Hstale w Hv) ].
    intros an fd Ha Hf. cbv zeta. rewrite frame_unfold, Hm.
    set (w0 := set_br (set_frames (Browser.remove id (frames (br w))) (br w)) w).
    unfold exec at 1 2 3 4 5.
    rewrite (analyze_runs bins fd an w0 Ha Hf). cbv zeta. cbn [snd].
    set (w1 := set_am (set_frequencyData
                         (Some (AudioManagerClass.fill fd bins)) (am w0)) w0).
    pose proof (handleAudioData_frames
                  (sampleOf (AudioManagerClass.fill fd bins)) w1)
      as (_ & Hma & Hfr & Hlg & Hn).
    cbv zeta in Hma, Hfr, Hlg, Hn.
    repeat match goal with |- _ /\ _ => apply conj end.
    + eexists. repeat apply conj.
      * cbn. rewrite Hfr. reflexivity.
      * cbn. reflexivity.
      * exact Hn.
    + cbn. rewrite Hma. reflexivity.
    + cbn. rewrite Hlg. reflexivity.
    + intros Hs. cbn.
      apply (VoiceActivity.sample_window w1
               (sampleOf (AudioManagerClass.fill fd bins)) Hs).
  - intros es Hes.
    assert (H0 : loopStopped (frames (br (exec AudioManagerClass.destroy w)))
                   (exec AudioManagerClass.destroy w)).
    { split; [ rewrite Cleanup.destroy_manager; reflexivity | apply incl_refl ]. }
    pose proof (run_loopStopped config _ es _ Hes H0) as [Ha Hi].
    split; [ exact Ha | ].
    split; [ exact Hi | ].
    apply Hstale. left. exact Ha.
Qed.

Lemma analysis_loop_rearms_until_destroyed_witness :
  Browser.mem 7 (frames (br armed)) = true
  /\ analyser (am armed) = Some 4%positive
  /\ frequencyData (am armed) = Some loudBins
  /\ frequencyData
       (am (Session.step VoiceMode.config armed (AnimationFrame 7 silentBins)))
     = Some (AudioManagerClass.fill loudBins silentBins)
  /\ frames
       (br (Session.step VoiceMode.config
              (Session.run VoiceMode.config
                 [StartListening; MicSettles 8 (Denied notAllowed)]
                 (exec AudioManagerClass.destroy armed))
              (AnimationFrame 7 silentBins)))
     = Browser.remove 7
         (frames
            (br (Session.run VoiceMode.config
                   [StartListening; MicSettles 8 (Denied notAllowed)]
                   (exec AudioManagerClass.destroy armed)))).
Proof.
  assert (Hm : Browser.mem 7 (frames (br armed)) = true)
    by (vm_compute; reflexivity).
  assert (Ha : analyser (am armed) = Some 4%positive)
    by (vm_compute; reflexivity).
  assert (Hf : frequencyData (am armed) = Some loudBins)
    by (vm_compute; reflexivity).
  pose proof (analysis_loop_rearms_until_destroyed VoiceMode.config armed 7
                silentBins) as T.
  cbv zeta in T. destruct T as (_ & Hrun & Hafter).
  destruct (Hrun Hm) as (Hgo & _).
  destruct (Hgo 4%positive loudBins Ha Hf) as (_ & Hfd & _).
  destruct (Hafter [StartListening; MicSettles 8 (Denied notAllowed)] eq_refl)
    as (_ & _ & Hfr & _).
  split; [ exact Hm | ].
  split; [ exact Ha | ].
  split; [ exact Hf | ].
  split; [ exact Hfd | ].
  exact Hfr.
Defined.

End AnalysisLoop.

(** ** The particle system *)

Module Particles.

Lemma SFcompare_antisym (x y : spec_float) :
  SFcompare y x = option_map CompOpp (SFcompare x y).
Proof.
  destruct x as [ s | s | | s m e ], y as [ s' | s' | | s' m' e' ]; cbn;
    try reflexivity;
    try (destruct s; reflexivity);
    try (destruct s'; reflexivity);
    try (destruct s, s'; reflexivity).
  destruct s, s'; cbn; try reflexivity;
    rewrite (Z.compare_antisym e e'); destruct (e ?= e')%Z; cbn;
    try reflexivity;
    rewrite (Pos.compare_cont_antisym m m' Eq); cbn;
    destruct (Pos.compare_cont Eq m m'); reflexivity.
Qed.

Lemma SFcompare_refl (x : spec_float) :
  SFcompare x x = match x with S754_nan => None | _ => Some Eq end.
Proof.
  destruct x as [ s | s | | s m e ]; cbn; try reflexivity.
  - destruct s; reflexivity.
  - rewrite Z.compare_refl, Pos.compare_cont_refl. destruct s; reflexivity.
Qed.

Lemma is_nan_spec (x : float) :
  JS.is_nan x = match Prim2SF x with S754_nan => true | _ => false end.
Proof.
  unfold JS.is_nan. rewrite eqb_spec. unfold SFeqb. rewrite SFcompare_refl.
  destruct (Prim2SF x); reflexivity.
Qed.

Lemma ltb_leb (a b : float) : (a <? b)%float = true -> (a <=? b)%float = true.
Proof.
  rewrite ltb_spec, leb_spec. unfold SFltb, SFleb.
  destruct (SFcompare _ _) as [ [ | | ] | ]; congruence.
Qed.

Lemma is_neg_zero_spec (x : float) :
  JS.is_neg_zero x = match Prim2SF x with S754_zero true => true | _ => false end.
Proof.
  unfold JS.is_neg_zero. rewrite classify_spec. unfold SF64classify, SFclassify.
  destruct (Prim2SF x) as [ [ | ] | [ | ] | | [ | ] m e ];
    try match goal with
        | |- context [ Z.eqb ?a ?b ] => destruct (Z.eqb a b)
        end;
    reflexivity.
Qed.

Lemma placedS (x : spec_float) :
  x <> S754_nan ->
  placeS x true false true false false        (* below 0 *)
  \/ placeS x false false true false true     (* -0 *)
  \/ placeS x false false true false false    (* +0 *)
  \/ placeS x false true true false false     (* between *)
  \/ placeS x false true false false false    (* 1 *)
  \/ placeS x false true false true false.    (* above 1 *)
Proof.
  intros Hn. unfold placeS, SFltb, SFleb.
  rewrite (SFcompare_antisym x SF0), (SFcompare_antisym x SF1).
  destruct x as [ [ | ] | [ | ] | | [ | ] m e ]; try congruence.
  - right; left. repeat split.
  - right; right; left. repeat split.
  - left. repeat split; discriminate.
  - do 5 right. repeat split; discriminate.
  - left. repeat split; discriminate.
  - unfold SF0, SF1, SFcompare, option_map.
    destruct (e ?= -52)%Z.
    + destruct (Pos.compare_cont Eq m 4503599627370496).
      * do 4 right; left. repeat split.
      * do 3 right; left. repeat split.
      * do 5 right. repeat split; discriminate.
    + do 3 right; left. repeat split.
    + do 5 right. repeat split; discriminate.
Qed.

Lemma place_of_spec (f : float) (l0 g0 l1 g1 nz : bool) :
  JS.is_nan f = false -> placeS (Prim2SF f) l0 g0 l1 g1 nz ->
  place f l0 g0 l1 g1 nz.
Proof.
  assert (E0 : Prim2SF 0 = SF0) by (vm_compute; reflexivity).
  assert (E1 : Prim2SF 1 = SF1) by (vm_compute; reflexivity).
  intros Hn (H1 & H2 & H3 & H4 & H5 & H6 & H7).
  constructor; rewrite ?ltb_spec, ?leb_spec, ?is_neg_zero_spec, ?E0, ?E1;
    assumption.
Qed.

Lemma placed (f : float) :
  JS.is_nan f = false ->
  place f true false true false false
  \/ place f false false true false true
  \/ place f false false true false false
  \/ place f false true true false false
  \/ place f false true false false false
  \/ place f false true false true false.
Proof.
  intros Hn.
  assert (Hx : Prim2SF f <> S754_nan).
  { rewrite is_nan_spec in Hn. intros E. rewrite E in Hn. discriminate. }
  destruct (placedS (Prim2SF f) Hx) as [P | [P | [P | [P | [P | P]]]]];
    apply (place_of_spec f _ _ _ _ _ Hn) in P; tauto.
Qed.


Lemma clamp_range (f : float) :
  (JS.is_nan f = true -> JS.is_nan (clamp f) = true)
  /\ (JS.is_nan f = false ->
      (0 <=? clamp f)%float = true /\ (clamp f <=? 1)%float = true
      /\ ((f <? 0)%float = true -> clamp f = 0%float)
      /\ ((1 <? f)%float = true -> clamp f = 1%float)
      /\ ((0 <? f)%float = true -> (f <? 1)%float = true -> clamp f = f)).
Proof.
  unfold clamp, JS.Math_max, JS.Math_min.
  split.
  - intros H. rewrite H. reflexivity.
  - intros H.
    destruct (placed f H) as [P | [P | [P | [P | [P | P]]]]];
      destruct P as [Pn P1 P2 P3 P4 P5 P6 P7];
      rewrite ?Pn, ?P1, ?P2, ?P3, ?P4, ?P5; cbn;
      rewrite ?Pn, ?P1, ?P2, ?P3, ?P4, ?P5; cbn;
      repeat apply conj; try reflexivity; try discriminate;
      try (apply P6; reflexivity); try (apply P7; reflexivity); auto.
Qed.

(** X8. [updateFrequency] writes a frequency between 0 and 1: a number
    below 0 becomes 0, a number above 1 becomes 1, a number strictly between
    them is kept as it is, and only NaN gives NaN.  It leaves the state shown
    and the target radius alone.  The audio callback calls it with every
    sample, in every state, also [speaking] and [processing], whenever the
    particle system exists. *)
Theorem updateFrequency_clamps
    (f : float) (p : ParticleSystem) (data : AudioData) (w : World) :
  let r := uFrequency (ParticleSystem.updateFrequency f p) in
  uState (ParticleSystem.updateFrequency f p) = uState p
  /\ targetRadius (ParticleSystem.updateFrequency f p) = targetRadius p
  /\ (JS.is_nan f = true -> JS.is_nan r = true)
  /\ (JS.is_nan f = false ->
      (0 <=? r)%float = true /\ (r <=? 1)%float = true
      /\ ((f <? 0)%float = true -> r = 0%float)
      /\ ((1 <? f)%float = true -> r = 1%float)
      /\ ((0 <? f)%float = true -> (f <? 1)%float = true -> r = f))
  /\ (particleSystemRef (hook w) = Some p ->
      particleSystemRef (hook (exec (Coordinator.handleAudioData data) w))
      = Some (ParticleSystem.updateFrequency (averageFrequency data) p)).
Proof.
  cbv zeta.
  change (uFrequency (ParticleSystem.updateFrequency f p)) with (clamp f).
  destruct (clamp_range f) as [Hnan Hnum].
  repeat match goal with |- _ /\ _ => apply conj end;
    [ reflexivity | reflexivity | exact Hnan | exact Hnum | ].
  intros Hp.
  unfold exec, Coordinator.handleAudioData, Browser.setTimeout,
    Browser.clearTimeout, Browser.fresh, bind, gets, upd_hook, upd_br,
    modify, ret.
  cbn.
  rewrite !VAD.showFrequency_voiceStateRef, !VAD.showFrequency_history.
  assert (Hs : particleSystemRef
                 (Coordinator.showFrequency (averageFrequency data) (hook w))
               = Some (ParticleSystem.updateFrequency (averageFrequency data) p))
    by (unfold Coordinator.showFrequency; rewrite Hp; reflexivity).
  repeat match goal with
         | |- context [ if ?c then _ else _ ] => destruct c; cbn
         | |- context [ match stateChangeTimerRef ?h with _ => _ end ] =>
             destruct (stateChangeTimerRef h); cbn
         end;
    exact Hs.
Qed.

Lemma updateFrequency_clamps_witness :
  let r := uFrequency
             (ParticleSystem.updateFrequency 0.5%float ParticleSystem.create) in
  JS.is_nan 0.5%float = false
  /\ (0 <=? r)%float = true /\ (r <=? 1)%float = true.
Proof.
  cbv zeta.
  assert (H : JS.is_nan 0.5%float = false) by (vm_compute; reflexivity).
  pose proof (updateFrequency_clamps 0.5%float ParticleSystem.create quiet
                Session.initial) as T.
  cbv zeta in T. destruct T as (_ & _ & _ & Hnum & _).
  destruct (Hnum H) as (H0 & H1 & _).
  repeat apply conj; assumption.
Defined.

Lemma showFrequency_shows (f : float) :
  preserves shows (upd_hook (Coordinator.showFrequency f)).
Proof.
  intros w (p & s & Hp & Hu & Hr).
  unfold upd_hook, modify, Coordinator.showFrequency. cbn. rewrite Hp.
  exists (ParticleSystem.updateFrequency f p), s. cbn.
  repeat split; assumption.
Qed.

Lemma effects_shows : preserves shows Coordinator.voiceStateEffects.
Proof.
  intros w (p & s & Hp & _).
  unfold Coordinator.voiceStateEffects, bind, gets, upd_hook, modify. cbn.
  rewrite Hp.
  exists (ParticleSystem.setState (voiceState (hook w)) p), (voiceState (hook w)).
  repeat split; destruct (voiceState (hook w)); reflexivity.
Qed.

Ltac shows_leaf :=
  apply Hoare.preserves_modify;
  let w := fresh "w" in
  let H := fresh "H" in
  intros w H;
  first
    [ exact H
    | unfold shows in *; cbn;
      repeat match goal with
             | |- context [ match ?x with _ => _ end ] => destruct x
             end;
      exact H
    | exists (ParticleSystem.setState idle ParticleSystem.create), idle;
      repeat split ].

Ltac preserves_shows :=
  repeat first
    [ match goal with
      | |- preserves _ (upd_hook (Coordinator.showFrequency _)) =>
          apply showFrequency_shows
      | |- preserves _ Coordinator.voiceStateEffects => apply effects_shows
      | |- preserves _ (upd_hook _) => unfold upd_hook
      | |- preserves _ (AudioManagerClass.startListening_catch _ _) =>
          unfold AudioManagerClass.startListening_catch
      | |- preserves _ (Coordinator.startListening_catch _) =>
          unfold Coordinator.startListening_catch
      | |- preserves _ (Coordinator.handleAudioData _) =>
          unfold Coordinator.handleAudioData
      | |- preserves _ Coordinator.debounceCheck =>
          unfold Coordinator.debounceCheck
      | |- preserves _ Coordinator.unmount => unfold Coordinator.unmount
      | |- preserves _ AudioManagerClass.createContext =>
          unfold AudioManagerClass.createContext
      | |- preserves _ AudioManagerClass.destroy =>
          unfold AudioManagerClass.destroy
      | |- preserves _ (Session.timerFires _) =>
          unfold Session.timerFires
      | |- preserves _ (Coordinator.mount _ _) => unfold Coordinator.mount
      | |- preserves _ (Coordinator.setVoiceState _) =>
          unfold Coordinator.setVoiceState
      | |- preserves _ (Coordinator.setTranscript _) =>
          unfold Coordinator.setTranscript
      | |- preserves _ (Coordinator.setIsInitialized _) =>
          unfold Coordinator.setIsInitialized
      | |- preserves _ (Coordinator.setError _) =>
          unfold Coordinator.setError
      | |- preserves _ (if _ then _ else _) =>
          match goal with
          | |- context [ if ?c then _ else _ ] => destruct c
          end
      end
    | preserves_step
    | progress unfold
        Browser.fresh, Browser.setTimeout, Browser.clearTimeout,
        Browser.requestAnimationFrame, Browser.cancelAnimationFrame,
        Browser.getUserMedia, Browser.newStream, Browser.newAudioContext,
        Browser.connect, Browser.disconnect, Browser.closeContext,
        Browser.stopTracks, Browser.newSpeechRecognition,
        Browser.recognitionStart, Browser.recognitionStop,
        Browser.synthesisCancel, Browser.synthesisSpeak,
        AudioManagerClass.analyze, AudioManagerClass.startAnalyzing,
        AudioManagerClass.initAudioContext_begin,
        AudioManagerClass.initAudioContext_granted,
        AudioManagerClass.connectAnalyser,
        AudioManagerClass.initAudioContext_resume,
        AudioManagerClass.startRecognition,
        AudioManagerClass.startListening_begin,
        AudioManagerClass.startListening_resume,
        AudioManagerClass.recognition_onresult,
        AudioManagerClass.recognition_onerror,
        AudioManagerClass.recognition_onend, AudioManagerClass.stopListening,
        AudioManagerClass.speak, AudioManagerClass.utterance_onerror,
        AudioManagerClass.stopSpeaking,
        Coordinator.config_onTextRecognized,
        Coordinator.config_onSpeechComplete,
        Coordinator.config_onError, Coordinator.handleTranscript,
        Coordinator.handleError, Coordinator.analyze,
        Coordinator.manager_startListening_begin,
        Coordinator.manager_startListening_resume,
        Coordinator.recognition_onresult, Coordinator.recognition_onerror,
        Coordinator.manager_stopListening, Coordinator.manager_speak,
        Coordinator.manager_stopSpeaking, Coordinator.manager_destroy,
        Coordinator.initParticleSystem,
        Coordinator.startListening_begin, Coordinator.startListening_resume,
        Coordinator.stopListening, Coordinator.speak_begin,
        Coordinator.speak_resolved, Coordinator.speak_rejected,
        Coordinator.stopSpeaking, Coordinator.toggleListening,
        Session.animationFrame, Session.micSettles, Session.recognitionResult,
        Session.recognitionError, Session.recognitionEnd, Session.settle,
        Session.utteranceEnd, Session.utteranceError,
        upd_am, upd_br, upd_ui, emit
    | progress cbv beta iota
    | shows_leaf ].

Lemma handle_shows (config : VoiceModeConfig) (e : Event) :
  preserves shows (Session.handle config e).
Proof.
  destruct e; cbn [Session.handle]; preserves_shows.
Qed.

Lemma run_shows (config : VoiceModeConfig) (es : list Event) (w : World) :
  shows w -> shows (Session.run config es w).
Proof.
  revert w. induction es as [ | e es IH ]; intros w H; cbn; [ exact H | ].
  apply IH. apply (handle_shows config e w H).
Qed.

(** X11. The particle system is made once.  [initParticleSystem] on a hook
    without one makes it, showing [idle]; when the constructor throws it
    sets the error message and leaves the hook without one, so that a later
    call tries again.  From then on, through every session, the hook keeps
    a particle system (no handler drops or replaces it), a further
    [initParticleSystem] changes nothing, and the system shows one of the
    four states consistently: shader state and target radius are 0 and 2.2,
    1 and 2.6, 2 and 2.4, or 0 and 2.0.  A render makes it show the state
    rendered. *)
Theorem particle_system_made_once_shows_a_state
    (config : VoiceModeConfig) (w : World) (es : list Event) (ok : bool) :
  particleSystemRef (hook w) = None ->
  let failed := Session.step config w (InitParticleSystem false) in
  let w1 := Session.step config w (InitParticleSystem true) in
  let w2 := Session.run config es w1 in
  particleSystemRef (hook failed) = None
  /\ error (hook failed) = Some "Failed to initialize visualization"%string
  /\ w1 = set_hook (set_particleSystemRef
                      (Some (mkParticles 0 2.2%float 0%float)) (hook w)) w
  /\ Session.step config w2 (InitParticleSystem ok) = w2
  /\ (exists p : ParticleSystem,
        particleSystemRef (hook w2) = Some p
        /\ ((uState p = 0%Z /\ targetRadius p = 2.2%float)
            \/ (uState p = 1%Z /\ targetRadius p = 2.6%float)
            \/ (uState p = 2%Z /\ targetRadius p = 2.4%float)
            \/ (uState p = 0%Z /\ targetRadius p = 2.0%float))
        /\ particleSystemRef (hook (Session.step config w2 Commit))
           = Some (ParticleSystem.setState (voiceState (hook w2)) p)).
Proof.
  intros Hn. cbv zeta.
  assert (H1 : Session.step config w (InitParticleSystem true)
               = set_hook (set_particleSystemRef
                             (Some (mkParticles 0 2.2%float 0%float)) (hook w)) w).
  { unfold Session.step, exec, Session.handle, Coordinator.initParticleSystem,
      bind, gets, upd_hook, modify, ret.
    cbn. rewrite Hn. reflexivity. }
  assert (Hs : shows (Session.run config es
                        (Session.step config w (InitParticleSystem true)))).
  { apply run_shows. rewrite H1.
    exists (mkParticles 0 2.2%float 0%float), idle. repeat split. }
  repeat match goal with |- _ /\ _ => apply conj end.
  - unfold Session.step, exec, Session.handle, Coordinator.initParticleSystem,
      Coordinator.setError, emit, bind, gets, upd_hook, modify, ret.
    cbn. rewrite Hn. cbn. exact Hn.
  - unfold Session.step, exec, Session.handle, Coordinator.initParticleSystem,
      Coordinator.setError, emit, bind, gets, upd_hook, modify, ret.
    cbn. rewrite Hn. reflexivity.
  - exact H1.
  - destruct Hs as (p & s & Hp & _).
    unfold Session.step at 1, exec, Session.handle,
      Coordinator.initParticleSystem, bind, gets.
    cbn. rewrite Hp. reflexivity.
  - destruct Hs as (p & s & Hp & Hu & Hr).
    exists p. repeat match goal with |- _ /\ _ => apply conj end.
    + exact Hp.
    + rewrite Hu, Hr. destruct s; cbn; auto.
    + unfold Session.step at 1, exec, Session.handle,
        Coordinator.voiceStateEffects, bind, gets, upd_hook, modify.
      cbn. rewrite Hp. reflexivity.
Qed.

Lemma particle_system_made_once_shows_a_state_witness :
  let w := Session.run VoiceMode.config [Mount true] Session.initial in
  particleSystemRef (hook w) = None
  /\ Session.step VoiceMode.config w (InitParticleSystem true)
     = set_hook (set_particleSystemRef
                   (Some (mkParticles 0 2.2%float 0%float)) (hook w)) w.
Proof.
  cbv zeta.
  assert (Hn : particleSystemRef
                 (hook (Session.run VoiceMode.config [Mount true]
                          Session.initial)) = None)
    by (vm_compute; reflexivity).
  pose proof (particle_system_made_once_shows_a_state VoiceMode.config _
                [] true Hn) as T.
  cbv zeta in T. destruct T as (_ & _ & H1 & _).
  split; [ exact Hn | exact H1 ].
Defined.

End Particles.

(** ** Results and errors of the recognizer *)

Module Results.

Import Coordinator.

(** X9. A result of the recognizer always replaces the transcript shown.
    When it is not final, or its text is empty or white space only, it
    changes nothing else: nothing is forwarded to the host, nothing is
    retained for the comparison with later results, and the state, the
    manager and the browser stay as they are. *)
Theorem interim_results_only_change_transcript
    (config : VoiceModeConfig) (w : World) (r : positive)
    (res : SpeechRecognitionResult) :
  Browser.mem r (started (br w)) = true ->
  let w' := Session.step config w (RecognitionResult r res) in
  transcript (hook w') = res_transcript res
  /\ (isFinal res = false \/ JS.trim (res_transcript res) = [] ->
      w' = set_hook (set_transcript (res_transcript res) (hook w)) w).
Proof.
  intros Hm. cbv zeta.
  unfold Session.step, exec, Session.handle, Session.recognitionResult,
    recognition_onresult, AudioManagerClass.recognition_onresult,
    AudioManagerClass.call, handleTranscript, setTranscript,
    config_onTextRecognized, when, emit, bind, gets, upd_hook, modify, ret.
  cbn. rewrite Hm. cbn.
  destruct (isFinal res); cbn.
  - destruct (JS.truthy (JS.trim (res_transcript res))) eqn:Ht; cbn.
    + split.
      * destruct (negb (JS.eqb (res_transcript res)
                          (lastFinalTranscriptRef (hook w)))); cbn;
          [ destruct (has_onTextRecognized config) | ]; reflexivity.
      * intros [H | H]; [ discriminate | ]. rewrite H in Ht. discriminate.
    + split; reflexivity.
  - split; reflexivity.
Qed.

Lemma interim_results_only_change_transcript_witness :
  let res := mkResult hello false 0.5%float in
  Browser.mem 8 (started (br armed)) = true
  /\ Session.step VoiceMode.config armed (RecognitionResult 8 res)
     = set_hook (set_transcript hello (hook armed)) armed.
Proof.
  cbv zeta.
  assert (Hm : Browser.mem 8 (started (br armed)) = true)
    by (vm_compute; reflexivity).
  split; [ exact Hm | ].
  pose proof (interim_results_only_change_transcript VoiceMode.config armed 8
                (mkResult hello false 0.5%float) Hm) as T.
  cbv zeta in T. destruct T as (_ & Hi).
  apply Hi. left. reflexivity.
Defined.

End Results.

(** ** Error messages *)

Module Errors.

Import Coordinator.

Ltac errorSet_leaf :=
  apply Hoare.preserves_modify;
  let w := fresh "w" in
  let H := fresh "H" in
  intros w H;
  first
    [ exact H
    | unfold errorSet in *; cbn;
      repeat match goal with
             | |- context [ match ?x with _ => _ end ] => destruct x
             end;
      first [ exact H | discriminate ] ].

Ltac preserves_errorSet :=
  repeat first
    [ match goal with
      | |- preserves _ (AudioManagerClass.startListening_catch _ _) =>
          unfold AudioManagerClass.startListening_catch
      | |- preserves _ (startListening_catch _) =>
          unfold startListening_catch
      | |- preserves _ (handleAudioData _) =>
          unfold handleAudioData, showFrequency
      | |- preserves _ debounceCheck => unfold debounceCheck
      | |- preserves _ unmount => unfold unmount
      | |- preserves _ AudioManagerClass.createContext =>
          unfold AudioManagerClass.createContext
      | |- preserves _ AudioManagerClass.destroy =>
          unfold AudioManagerClass.destroy
      | |- preserves _ (Session.timerFires _) =>
          unfold Session.timerFires
      | |- preserves _ (mount _ _) => unfold mount
      | |- preserves _ (if _ then _ else _) =>
          match goal with
          | |- context [ if ?c then _ else _ ] => destruct c
          end
      end
    | preserves_step
    | progress unfold_handlers
    | progress cbv beta iota
    | errorSet_leaf ].

Lemma handle_errorSet (config : VoiceModeConfig) (e : Event) :
  clearsError e = false ->
  preserves errorSet (Session.handle config e).
Proof.
  destruct e; cbn [Session.handle clearsError]; intros He;
    try discriminate He; preserves_errorSet.
Qed.

Lemma run_errorSet (config : VoiceModeConfig) (es : list Event) (w : World) :
  forallb (fun e => negb (clearsError e)) es = true ->
  errorSet w -> errorSet (Session.run config es w).
Proof.
  revert w. induction es as [ | e es IH ]; intros w Hes H; cbn;
    [ exact H | ].
  cbn in Hes. apply andb_prop in Hes. destruct Hes as [He Hes].
  apply IH; [ exact Hes | ].
  apply (handle_errorSet config e); [ | exact H ].
  now apply negb_true_iff in He.
Qed.

(** X10. An error event of a started recognizer is logged, turned into
    the message [Speech recognition error: <code>], which becomes the error
    shown, and reported once to [onError] if the host supplied it.  The
    handler stops and restarts nothing: the state, the manager and the
    browser are as before.  Once an error message is set it is not cleared
    by anything but [startListening] (called directly or through
    [toggleListening]): after any other events a message is still set. *)
Theorem recognition_error_reported_and_kept
    (config : VoiceModeConfig) (w : World) (r : positive) (code : string)
    (es : list Event) :
  Browser.mem r (started (br w)) = true ->
  let w' := Session.step config w (RecognitionError r code) in
  let msg := ("Speech recognition error: " ++ code)%string in
  error (hook w') = Some msg
  /\ log w'
     = log w ++ [ConsoleError "Speech recognition error:";
                 ConsoleError "Audio manager error:"]
             ++ (if has_onError config then [OnError (mkError msg)] else [])
  /\ voiceState (hook w') = voiceState (hook w)
  /\ am w' = am w /\ br w' = br w
  /\ (forallb (fun e => negb (clearsError e)) es = true ->
      error (hook (Session.run config es w')) <> None).
Proof.
  intros Hm. cbv zeta.
  assert (Hstep :
    Session.step config w (RecognitionError r code)
    = set_log (log w ++ [ConsoleError "Speech recognition error:";
                         ConsoleError "Audio manager error:"]
                     ++ (if has_onError config
                         then [OnError (mkError ("Speech recognition error: " ++ code))]
                         else []))
        (set_hook (set_error (Some ("Speech recognition error: " ++ code)%string)
                     (hook w)) w)).
  { unfold Session.step, exec, Session.handle, Session.recognitionError,
      recognition_onerror, AudioManagerClass.recognition_onerror,
      AudioManagerClass.call, handleError, setError, config_onError,
      when, emit, bind, gets, upd_hook, modify, ret.
    cbn. rewrite Hm. cbn.
    destruct (has_onError config); cbn; rewrite <- ?app_assoc; cbn;
      rewrite ?app_nil_r; reflexivity. }
  rewrite Hstep.
  repeat match goal with |- _ /\ _ => apply conj end; try reflexivity.
  - intros Hes. apply run_errorSet; [ exact Hes | ].
    unfold errorSet. cbn. discriminate.
Qed.

Lemma recognition_error_reported_and_kept_witness :
  let w' := Session.step VoiceMode.config armed
              (RecognitionError 8 "no-speech") in
  Browser.mem 8 (started (br armed)) = true
  /\ error (hook w') = Some "Speech recognition error: no-speech"%string
  /\ br w' = br armed.
Proof.
  cbv zeta.
  assert (Hm : Browser.mem 8 (started (br armed)) = true)
    by (vm_compute; reflexivity).
  pose proof (recognition_error_reported_and_kept VoiceMode.config armed 8
                "no-speech" [] Hm) as T.
  cbv zeta in T. destruct T as (He & _ & _ & _ & Hb & _).
  repeat apply conj; assumption.
Defined.

End Errors.

(** ** What [VoiceMode] renders *)

Module Rendering.

(** X12. What [VoiceMode] shows.  As long as the hook has no manager --
    in particular after a mount that found the Web Speech API missing --
    the component renders the initializing screen, which has neither the
    close button nor the error message.  Otherwise it renders the
    interface, where the footer shows one hint at most, and none exactly
    when the microphone is off while the state is [listening] or when the
    state is [idle] with the microphone on and a response pending.  The
    transcript panel is hidden while an error message is set or when there
    is no text; it shows the transcript if there is one, else the text last
    recognized. *)
Theorem what_voice_mode_renders
    (config : VoiceModeConfig) (es : list Event) :
  let w := Session.run config es Session.initial in
  (audioManagerRef (hook w) = false -> VoiceMode.render w = VoiceMode.Initializing)
  /\ (audioManagerRef (hook w) = true ->
      exists mic voice panel hints,
        VoiceMode.render w = VoiceMode.Interface mic voice panel hints)
  /\ (forall (mic pending : bool) (vs : VoiceState),
        List.length (VoiceMode.footerHints mic vs pending) <= 1
        /\ (VoiceMode.footerHints mic vs pending = []
            <-> (vs = listening /\ mic = false)
                \/ (vs = idle /\ mic = true /\ pending = true)))
  /\ (forall (e : option string) (t r : JSString) (vs : VoiceState),
        (VoiceMode.transcriptPanel e t r vs = None
         <-> VoiceMode.hasError e = true \/ (t = [] /\ r = []))
        /\ (forall label text,
              VoiceMode.transcriptPanel e t r vs = Some (label, text) ->
              text = match t with [] => r | _ :: _ => t end
              /\ (label = "Transcribing..."%string <-> vs = listening))).
Proof.
  cbv zeta.
  repeat match goal with |- _ /\ _ => apply conj end.
  - intros Ha.
    destruct (Lifecycle.mounted_or_untouched config es) as [[Hm _] | [_ Hu]];
      [ congruence | ].
    destruct Hu as (Hi & _). unfold VoiceMode.render. cbv zeta.
    rewrite Hi. reflexivity.
  - intros Ha.
    destruct (Lifecycle.mounted_or_untouched config es) as [[_ Hi] | [Hf _]];
      [ | congruence ].
    unfold VoiceMode.render. cbv zeta. rewrite Hi. cbn.
    do 4 eexists. reflexivity.
  - intros mic pending vs.
    destruct mic, pending, vs; cbn; (split; [ lia | ]);
      (split;
       [ intros H; try discriminate H; auto
       | intros [[H1 H2] | [H1 [H2 H3]]]; try discriminate; reflexivity ]).
  - intros e t r vs. unfold VoiceMode.transcriptPanel.
    destruct (VoiceMode.hasError e); cbn.
    + split.
      * split; [ intros _; left; reflexivity | reflexivity ].
      * intros label text H. discriminate H.
    + destruct t as [ | c t ], r as [ | d r ]; cbn.
      * split; [ split; [ intros _; right; split; reflexivity | reflexivity ] | ].
        intros label text H. discriminate H.
      * split.
        -- split; [ discriminate | intros [H | [_ H]]; discriminate H ].
        -- intros label text [= <- <-]. split; [ reflexivity | ].
           destruct vs; cbn; split; congruence.
      * split.
        -- split; [ discriminate | intros [H | [H _]]; discriminate H ].
        -- intros label text [= <- <-]. split; [ reflexivity | ].
           destruct vs; cbn; split; congruence.
      * split.
        -- split; [ discriminate | intros [H | [H _]]; discriminate H ].
        -- intros label text [= <- <-]. split; [ reflexivity | ].
           destruct vs; cbn; split; congruence.
Qed.

Lemma what_voice_mode_renders_witness :
  let w := Session.run VoiceMode.config [Mount false; StartListening]
             Session.initial in
  audioManagerRef (hook w) = false
  /\ VoiceMode.render w = VoiceMode.Initializing.
Proof.
  cbv zeta.
  assert (H : audioManagerRef
                (hook (Session.run VoiceMode.config
                         [Mount false; StartListening] Session.initial))
              = false)
    by (vm_compute; reflexivity).
  pose proof (what_voice_mode_renders VoiceMode.config
                [Mount false; StartListening]) as T.
  cbv zeta in T. destruct T as (Hi & _).
  split; [ exact H | exact (Hi H) ].
Defined.

End Rendering.

(** ** Choosing an agent *)

Module Choosing.

Import Agent Agent.AgentConfigManager.

Lemma prefix_app (p s : JSString) : prefix p (p ++ s) = true.
Proof.
  induction p as [ | c p IH ]; cbn; [ reflexivity | ].
  rewrite N.eqb_refl. exact IH.
Qed.

Lemma skipn_app_length {A} (p s : list A) : skipn (List.length p) (p ++ s) = s.
Proof. induction p as [ | c p IH ]; cbn; [ reflexivity | exact IH ]. Qed.

Lemma last_some_word (p : JSString) (prev : option N) :
  p <> [] -> forallb isWordChar p = true ->
  wordOpt (last (map Some p) prev) = true.
Proof.
  induction p as [ | c p IH ]; [ congruence | ].
  intros _ H. cbn in H. apply andb_prop in H. destruct H as [Hc Hp].
  destruct p as [ | d p ]; [ exact Hc | ].
  change (last (map Some (c :: d :: p)) prev)
    with (last (map Some (d :: p)) prev).
  apply IH; [ discriminate | exact Hp ].
Qed.

Lemma prefix_split (p s : JSString) :
  prefix p s = true -> s = p ++ skipn (List.length p) s.
Proof.
  revert s. induction p as [ | c p IH ]; intros s H; [ reflexivity | ].
  destruct s as [ | d s ]; [ discriminate | ].
  cbn in H. apply andb_prop in H. destruct H as [Hc Hp].
  apply N.eqb_eq in Hc. subst d. cbn. f_equal. apply IH, Hp.
Qed.

Lemma forallb_app_inv {A} (f : A -> bool) (l l' : list A) :
  forallb f (l ++ l') = true -> forallb f l = true /\ forallb f l' = true.
Proof. rewrite forallb_app. apply andb_prop. Qed.

Lemma eqb_app_nil (p r : JSString) :
  JS.eqb p (p ++ r) = match r with [] => true | _ :: _ => false end.
Proof.
  induction p as [ | c p IH ]; cbn.
  - destruct r; reflexivity.
  - rewrite N.eqb_refl. exact IH.
Qed.

Lemma eqb_prefix (p s : JSString) : JS.eqb p s = true -> prefix p s = true.
Proof.
  revert s. induction p as [ | c p IH ]; intros s H; [ reflexivity | ].
  destruct s as [ | d s ]; [ discriminate | ].
  cbn in *. apply andb_prop in H. destruct H as [Hc Hp].
  rewrite Hc. apply IH, Hp.
Qed.

(** Inside one word the only places where a keyword can start and end are
    its two ends. *)
Lemma altAt_word (s alt : JSString) :
  singleWord s -> alt <> [] ->
  altAt None s alt = JS.eqb alt s.
Proof.
  intros [Hne Hw] Ha. unfold altAt.
  assert (Hb : boundary None (hd_error s) = true).
  { destruct s as [ | c s ]; [ congruence | ].
    cbn in Hw. apply andb_prop in Hw. apply Hw. }
  rewrite Hb. cbn.
  destruct (prefix alt s) eqn:Hp; cbn.
  - pose proof (prefix_split alt s Hp) as Hs.
    remember (skipn (List.length alt) s) as rest eqn:Hr. clear Hr.
    subst s. apply forallb_app_inv in Hw. destruct Hw as [Hwa Hwr].
    rewrite eqb_app_nil.
    unfold boundary. rewrite (last_some_word alt None Ha Hwa).
    destruct rest as [ | d rest ]; [ reflexivity | ].
    cbn in Hwr. apply andb_prop in Hwr. destruct Hwr as [Hd _].
    cbn. rewrite Hd. reflexivity.
  - destruct (JS.eqb alt s) eqn:He; [ | reflexivity ].
    apply eqb_prefix in He. congruence.
Qed.

Lemma altAt_inside (w : N) (s alt : JSString) :
  isWordChar w = true -> forallb isWordChar s = true -> alt <> [] ->
  altAt (Some w) s alt = false.
Proof.
  intros Hw Hs Ha. unfold altAt, boundary. cbn. rewrite Hw.
  destruct s as [ | c s ]; cbn.
  - destruct alt; [ congruence | reflexivity ].
  - cbn in Hs. apply andb_prop in Hs. destruct Hs as [Hc _].
    rewrite Hc. reflexivity.
Qed.

Lemma testFrom_inside (alts : list JSString) (w : N) (s : JSString) :
  Forall (fun alt => alt <> []) alts ->
  isWordChar w = true -> forallb isWordChar s = true ->
  testFrom alts (Some w) s = false.
Proof.
  intros Halts. revert w. induction s as [ | c s IH ]; intros w Hw Hs.
  - cbn. rewrite orb_false_r.
    induction Halts as [ | alt alts Ha _ IHa ]; cbn; [ reflexivity | ].
    rewrite (altAt_inside w [] alt Hw eq_refl Ha). exact IHa.
  - cbn in Hs. pose proof Hs as Hs'. apply andb_prop in Hs'.
    destruct Hs' as [Hc Hs'].
    cbn [testFrom]. rewrite (IH c Hc Hs'). rewrite orb_false_r.
    clear IH.
    induction Halts as [ | alt alts Ha _ IHa ]; cbn; [ reflexivity | ].
    rewrite (altAt_inside w (c :: s) alt Hw Hs Ha). exact IHa.
Qed.

(** On a text that is one word, the expression matches exactly when the
    word is one of the alternatives. *)
Lemma test_word (alts : list string) (s : JSString) :
  Forall (fun alt => JS.of_string alt <> []) alts ->
  singleWord s ->
  test alts s = keywordOf alts s.
Proof.
  intros Halts Hs. unfold test, keywordOf.
  destruct Hs as [Hne Hw]. destruct s as [ | c s ]; [ congruence | ].
  cbn [testFrom].
  pose proof Hw as Hw'. cbn in Hw'. apply andb_prop in Hw'.
  destruct Hw' as [Hc Hs].
  rewrite testFrom_inside; [ | | exact Hc | exact Hs ].
  - rewrite orb_false_r.
    induction Halts as [ | alt alts Ha _ IHa ]; cbn; [ reflexivity | ].
    rewrite (altAt_word (c :: s) (JS.of_string alt) (conj Hne Hw) Ha).
    rewrite IHa. reflexivity.
  - induction Halts as [ | alt alts Ha _ IHa ]; constructor; assumption.
Qed.

Lemma last_map_some (kw : JSString) (prev x : option N) :
  kw <> [] -> last (map Some kw) prev = last (map Some kw) x.
Proof.
  induction kw as [ | c kw IH ]; [ congruence | ].
  intros _. destruct kw as [ | d kw ]; [ reflexivity | ].
  change (last (map Some (c :: d :: kw)) prev)
    with (last (map Some (d :: kw)) prev).
  change (last (map Some (c :: d :: kw)) x)
    with (last (map Some (d :: kw)) x).
  apply IH. discriminate.
Qed.

Lemma testFrom_later (alts : list JSString) (prev : option N)
    (a s : JSString) :
  testFrom alts (last (map Some a) prev) s = true ->
  testFrom alts prev (a ++ s) = true.
Proof.
  revert prev. induction a as [ | c a IH ]; intros prev H; [ exact H | ].
  cbn [app testFrom]. apply orb_true_intro. right.
  apply IH.
  destruct a as [ | d a ]; [ exact H | ].
  rewrite (last_map_some (d :: a) (Some c) prev) by discriminate.
  exact H.
Qed.

(** A keyword that stands apart from the words around it is found. *)
Lemma test_apart (alts : list string) (kw : string) (a b : JSString) :
  In kw alts -> wordEnds (JS.of_string kw) = true -> apart a b ->
  test alts (a ++ JS.of_string kw ++ b) = true.
Proof.
  intros Hin Hk [Ha Hb]. unfold test.
  apply testFrom_later.
  set (k := JS.of_string kw) in *.
  unfold wordEnds in Hk. apply andb_prop in Hk. destruct Hk as [Hh Hl].
  assert (Hne : k <> []) by (destruct k; [ discriminate | discriminate ]).
  destruct k as [ | c k' ] eqn:Hk; [ congruence | ].
  cbn [app testFrom]. apply orb_true_intro. left.
  apply existsb_exists. exists (c :: k'). split.
  - rewrite <- Hk. subst k. apply in_map, Hin.
  - unfold altAt.
    change (hd_error (c :: k' ++ b)) with (Some c).
    change (c :: k' ++ b) with ((c :: k') ++ b).
    rewrite prefix_app.
    rewrite (skipn_app_length (c :: k') b).
    unfold boundary. rewrite Ha, Hb.
    rewrite (last_map_some (c :: k') (last (map Some a) None) None Hne).
    rewrite Hl. cbn in Hh. cbn. rewrite Hh. reflexivity.
Qed.

Lemma keywords_wordEnds (kw : string) :
  In kw (planningKeywords ++ navigationKeywords ++ analysisKeywords
         ++ executionKeywords) ->
  wordEnds (JS.of_string kw) = true.
Proof.
  intros H. cbn in H.
  repeat (destruct H as [ <- | H ]; [ vm_compute; reflexivity | ]).
  destruct H.
Qed.

Lemma keywords_nonempty (alts : list string) :
  incl alts (planningKeywords ++ navigationKeywords ++ analysisKeywords
             ++ executionKeywords) ->
  Forall (fun alt => JS.of_string alt <> []) alts.
Proof.
  intros H. apply Forall_forall. intros kw Hin.
  apply H, keywords_wordEnds in Hin.
  destruct (JS.of_string kw); [ discriminate Hin | discriminate ].
Qed.

(** X13. [determineAgent] answers [visual] exactly when the message has
    images.  Without images, a planning keyword that stands apart from the
    words around it in the lower-case text (nothing, or a character that is
    no letter, digit or underscore, on each side) decides for [planner],
    whatever else the text holds; a navigation keyword decides for
    [navigator] unless a planning keyword matches; an analysis keyword for
    [analyst] unless one of those two kinds matches; an execution keyword
    for [executor] unless one of the three other kinds matches.  A text
    where nothing matches goes to [planner]. *)
Theorem keyword_standing_apart_decides
    (toLowerCase : JSString -> JSString) (m a b : JSString) (kw : string) :
  let lower := toLowerCase m in
  let r := determineAgent toLowerCase m false in
  determineAgent toLowerCase m true = AgentType.visual
  /\ r <> AgentType.visual
  /\ (test planningKeywords lower = false ->
      test navigationKeywords lower = false ->
      test analysisKeywords lower = false ->
      test executionKeywords lower = false -> r = AgentType.planner)
  /\ (lower = a ++ JS.of_string kw ++ b -> apart a b ->
      (In kw planningKeywords -> r = AgentType.planner)
      /\ (In kw navigationKeywords ->
          test planningKeywords lower = false -> r = AgentType.navigator)
      /\ (In kw analysisKeywords ->
          test planningKeywords lower = false ->
          test navigationKeywords lower = false -> r = AgentType.analyst)
      /\ (In kw executionKeywords ->
          test planningKeywords lower = false ->
          test navigationKeywords lower = false ->
          test analysisKeywords lower = false -> r = AgentType.executor)).
Proof.
  cbv zeta. unfold determineAgent.
  repeat match goal with |- _ /\ _ => apply conj end.
  - reflexivity.
  - repeat match goal with
           | |- context [ if ?c then _ else _ ] => destruct c
           end; discriminate.
  - intros -> -> -> ->. reflexivity.
  - intros Hl Hab.
    assert (Hfound : forall alts, In kw alts ->
              incl alts (planningKeywords ++ navigationKeywords
                         ++ analysisKeywords ++ executionKeywords) ->
              test alts (toLowerCase m) = true).
    { intros alts Hin Hsub. rewrite Hl.
      apply test_apart; [ exact Hin | | exact Hab ].
      apply keywords_wordEnds, Hsub, Hin. }
    repeat match goal with |- _ /\ _ => apply conj end.
    + intros Hin. rewrite (Hfound planningKeywords Hin); [ reflexivity | ].
      intros x Hx. apply in_or_app. left. exact Hx.
    + intros Hin ->. rewrite (Hfound navigationKeywords Hin); [ reflexivity | ].
      intros x Hx. apply in_or_app. right. apply in_or_app. left. exact Hx.
    + intros Hin -> ->.
      rewrite (Hfound analysisKeywords Hin); [ reflexivity | ].
      intros x Hx. apply in_or_app. right. apply in_or_app. right.
      apply in_or_app. left. exact Hx.
    + intros Hin -> -> ->.
      rewrite (Hfound executionKeywords Hin); [ reflexivity | ].
      intros x Hx. apply in_or_app. right. apply in_or_app. right.
      apply in_or_app. right. exact Hx.
Qed.

Lemma keyword_standing_apart_decides_witness :
  let m := JS.of_string "please summarize this page" in
  (fun s : JSString => s) m
  = JS.of_string "please " ++ JS.of_string "summarize"
    ++ JS.of_string " this page"
  /\ apart (JS.of_string "please ") (JS.of_string " this page")
  /\ determineAgent (fun s => s) m false = AgentType.analyst.
Proof.
  cbv zeta.
  pose proof (keyword_standing_apart_decides (fun s => s)
                (JS.of_string "please summarize this page")
                (JS.of_string "please ") (JS.of_string " this page")
                "summarize") as T.
  cbv zeta in T. destruct T as (_ & _ & _ & Hk).
  assert (Hl : (fun s : JSString => s)
                 (JS.of_string "please summarize this page")
               = JS.of_string "please " ++ JS.of_string "summarize"
                 ++ JS.of_string " this page") by reflexivity.
  assert (Hab : apart (JS.of_string "please ") (JS.of_string " this page"))
    by (split; vm_compute; reflexivity).
  destruct (Hk Hl Hab) as (_ & _ & Ha & _).
  split; [ exact Hl | split; [ exact Hab | ] ].
  apply Ha.
  - cbn. auto 10.
  - vm_compute. reflexivity.
  - vm_compute. reflexivity.
Defined.

(** X14. The keywords count as whole words only.  For a message whose
    lower-case text is a single word (letters, digits and underscores),
    [determineAgent] answers [navigator], [analyst] or [executor] exactly
    when the word is one of the navigation, analysis or execution keywords,
    and [planner] otherwise: a keyword inside a longer word, as in [tabs],
    [planning] or [typed], is not seen. *)
Theorem single_word_must_be_the_keyword
    (toLowerCase : JSString -> JSString) (m : JSString) :
  singleWord (toLowerCase m) ->
  determineAgent toLowerCase m false = agentOfWord (toLowerCase m).
Proof.
  intros Hw. unfold determineAgent, agentOfWord. cbv zeta.
  rewrite !test_word; try exact Hw; try reflexivity.
  all: apply keywords_nonempty; intros x Hx; apply in_or_app.
  - right. apply in_or_app. right. apply in_or_app. right. exact Hx.
  - right. apply in_or_app. right. apply in_or_app. left. exact Hx.
  - right. apply in_or_app. left. exact Hx.
  - left. exact Hx.
Qed.

Lemma single_word_must_be_the_keyword_witness :
  singleWord ((fun s : JSString => s) (JS.of_string "tabs"))
  /\ determineAgent (fun s => s) (JS.of_string "tabs") false
     = AgentType.planner
  /\ determineAgent (fun s => s) (JS.of_string "tab") false
     = AgentType.navigator.
Proof.
  assert (H1 : singleWord ((fun s : JSString => s) (JS.of_string "tabs")))
    by (split; [ discriminate | vm_compute; reflexivity ]).
  assert (H2 : singleWord ((fun s : JSString => s) (JS.of_string "tab")))
    by (split; [ discriminate | vm_compute; reflexivity ]).
  split; [ | split ].
  - exact H1.
  - rewrite (single_word_must_be_the_keyword (fun s => s)
               (JS.of_string "tabs") H1).
    vm_compute. reflexivity.
  - rewrite (single_word_must_be_the_keyword (fun s => s)
               (JS.of_string "tab") H2).
    vm_compute. reflexivity.
Defined.

End Choosing.

(** ** Stored agent configurations *)

Module Stored.

Import Agent Agent.AgentConfigManager.

Lemma get_spread (t : AgentType.t) (base : AgentConfigs)
    (over : PartialConfigs) :
  get t (spread base over) = JS.nullish (get_opt t over) (get t base).
Proof. destruct t; reflexivity. Qed.

Lemma spread_complete (base c : AgentConfigs) : spread base (complete c) = c.
Proof. destruct c; reflexivity. Qed.

Lemma get_set (t t' : AgentType.t) (x : AgentConfig) (c : AgentConfigs) :
  get t' (set t x c) = if AgentType_eqb t t' then x else get t' c.
Proof. destruct t, t'; reflexivity. Qed.

Lemma getConfigs_answers (t : AgentType.t) (g : GetResult) (env : Env) :
  get t (deref (snd (getConfigs g env)) (fst (getConfigs g env)))
  = answered_for t g env.
Proof.
  destruct g as [ [ stored | ] | e ]; cbn; [ | reflexivity | reflexivity ].
  rewrite get_spread. destruct (get_opt t stored); reflexivity.
Qed.

(** X15. [getConfigs] never throws and always answers all five agents:
    for each, the stored entry if the stored object has one, else the
    default; when nothing is stored or the read fails it answers the
    defaults (and logs the failure).  [updateConfigs] hands to
    [storage.set] the current configurations overlaid with the entries
    given, so agents not mentioned keep what [getConfigs] answers for them;
    a later [getConfigs] that reads this value back answers exactly it,
    whatever the defaults are by then.  When [storage.set] fails the error
    is logged and thrown again. *)
Theorem stored_configs_merge_and_read_back
    (configs : PartialConfigs) (g : GetResult) (env : Env)
    (t : AgentType.t) :
  let got := getConfigs g env in
  let res := updateConfigs configs g SetDone env in
  get t (deref (snd got) (fst got)) = answered_for t g env
  /\ fst (getConfig t g env) = answered_for t g env
  /\ defaults (snd got) = defaults env
  /\ written (snd got) = written env
  /\ console (snd got)
     = console env ++ match g with
                      | GetFailed _ => ["Failed to load agent configs:"%string]
                      | Got _ => []
                      end
  /\ fst res = Normal tt
  /\ defaults (snd res) = defaults env
  /\ (exists updated : AgentConfigs,
        written (snd res) = written env ++ [updated]
        /\ get t updated = match get_opt t configs with
                          | Some c => c
                          | None => answered_for t g env
                          end
        /\ (forall env' : Env,
              fst (getConfigs (Got (Some (complete updated))) env')
              = NewObject updated))
  /\ (forall e : Error,
        let failed := updateConfigs configs g (SetFailed e) env in
        fst failed = Throw e
        /\ console (snd failed)
           = console (snd got) ++ ["Failed to save agent configs:"%string]).
Proof.
  cbv zeta.
  pose proof (getConfigs_answers t g env) as Hans.
  repeat match goal with |- _ /\ _ => apply conj end.
  - exact Hans.
  - unfold getConfig. destruct (getConfigs g env) as [o env1]. exact Hans.
  - destruct g as [ [ stored | ] | e ]; reflexivity.
  - destruct g as [ [ stored | ] | e ]; reflexivity.
  - destruct g as [ [ stored | ] | e ]; cbn; rewrite ?app_nil_r; reflexivity.
  - unfold updateConfigs. destruct (getConfigs g env); reflexivity.
  - unfold updateConfigs.
    destruct g as [ [ stored | ] | e ]; reflexivity.
  - unfold updateConfigs.
    destruct (getConfigs g env) as [o env1] eqn:Hg. cbn in Hans.
    exists (spread (deref env1 o) configs).
    repeat match goal with |- _ /\ _ => apply conj end.
    + cbn. destruct g as [ [ stored | ] | e ]; cbn in Hg;
        injection Hg as <- <-; reflexivity.
    + rewrite get_spread, Hans. destruct (get_opt t configs); reflexivity.
    + intros env'. cbn. rewrite spread_complete. reflexivity.
  - intros e. unfold updateConfigs.
    destruct (getConfigs g env) as [o env1]. split; reflexivity.
Qed.

(** X16. [updateConfig] replaces the entry of one agent by the entry
    [getConfigs] answers overlaid with the fields given, and hands the five
    entries to [storage.set].  When something is stored it works on a new
    object and leaves [DEFAULT_AGENT_CONFIGS] alone.  When nothing is stored,
    or the read fails, the object it changes is [DEFAULT_AGENT_CONFIGS]
    itself: from then on the defaults hold the changed entry, so that
    [getConfigs] without stored data answers it and [resetToDefaults] writes
    it. *)
Theorem updateConfig_without_stored_data_changes_defaults
    (t t' : AgentType.t) (config : PartialConfig) (g : GetResult)
    (s : SetResult) (env : Env) :
  let env' := snd (updateConfig t config g s env) in
  let entry := spreadConfig (answered_for t g env) config in
  (exists v : AgentConfigs,
     written env' = written env ++ [v]
     /\ get t' v = if AgentType_eqb t t' then entry else answered_for t' g env)
  /\ (forall stored : PartialConfigs,
        g = Got (Some stored) -> defaults env' = defaults env)
  /\ (g = Got None \/ (exists e, g = GetFailed e) ->
      get t' (defaults env')
      = (if AgentType_eqb t t' then entry else get t' (defaults env))
      /\ answered_for t (Got None) env' = entry
      /\ written (snd (resetToDefaults SetDone env'))
         = written env' ++ [defaults env']).
Proof.
  cbv zeta.
  repeat match goal with |- _ /\ _ => apply conj end.
  - unfold updateConfig.
    destruct g as [ [ stored | ] | e ]; cbn;
      destruct s; cbn; eexists; (split; [ reflexivity | ]);
      rewrite get_set, ?get_spread;
      destruct (AgentType_eqb t t'); try reflexivity;
      destruct (get_opt t' stored); reflexivity.
  - intros stored ->. unfold updateConfig. cbn. destruct s; reflexivity.
  - intros [-> | [e ->]]; unfold updateConfig; cbn;
      destruct s; cbn; rewrite !get_set;
      (replace (AgentType_eqb t t) with true by (destruct t; reflexivity));
      repeat split.
Qed.

Lemma updateConfig_without_stored_data_changes_defaults_witness :
  let config := mkPartialConfig None None None (Some 0.9%float) None None in
  let env' := snd (updateConfig AgentType.planner config (Got None) SetDone
                     initialEnv) in
  temperature (planner DEFAULT_AGENT_CONFIGS) = 0.7%float
  /\ temperature (planner (defaults env')) = 0.9%float.
Proof.
  cbv zeta.
  pose proof (updateConfig_without_stored_data_changes_defaults
                AgentType.planner AgentType.planner
                (mkPartialConfig None None None (Some 0.9%float) None None)
                (Got None) SetDone initialEnv) as T.
  cbv zeta in T. destruct T as (_ & _ & Hd).
  destruct (Hd (or_introl eq_refl)) as (Hg & _).
  split; [ reflexivity | ].
  change (planner (defaults
            (snd (updateConfig AgentType.planner
                    (mkPartialConfig None None None (Some 0.9%float) None None)
                    (Got None) SetDone initialEnv))))
    with (get AgentType.planner
            (defaults
               (snd (updateConfig AgentType.planner
                       (mkPartialConfig None None None (Some 0.9%float) None None)
                       (Got None) SetDone initialEnv)))).
  rewrite Hg. reflexivity.
Defined.

End Stored.

(** ** When the debounce timer fires *)

Module Confirming.

Import Coordinator.

(** X17. When the debounce timer fires, the handler looks again at the
    window as it is then: with the holder at [idle] and an average above
    0.10 the state becomes [listening]; with the holder at [listening] and
    an average below 0.03 it becomes [idle]; in every other case it stays.
    Either way the timer is gone, [stateChangeTimerRef] is cleared so that a
    later sample can set a new timer, and the holder, the window and the
    outputs are as before: the holder follows only at the next render. *)
Theorem debounce_timer_confirms_with_current_window
    (config : VoiceModeConfig) (w : World) (id : positive) (t : Timer) :
  Session.findTimer id (br w) = Some t ->
  timerCallback t = DebounceCheck ->
  let w' := Session.step config w (TimerFires id) in
  let avg := averageLevel (audioLevelHistoryRef (hook w)) in
  voiceState (hook w')
  = match voiceStateRef (hook w) with
    | idle => if (0.10 <? avg)%float then listening else voiceState (hook w)
    | listening => if (avg <? 0.03)%float then idle else voiceState (hook w)
    | _ => voiceState (hook w)
    end
  /\ stateChangeTimerRef (hook w') = None
  /\ Session.findTimer id (br w') = None
  /\ voiceStateRef (hook w') = voiceStateRef (hook w)
  /\ audioLevelHistoryRef (hook w') = audioLevelHistoryRef (hook w)
  /\ am w' = am w
  /\ log w' = log w
  /\ voiceStateRef (hook (Session.step config w' Commit))
     = voiceState (hook w').
Proof.
  intros Hf Hc. cbv zeta.
  unfold Session.step, exec, Session.handle, Session.timerFires,
    Browser.clearTimeout, voiceStateEffects, bind, gets, upd_br, upd_hook,
    modify.
  cbn. rewrite Hf. cbn. rewrite Hc.
  unfold debounceCheck, setVoiceState, desiredState, ENTER_THRESHOLD,
    EXIT_THRESHOLD, when, bind, gets, upd_hook, modify, ret.
  cbn.
  assert (Hnone : Session.findTimer id
                    (set_timers
                       (filter (fun t0 => negb (Pos.eqb id (timerId t0)))
                          (timers (br w))) (br w)) = None)
    by (unfold Session.findTimer; cbn;
        apply (Permission.find_filtered (fun t0 => Pos.eqb id (timerId t0)))).
  destruct (voiceStateRef (hook w)) eqn:Hr; cbn;
    repeat match goal with
           | |- context [ PrimFloat.ltb ?a ?b ] =>
               destruct (PrimFloat.ltb a b); cbn
           end;
    repeat match goal with |- _ /\ _ => apply conj end;
    try reflexivity; try exact Hnone; try exact Hr;
    destruct (particleSystemRef (hook w)); reflexivity.
Qed.

Lemma debounce_timer_confirms_with_current_window_witness :
  let t := mkTimer 6 300 DebounceCheck in
  Session.findTimer 6 (br armed) = Some t
  /\ voiceState (hook (Session.step VoiceMode.config armed (TimerFires 6)))
     = listening.
Proof.
  cbv zeta.
  assert (Hf : Session.findTimer 6 (br armed)
               = Some (mkTimer 6 300 DebounceCheck))
    by (vm_compute; reflexivity).
  pose proof (debounce_timer_confirms_with_current_window VoiceMode.config
                armed 6 (mkTimer 6 300 DebounceCheck) Hf eq_refl) as T.
  cbv zeta in T. destruct T as (Hv & _).
  split; [ exact Hf | ].
  rewrite Hv. vm_compute. reflexivity.
Defined.

End Confirming.

(** ** When an utterance ends *)

Module Speaking.

Import Coordinator.





End Speaking.

(** ** Closing voice mode *)

Module Closing.

(** X19. [handleClose] stops the recognizer and the speech, leaves the
    state [idle] and then tells the host once through [onClose].  It
    releases nothing of the capture: the manager keeps its stream, its audio
    context and its analyser, the stream stays live, the context open and
    the pending analysis frame pending.  They are released when the hook
    unmounts. *)
Theorem closing_stops_but_keeps_the_microphone (w : World) :
  audioManagerRef (hook w) = true ->
  let w' := exec VoiceMode.handleClose w in
  fst (VoiceMode.handleClose w) = Normal tt
  /\ log w' = log w ++ [OnClose]
  /\ voiceState (hook w') = idle
  /\ recognition (am w') = None
  /\ utterances (br w') = []
  /\ stream (am w') = stream (am w)
  /\ audioContext (am w') = audioContext (am w)
  /\ analyser (am w') = analyser (am w)
  /\ animationId (am w') = animationId (am w)
  /\ liveStreams (br w') = liveStreams (br w)
  /\ openContexts (br w') = openContexts (br w)
  /\ frames (br w') = frames (br w)
  /\ (forall s : positive, stream (am w) = Some s ->
        Browser.mem s (liveStreams (br (exec Coordinator.unmount w'))) = false).
Proof.
  intros Ha. cbv zeta.
  assert (Hclose :
    VoiceMode.handleClose w
    = (Normal tt,
       set_log (log w ++ [OnClose])
         (exec Coordinator.stopSpeaking (exec Coordinator.stopListening w)))).
  { destruct w as [h a b u l].
    destruct h as [vs tr ini er amr ps lf vr hi st].
    destruct a as [ac an mi re fd ai sm].
    cbn in Ha. subst amr.
    unfold VoiceMode.handleClose. Stopping.run. unfold emit, modify. cbn.
    destruct re as [ r | ]; cbn;
      try destruct (Browser.mem r (started b) && negb (Browser.mem r (stopping b)));
      reflexivity. }
  change (exec VoiceMode.handleClose w) with (snd (VoiceMode.handleClose w)).
  rewrite Hclose. cbn [fst snd].
  destruct w as [h a b u l].
  destruct h as [vs tr ini er amr ps lf vr hi st].
  destruct a as [ac an mi re fd ai sm].
  cbn in Ha. subst amr.
  repeat match goal with |- _ /\ _ => apply conj end;
    try (Stopping.run; cbn;
         destruct re as [ r | ]; cbn;
         try destruct (Browser.mem r (started b)
                       && negb (Browser.mem r (stopping b)));
         reflexivity).
  intros s Hs. cbn in Hs. subst sm.
  match goal with
  | |- Browser.mem s (liveStreams (br (exec Coordinator.unmount ?v))) = false =>
      unfold exec at 1; rewrite (Cleanup.unmount_unfold v);
      assert (Hv : audioManagerRef (hook v) = true
                   /\ stream (am (clearPending (stateChangeTimerRef (hook v)) v))
                      = Some s)
  end.
  { Stopping.run. cbn.
    destruct re as [ r | ]; cbn;
      try destruct (Browser.mem r (started b)
                    && negb (Browser.mem r (stopping b)));
      cbn; split; try reflexivity; destruct st; reflexivity. }
  destruct Hv as [Hv1 Hv2]. rewrite Hv1. cbn [snd].
  match goal with
  | |- Browser.mem s (liveStreams (br (exec AudioManagerClass.destroy ?v))) = false =>
      pose proof (Cleanup.destroy_releases v) as (_ & _ & _ & _ & Hls & _)
  end.
  cbv zeta in Hls. rewrite Hls, Hv2. apply Recognition.mem_remove_same.
Qed.

Lemma closing_stops_but_keeps_the_microphone_witness :
  audioManagerRef (hook armed) = true
  /\ liveStreams (br (exec VoiceMode.handleClose armed))
     = liveStreams (br armed)
  /\ log (exec VoiceMode.handleClose armed) = log armed ++ [OnClose].
Proof.
  assert (Ha : audioManagerRef (hook armed) = true)
    by (vm_compute; reflexivity).
  pose proof (closing_stops_but_keeps_the_microphone armed Ha) as T.
  cbv zeta in T.
  destruct T as (_ & Hl & _ & _ & _ & _ & _ & _ & _ & Hs & _).
  repeat apply conj; assumption.
Defined.

End Closing.

(** ** Two requests for the microphone *)

Module Concurrent.

Lemma bind_total {A B} (m : M A) (k : A -> M B) (w w' : World) (a : A) :
  m w = (Normal a, w') -> bind m k w = k a w'.
Proof. unfold bind. intros ->. reflexivity. Qed.

Lemma bind_cong {A B} (m m' : M A) (k : A -> M B) (w w' : World) :
  m w = m' w' -> bind m k w = bind m' k w'.
Proof. unfold bind. intros ->. reflexivity. Qed.

Lemma try_catch_cong {A} (m m' : M A) (h : Error -> M A) (w w' : World) :
  m w = m' w' -> try_catch m h w = try_catch m' h w'.
Proof. unfold try_catch. intros ->. reflexivity. Qed.

Lemma find_present {A} (p : A -> bool) (x : A) (l : list A) :
  In x l -> p x = true -> exists y, find p l = Some y.
Proof.
  intros Hin Hp. destruct (find p l) as [ y | ] eqn:Hf; [ exists y; reflexivity | ].
  apply (find_none p l Hf) in Hin. congruence.
Qed.

(** [createContext] does not throw; the stream and the context it makes
    take the next two handles and replace what the manager held. *)
Lemma createContext_runs (w : World) :
  mounted w ->
  let n := nextHandle (br w) in
  let w0 := exec AudioManagerClass.createContext w in
  AudioManagerClass.createContext w = (Normal tt, w0)
  /\ capturing (liveStreams (br w) ++ [n]) (openContexts (br w) ++ [Pos.succ n])
       (micRequests (br w)) n (Pos.succ n) w0.
Proof.
  intros Hm. cbv zeta.
  unfold capturing, exec, AudioManagerClass.createContext, Browser.newStream,
    Browser.newAudioContext, Browser.fresh, bind, gets, upd_am, upd_br,
    modify, ret.
  cbn. repeat apply conj; try reflexivity; try apply Hm. lia.
Qed.

Lemma createContext_returns (w : World) :
  AudioManagerClass.createContext w
  = (Normal tt, exec AudioManagerClass.createContext w).
Proof. reflexivity. Qed.

(** A granted request, from the point where the context exists. *)
Lemma granted_resumes (config : VoiceModeConfig) (lang : string) (cont : bool)
    (bins : list Z) (w : World) :
  Coordinator.startListening_resume config lang cont (Granted bins) w
  = Coordinator.startListening_catch
      (AudioManagerClass.startListening_catch
         (Some (Coordinator.handleError config))
         (try_catch
            (AudioManagerClass.connectAnalyser
               (Some Coordinator.handleAudioData) bins)
            (fun error =>
               emit (ConsoleError "Failed to initialize audio context:");;
               AudioManagerClass.call (Some (Coordinator.handleError config))
                 (mkError "Microphone access denied");;
               throw error);;
          AudioManagerClass.startRecognition lang cont))
      (exec AudioManagerClass.createContext w).
Proof.
  unfold Coordinator.startListening_resume,
    Coordinator.manager_startListening_resume,
    AudioManagerClass.startListening_resume,
    AudioManagerClass.initAudioContext_resume,
    AudioManagerClass.initAudioContext_granted,
    Coordinator.startListening_catch,
    AudioManagerClass.startListening_catch.
  apply try_catch_cong, try_catch_cong, bind_cong, try_catch_cong.
  apply (bind_total AudioManagerClass.createContext
           (fun _ => AudioManagerClass.connectAnalyser
                       (Some Coordinator.handleAudioData) bins) w _ tt).
  apply createContext_returns.
Qed.

Lemma fresh_capturing (L C : list positive) (R : list MicRequest)
    (s c : positive) :
  preserves (capturing L C R s c) Browser.fresh.
Proof.
  intros w (H1 & H2 & H3 & H4 & H5 & H6 & H7).
  unfold capturing, Browser.fresh, bind, gets, upd_br, modify, ret. cbn.
  repeat apply conj; try assumption; try apply H7. lia.
Qed.

Ltac capturing_leaf :=
  apply Hoare.preserves_modify;
  let w := fresh "w" in
  let H := fresh "H" in
  intros w H;
  first
    [ exact H
    | unfold capturing, mounted in *; cbn;
      repeat match goal with
             | |- context [ match ?x with _ => _ end ] => destruct x
             end;
      exact H ].

Ltac preserves_capturing :=
  repeat first
    [ match goal with
      | |- preserves _ Browser.fresh => apply fresh_capturing
      | |- preserves _ (AudioManagerClass.startListening_catch _ _) =>
          unfold AudioManagerClass.startListening_catch
      | |- preserves _ (Coordinator.startListening_catch _) =>
          unfold Coordinator.startListening_catch
      | |- preserves _ (Coordinator.handleAudioData _) =>
          unfold Coordinator.handleAudioData, Coordinator.showFrequency
      | |- preserves _ (if _ then _ else _) =>
          match goal with
          | |- context [ if ?c then _ else _ ] => destruct c
          end
      end
    | preserves_step
    | progress unfold_handlers
    | progress cbv beta iota
    | capturing_leaf ].

(** A request that is granted: whatever the manager holds, a stream and a
    context are made and kept in place of those it held. *)
Lemma granted_adds (config : VoiceModeConfig) (w : World) (id : positive)
    (q : MicRequest) (bins : list Z) :
  mounted w ->
  Session.findRequest id (br w) = Some q ->
  let n := nextHandle (br w) in
  let w' := Session.step config w (MicSettles id (Granted bins)) in
  capturing (liveStreams (br w) ++ [n]) (openContexts (br w) ++ [Pos.succ n])
    (filter (fun x => negb (Pos.eqb id (reqId x))) (micRequests (br w)))
    n (Pos.succ n) w'.
Proof.
  intros Hm Hf. cbv zeta.
  unfold Session.step, exec, Session.handle, Session.micSettles.
  unfold bind at 1, gets at 1. rewrite Hf.
  unfold bind at 1, upd_br at 1, modify at 1.
  rewrite granted_resumes.
  match goal with
  | |- capturing ?L ?C ?R ?s ?c (snd (?m (exec _ ?v))) =>
      assert (Hv : mounted v) by exact Hm;
      pose proof (createContext_runs v Hv) as (_ & Hc);
      cbv zeta in Hc;
      change (capturing L C R s c (exec AudioManagerClass.createContext v)) in Hc;
      revert Hc;
      generalize (exec AudioManagerClass.createContext v);
      change (preserves (capturing L C R s c) m)
  end.
  preserves_capturing.
Qed.

(** [startListening] without a context files a request under the next
    handle and touches neither the manager nor the capture. *)
Lemma startListening_requests (config : VoiceModeConfig) (w : World) :
  mounted w -> audioContext (am w) = None ->
  let n := nextHandle (br w) in
  let w1 := Session.step config w StartListening in
  micRequests (br w1)
  = micRequests (br w)
    ++ [mkMicRequest n (JS.or_else (language config) "en-US")
          (JS.nullish (continuous config) true)]
  /\ nextHandle (br w1) = Pos.succ n
  /\ am w1 = am w
  /\ liveStreams (br w1) = liveStreams (br w)
  /\ openContexts (br w1) = openContexts (br w)
  /\ mounted w1.
Proof.
  intros [Ha Hi] Hc. cbv zeta. unfold mounted.
  Permission.run_startListening. cbn. rewrite Ha, Hi. cbn. rewrite Hc. cbn.
  repeat apply conj; try reflexivity; assumption.
Qed.

(** *** What the manager no longer holds stays as it is *)

Lemma fresh_orphaned (s c : positive) :
  preserves (orphaned s c) Browser.fresh.
Proof.
  intros w (H1 & H2 & H3 & H4 & H5 & H6).
  unfold orphaned, Browser.fresh, bind, gets, upd_br, modify, ret. cbn.
  repeat apply conj; try assumption; lia.
Qed.

Lemma createContext_orphaned (s c : positive) :
  preserves (orphaned s c) AudioManagerClass.createContext.
Proof.
  intros w (H1 & H2 & H3 & H4 & H5 & H6).
  unfold orphaned, AudioManagerClass.createContext, Browser.newStream,
    Browser.newAudioContext, Browser.fresh, bind, gets, upd_am, upd_br,
    modify, ret.
  cbn. repeat apply conj.
  - apply Synthesis.mem_app_l, H1.
  - apply Synthesis.mem_app_l, H2.
  - lia.
  - lia.
  - intros [= E]. lia.
  - intros [= E]. lia.
Qed.

Lemma destroy_nextHandle (w : World) :
  nextHandle (br (exec AudioManagerClass.destroy w)) = nextHandle (br w).
Proof.
  destruct w as [h [ac an mi re fd ai st] b u l]. Cleanup.run. cbn.
  destruct re, ai, mi, ac, st; cbn; Cleanup.cases; reflexivity.
Qed.

Lemma destroy_orphaned (s c : positive) :
  preserves (orphaned s c) AudioManagerClass.destroy.
Proof.
  intros w (H1 & H2 & H3 & H4 & H5 & H6).
  change (orphaned s c (exec AudioManagerClass.destroy w)).
  pose proof (Cleanup.destroy_releases w) as (_ & _ & _ & Ho & Hl & _).
  cbv zeta in Ho, Hl. unfold orphaned.
  rewrite Ho, Hl, destroy_nextHandle, Cleanup.destroy_manager. cbn.
  repeat apply conj; try assumption; try discriminate.
  - destruct (stream (am w)) as [ s' | ]; [ | exact H1 ].
    apply Synthesis.mem_remove_other; [ | exact H1 ].
    apply Pos.eqb_neq. congruence.
  - destruct (audioContext (am w)) as [ c' | ]; [ | exact H2 ].
    apply Synthesis.mem_remove_other; [ | exact H2 ].
    apply Pos.eqb_neq. congruence.
Qed.

Ltac orphaned_leaf :=
  apply Hoare.preserves_modify;
  let w := fresh "w" in
  let H := fresh "H" in
  intros w H;
  first
    [ exact H
    | unfold orphaned in *; cbn;
      repeat match goal with
             | |- context [ match ?x with _ => _ end ] => destruct x
             end;
      exact H ].

Ltac preserves_orphaned :=
  repeat first
    [ match goal with
      | |- preserves _ Browser.fresh => apply fresh_orphaned
      | |- preserves _ AudioManagerClass.createContext =>
          apply createContext_orphaned
      | |- preserves _ AudioManagerClass.destroy =>
          apply destroy_orphaned
      | |- preserves _ (AudioManagerClass.startListening_catch _ _) =>
          unfold AudioManagerClass.startListening_catch
      | |- preserves _ (Coordinator.startListening_catch _) =>
          unfold Coordinator.startListening_catch
      | |- preserves _ (Coordinator.handleAudioData _) =>
          unfold Coordinator.handleAudioData, Coordinator.showFrequency
      | |- preserves _ Coordinator.debounceCheck =>
          unfold Coordinator.debounceCheck
      | |- preserves _ Coordinator.unmount =>
          unfold Coordinator.unmount
      | |- preserves _ (Session.timerFires _) =>
          unfold Session.timerFires
      | |- preserves _ (Session.recognitionEnd _) =>
          unfold Session.recognitionEnd
      | |- preserves _ (Coordinator.mount _ _) =>
          unfold Coordinator.mount
      | |- preserves _ (if _ then _ else _) =>
          match goal with
          | |- context [ if ?c then _ else _ ] => destruct c
          end
      end
    | preserves_step
    | progress unfold_handlers
    | progress cbv beta iota
    | orphaned_leaf ].

Lemma handle_orphaned (config : VoiceModeConfig) (s c : positive) (e : Event) :
  preserves (orphaned s c) (Session.handle config e).
Proof.
  destruct e; cbn [Session.handle]; preserves_orphaned.
Qed.

Lemma run_orphaned (config : VoiceModeConfig) (s c : positive)
    (es : list Event) (w : World) :
  orphaned s c w -> orphaned s c (Session.run config es w).
Proof.
  revert w. induction es as [ | e es IH ]; intros w H; cbn; [ exact H | ].
  apply IH. apply (handle_orphaned config s c e w H).
Qed.

(** X20. Two [startListening] calls made before the microphone request of
    the first has settled file two requests, since the manager holds no
    context yet.  When both are granted, each grant makes a stream and an
    audio context of its own and the manager keeps only those of the
    second.  The stream and the context of the first grant are then held by
    nobody: whatever happens afterwards, the cleanup of the hook included,
    that stream stays live and that context stays open. *)
Theorem second_grant_orphans_the_first_capture
    (config : VoiceModeConfig) (w : World) (bins1 bins2 : list Z) :
  mounted w -> audioContext (am w) = None ->
  let n := nextHandle (br w) in
  let lang := JS.or_else (language config) "en-US" in
  let cont := JS.nullish (continuous config) true in
  let w2 := Session.run config [StartListening; StartListening] w in
  let w3 := Session.step config w2 (MicSettles n (Granted bins1)) in
  let w4 := Session.step config w3 (MicSettles (Pos.succ n) (Granted bins2)) in
  let s1 := Pos.succ (Pos.succ n) in
  let s2 := nextHandle (br w3) in
  micRequests (br w2)
  = micRequests (br w)
    ++ [mkMicRequest n lang cont; mkMicRequest (Pos.succ n) lang cont]
  /\ stream (am w3) = Some s1 /\ audioContext (am w3) = Some (Pos.succ s1)
  /\ stream (am w4) = Some s2 /\ audioContext (am w4) = Some (Pos.succ s2)
  /\ (Pos.succ s1 < s2)%positive
  /\ liveStreams (br w4) = liveStreams (br w) ++ [s1; s2]
  /\ openContexts (br w4) = openContexts (br w) ++ [Pos.succ s1; Pos.succ s2]
  /\ (forall es : list Event,
        let w5 := Session.run config es w4 in
        Browser.mem s1 (liveStreams (br w5)) = true
        /\ Browser.mem (Pos.succ s1) (openContexts (br w5)) = true).
Proof.
  intros Hm Hc. cbv zeta. cbn [Session.run fold_left].
  destruct (startListening_requests config w Hm Hc)
    as (R1 & N1 & A1 & L1 & C1 & M1).
  cbv zeta in R1, N1.
  remember (Session.step config w StartListening) as w1 eqn:E1.
  assert (Hc1 : audioContext (am w1) = None) by (rewrite A1; exact Hc).
  destruct (startListening_requests config w1 M1 Hc1)
    as (R2 & N2 & A2 & L2 & C2 & M2).
  cbv zeta in R2, N2.
  remember (Session.step config w1 StartListening) as w2 eqn:E2.
  rewrite N1 in R2, N2. rewrite R1, <- app_assoc in R2. cbn [app] in R2.
  destruct (find_present (fun q => Pos.eqb (nextHandle (br w)) (reqId q))
              (mkMicRequest (nextHandle (br w))
                 (JS.or_else (language config) "en-US")
                 (JS.nullish (continuous config) true))
              (micRequests (br w2))) as [q Hq].
  { rewrite R2. apply in_or_app. right. left. reflexivity. }
  { cbn. apply Pos.eqb_refl. }
  destruct (granted_adds config w2 (nextHandle (br w)) q bins1 M2 Hq)
    as (G1 & G2 & G3 & G4 & G5 & G6 & G7).
  cbv zeta in G1, G2, G3, G4, G5, G6, G7.
  remember (Session.step config w2
              (MicSettles (nextHandle (br w)) (Granted bins1))) as w3 eqn:E3.
  rewrite N2 in G1, G2, G4, G5, G6.
  destruct (find_present
              (fun q => Pos.eqb (Pos.succ (nextHandle (br w))) (reqId q))
              (mkMicRequest (Pos.succ (nextHandle (br w)))
                 (JS.or_else (language config) "en-US")
                 (JS.nullish (continuous config) true))
              (micRequests (br w3))) as [q' Hq'].
  { rewrite G3. apply filter_In. split.
    - rewrite R2. apply in_or_app. right. right. left. reflexivity.
    - cbn. apply negb_true_iff, Pos.eqb_neq. lia. }
  { cbn. apply Pos.eqb_refl. }
  destruct (granted_adds config w3 (Pos.succ (nextHandle (br w))) q' bins2
              G7 Hq')
    as (K1 & K2 & K3 & K4 & K5 & K6 & K7).
  cbv zeta in K1, K2, K3, K4, K5, K6, K7.
  remember (Session.step config w3
              (MicSettles (Pos.succ (nextHandle (br w))) (Granted bins2)))
    as w4 eqn:E4.
  rewrite G1, L2, L1, <- app_assoc in K1. cbn [app] in K1.
  rewrite G2, C2, C1, <- app_assoc in K2. cbn [app] in K2.
  split; [ exact R2 | ].
  split; [ exact G4 | ].
  split; [ exact G5 | ].
  split; [ exact K4 | ].
  split; [ exact K5 | ].
  split; [ exact G6 | ].
  split; [ exact K1 | ].
  split; [ exact K2 | ].
  intros es.
  assert (Ho : orphaned (Pos.succ (Pos.succ (nextHandle (br w))))
                 (Pos.succ (Pos.succ (Pos.succ (nextHandle (br w))))) w4).
  { unfold orphaned. rewrite K1, K2, K4, K5.
    repeat apply conj.
    - unfold Browser.mem. rewrite existsb_app. cbn.
      rewrite Pos.eqb_refl. apply orb_true_r.
    - unfold Browser.mem. rewrite existsb_app. cbn.
      rewrite Pos.eqb_refl. apply orb_true_r.
    - lia.
    - lia.
    - intros [= E]. lia.
    - intros [= E]. lia. }
  apply (run_orphaned config _ _ es) in Ho.
  split; [ exact (proj1 Ho) | exact (proj1 (proj2 Ho)) ].
Qed.

Lemma second_grant_orphans_the_first_capture_witness :
  let w := Session.step VoiceMode.config Session.initial (Mount true) in
  let w2 := Session.run VoiceMode.config [StartListening; StartListening] w in
  let w3 := Session.step VoiceMode.config w2 (MicSettles 1 (Granted [200%Z])) in
  let w4 := Session.step VoiceMode.config w3 (MicSettles 2 (Granted [])) in
  (mounted w /\ audioContext (am w) = None)
  /\ stream (am w4) = Some (nextHandle (br w3))
  /\ Browser.mem 3 (liveStreams (br (Session.run VoiceMode.config [Unmount] w4)))
     = true.
Proof.
  cbv zeta.
  assert (Hm : mounted (Session.step VoiceMode.config Session.initial (Mount true)))
    by (split; vm_compute; reflexivity).
  assert (Hc : audioContext
                 (am (Session.step VoiceMode.config Session.initial (Mount true)))
               = None)
    by (vm_compute; reflexivity).
  pose proof (second_grant_orphans_the_first_capture VoiceMode.config
                (Session.step VoiceMode.config Session.initial (Mount true))
                [200%Z] [] Hm Hc) as T.
  cbv zeta in T.
  destruct T as (_ & _ & _ & Hs & _ & _ & _ & _ & Hl).
  split; [ split; [ exact Hm | exact Hc ] | ].
  split; [ exact Hs | ].
  exact (proj1 (Hl [Unmount])).
Defined.

End Concurrent.
